(** * san-cli [Service]: a shallow embedding of [lib/Service.js]

    The development follows the source file from the bottom up: the string
    helpers at the end of the file ([getCommandName], [ensureSlash],
    [removeSlash], [cloneRuleNames]), then the JavaScript values they work
    on, then the [Service] class with its registries, and finally the
    properties of these definitions. *)

From Stdlib Require Import Ascii String ZArith Lia Bool.
From stdpp Require Import gmap strings list fin_maps pretty.

Open Scope string_scope.

(** ** JavaScript strings

    A string is a sequence of code units; the embedding keeps the code units
    below 256, which is what [ascii] holds.  All the regular expressions of
    the source are written without the [u], [m] and [s] flags, so a negated
    class matches any single code unit and [$] matches at the end of the
    input only. *)
Module JsString.

(** The class [\s] on code units below 256: TAB, LF, VT, FF, CR, SPACE and
    NBSP.  [String.prototype.trim] strips the same set. *)
Definition is_space (c : ascii) : bool :=
  let n := nat_of_ascii c in
  (Nat.leb 9 n && Nat.leb n 13) || Nat.eqb n 32 || Nat.eqb n 160.

(** [s.replace(/\s{2,}/g, ' ')]: every maximal run of two or more white
    characters becomes one space; [skipping] is set while the rest of such
    a run is consumed. *)
Fixpoint collapse (skipping : bool) (s : string) : string :=
  match s with
  | "" => ""
  | String c r =>
      if is_space c then
        if skipping then collapse true r
        else match r with
             | String c2 _ =>
                 if is_space c2 then String " " (collapse true r)
                 else String c (collapse false r)
             | "" => String c ""
             end
      else String c (collapse false r)
  end.

(** [[^o]*c] anchored at the start of [t]: some [c] occurs with no [o]
    before it. *)
Fixpoint closes_first (o c : ascii) (t : string) : bool :=
  match t with
  | "" => false
  | String x r =>
      if Ascii.eqb x c then true
      else if Ascii.eqb x o then false
      else closes_first o c r
  end.

(** The body of the negative lookahead, [[^[]*]|[^<]*>]. *)
Definition in_group (t : string) : bool :=
  closes_first "[" "]" t || closes_first "<" ">" t.

(** [\s+(?![^[]*]|[^<]*>)] anchored at the start of [s]: one white
    character, then either a longer run that matches or the lookahead
    right here. *)
Fixpoint sep_match (s : string) : bool :=
  match s with
  | "" => false
  | String c r => is_space c && (sep_match r || negb (in_group r))
  end.

(** [s.split(sep)[0]]: the text before the leftmost match of the
    separator, the whole string when there is none. *)
Fixpoint split_head (s : string) : string :=
  match s with
  | "" => ""
  | String c r => if sep_match s then "" else String c (split_head r)
  end.

Fixpoint all_space (s : string) : bool :=
  match s with
  | "" => true
  | String c r => is_space c && all_space r
  end.

Fixpoint trim_left (s : string) : string :=
  match s with
  | "" => ""
  | String c r => if is_space c then trim_left r else s
  end.

Fixpoint trim_right (s : string) : string :=
  match s with
  | "" => ""
  | String c r => if all_space s then "" else String c (trim_right r)
  end.

(** [s.trim()] *)
Definition trim (s : string) : string := trim_right (trim_left s).

(** [pre] is a prefix of [s]. *)
Fixpoint starts_with (pre s : string) : bool :=
  match pre, s with
  | "", _ => true
  | String a p, String b r => Ascii.eqb a b && starts_with p r
  | String _ _, "" => false
  end.

(** The last code unit of [s] is [c]. *)
Fixpoint ends_with (c : ascii) (s : string) : bool :=
  match s with
  | "" => false
  | String x "" => Ascii.eqb x c
  | String _ r => ends_with c r
  end.

(** [/^https?:/.test(s)] *)
Definition is_http (s : string) : bool :=
  starts_with "http:" s || starts_with "https:" s.

(** [s.replace(/^([^/.])/, '/$1')] *)
Definition lead_slash (s : string) : string :=
  match s with
  | "" => ""
  | String c _ =>
      if Ascii.eqb c "/" || Ascii.eqb c "." then s else String "/" s
  end.

(** [s.replace(/([^/])$/, '$1/')] *)
Fixpoint trail_slash (s : string) : string :=
  match s with
  | "" => ""
  | String c "" => if Ascii.eqb c "/" then s else String c "/"
  | String c r => String c (trail_slash r)
  end.

(** [s.replace(/^\.\//, '')] *)
Definition strip_dot_slash (s : string) : string :=
  match s with
  | String "." (String "/" r) => r
  | _ => s
  end.

(** [s.replace(/\/$/g, '')] *)
Fixpoint strip_trail_slash (s : string) : string :=
  match s with
  | "" => ""
  | String c "" => if Ascii.eqb c "/" then "" else s
  | String c r => String c (strip_trail_slash r)
  end.

End JsString.

(** [getCommandName], lines 517-522. *)
Definition getCommandName (command : string) : string :=
  JsString.trim (JsString.split_head (JsString.collapse false command)).



(** ** JavaScript values

    Objects keep their own enumerable properties in insertion order (the
    order in which JavaScript enumerates index-like keys, before the other
    keys, is not reproduced; nothing below reads the order).  Arrays and
    functions are objects too ([typeof] and lodash's [isObject] tell them
    apart); an array holds its elements under the keys ["0"], ["1"], ...
    A string has its characters under the same keys, and its [length].
    Inherited properties are not kept, for any value. *)
Inductive prim :=
| PUndefined
| PNull
| PBool (b : bool)
| PNum (n : Z)
| PStr (s : string).

Inductive objkind :=
| KPlain
| KArray
| KFunction (f : nat)
| KBoxed (p : prim).

#[warnings="-register-all"] Inductive jsval :=
| JPrim (p : prim)
| JObj (k : objkind) (props : list (string * jsval)).

Abbreviation props := (list (string * jsval)).
Abbreviation JUndefined := (JPrim PUndefined).
Abbreviation JNull := (JPrim PNull).
Abbreviation JStr s := (JPrim (PStr s)).
Abbreviation JNum n := (JPrim (PNum n)).
Abbreviation JBool b := (JPrim (PBool b)).
Abbreviation JFalse := (JPrim (PBool false)).
Abbreviation JTrue := (JPrim (PBool true)).

Module Js.

(** Truthiness, as [if (v)], [v || w] and [!v] see it. *)
Definition truthy (v : jsval) : bool :=
  match v with
  | JPrim PUndefined | JPrim PNull => false
  | JPrim (PBool b) => b
  | JPrim (PNum n) => negb (Z.eqb n 0)
  | JPrim (PStr s) => negb (String.eqb s "")
  | JObj _ _ => true
  end.

(** [v === false] *)
Definition is_false (v : jsval) : bool :=
  match v with
  | JPrim (PBool false) => true
  | _ => false
  end.

(** [typeof v === 'object'] (true of [null]) *)
Definition typeof_object (v : jsval) : bool :=
  match v with
  | JPrim PNull => true
  | JObj (KFunction _) _ => false
  | JObj _ _ => true
  | _ => false
  end.

(** [typeof v === 'function'] *)
Definition typeof_function (v : jsval) : bool :=
  match v with
  | JObj (KFunction _) _ => true
  | _ => false
  end.

(** lodash [isObject]: objects and functions, not [null]. *)
Definition is_object (v : jsval) : bool :=
  match v with
  | JObj _ _ => true
  | JPrim _ => false
  end.

Fixpoint lookup (k : string) (ps : props) : option jsval :=
  match ps with
  | [] => None
  | (k', v) :: r => if String.eqb k k' then Some v else lookup k r
  end.

(** [o[k] = v] on the property list: an existing key keeps its place. *)
Fixpoint assign (k : string) (v : jsval) (ps : props) : props :=
  match ps with
  | [] => [(k, v)]
  | (k', v') :: r =>
      if String.eqb k k' then (k, v) :: r else (k', v') :: assign k v r
  end.

(** A literal array. *)
Fixpoint index_from (i : nat) (vs : list jsval) : props :=
  match vs with
  | [] => []
  | v :: r => (pretty i, v) :: index_from (S i) r
  end.

(** The index that a property name stands for: a decimal numeral without
    sign or leading zero. *)
Definition digit (c : ascii) : option nat :=
  let n := nat_of_ascii c in
  if Nat.leb 48 n && Nat.leb n 57 then Some (n - 48) else None.

Fixpoint numeral (acc : nat) (k : string) : option nat :=
  match k with
  | "" => Some acc
  | String c r =>
      match digit c with
      | Some d => numeral (10 * acc + d) r
      | None => None
      end
  end.

Definition index_of (k : string) : option nat :=
  match k with
  | "" => None
  | String "0" "" => Some 0
  | String "0" _ => None
  | _ => numeral 0 k
  end.

Fixpoint char_at (i : nat) (s : string) : option ascii :=
  match s, i with
  | "", _ => None
  | String c _, 0 => Some c
  | String _ r, S j => char_at j r
  end.

(** [s[k]] on a string: the character at an index, the [length]. *)
Definition get_string (s k : string) : jsval :=
  match index_of k with
  | Some i =>
      match char_at i s with
      | Some c => JPrim (PStr (String c ""))
      | None => JPrim PUndefined
      end
  | None =>
      if String.eqb k "length"
      then JPrim (PNum (Z.of_nat (String.length s)))
      else JPrim PUndefined
  end.

Fixpoint chars (s : string) : list jsval :=
  match s with
  | "" => []
  | String c r => JPrim (PStr (String c "")) :: chars r
  end.

(** The own enumerable properties of a string, as [Object.assign] and
    [Object(s)] see them. *)
Definition string_props (s : string) : props := index_from 0 (chars s).

(** [o[k]] where [o] is not [null] or [undefined]: a missing property
    reads as [undefined]; a number or a boolean has no own property.  (The
    [length] of an array or of a boxed string and the [name] and [length]
    of a function are not kept; the service reads them of no value that is
    kept here.) *)
Definition get (o : jsval) (k : string) : jsval :=
  match o with
  | JObj _ ps => default JUndefined (lookup k ps)
  | JPrim (PStr s) => get_string s k
  | JPrim _ => JUndefined
  end.

(** [o[k] = v] where [o] is an object. *)
Definition set (o : jsval) (k : string) (v : jsval) : jsval :=
  match o with
  | JObj kd ps => JObj kd (assign k v ps)
  | JPrim _ => o
  end.

Definition own_props (v : jsval) : props :=
  match v with
  | JObj _ ps => ps
  | JPrim (PStr s) => string_props s
  | JPrim _ => []
  end.

(** [Object.assign(target, source)] on the property lists. *)
Definition assign_all (target source : props) : props :=
  fold_left (fun acc kv => assign kv.1 kv.2 acc) source target.

Definition array (vs : list jsval) : jsval := JObj KArray (index_from 0 vs).

Definition obj (ps : props) : jsval := JObj KPlain ps.

End Js.

(** ** [lodash.defaultsdeep]

    The library is a collaborator of the service; the embedding follows its
    [baseMerge] with the [customDefaultsMerge] customizer.  For every key
    [k] of the source, with source value [sv] and destination value [ov]:
    - [ov] is [undefined] (also when [k] is missing): the destination gets
      [sv] (a copy, for an object);
    - [ov] and [sv] are both objects: [sv] is merged into [ov] by the same
      rule;
    - otherwise the destination keeps [ov]. *)
Module Lodash.

Definition merge_key (k : string) (sv : jsval) (rec : props -> props)
    (op : props) : props :=
  match Js.lookup k op with
  | None => op ++ [(k, sv)]
  | Some (JPrim PUndefined) => Js.assign k sv op
  | Some (JObj kd ops) =>
      if Js.is_object sv then Js.assign k (JObj kd (rec ops)) op else op
  | Some (JPrim _) => op
  end.

(** [baseMerge(object, source)] on the properties of [object]. *)
Fixpoint merge_into (source : jsval) : props -> props :=
  match source with
  | JPrim _ => fun op => op
  | JObj _ sp =>
      (fix go (sp : props) (op : props) : props :=
         match sp with
         | [] => op
         | (k, sv) :: rest => go rest (merge_key k sv (merge_into sv) op)
         end) sp
  end.

(** [Object(v)], the destination that [createAssigner] works on; a
    boxed string owns its characters. *)
Definition to_object (v : jsval) : jsval :=
  match v with
  | JObj _ _ => v
  | JPrim PUndefined | JPrim PNull => JObj KPlain []
  | JPrim (PStr s) => JObj (KBoxed (PStr s)) (Js.string_props s)
  | JPrim p => JObj (KBoxed p) []
  end.

Definition defaultsDeep (object source : jsval) : jsval :=
  match to_object object with
  | JObj kd op => JObj kd (merge_into source op)
  | v => v
  end.

End Lodash.


(** ** Exceptions and logging *)
Inductive error :=
| SError (msg : string)
| TypeError (what : string)
| Failure (msg : string)
| ThrownValue (v : jsval).

Inductive result (A : Type) :=
| Ok (a : A)
| Throw (e : error).
Arguments Ok {A} a.
Arguments Throw {A} e.

#[global] Instance result_ret : MRet result := fun A a => Ok a.

#[global] Instance result_bind : MBind result := fun A B k r =>
  match r with
  | Ok a => k a
  | Throw e => Throw e
  end.

Definition is_ok {A : Type} (r : result A) : bool :=
  match r with
  | Ok _ => true
  | Throw _ => false
  end.

(** A line written through [logger.warn] or [logger.error], with its scope. *)
Inductive logline :=
| LogWarn (scope msg : string)
| LogError (scope msg : string).

(** ** The helpers at the end of the file *)

(** [removeSlash], lines 502-506. *)
Definition removeSlash (config : jsval) (key : string) : jsval :=
  match Js.get config key with
  | JPrim (PStr s) => Js.set config key (JStr (JsString.strip_trail_slash s))
  | _ => config
  end.

(** [ensureSlash], lines 507-515. *)
Definition ensureSlash (config : jsval) (key : string) : jsval :=
  match Js.get config key with
  | JPrim (PStr val) =>
      let val := if JsString.is_http val then val else JsString.lead_slash val in
      Js.set config key (JStr (JsString.trail_slash val))
  | _ => config
  end.

(** [cloneRuleNames], lines 488-500.  [to] is updated in place in the
    source; here the updated value is returned.  [from.forEach((r, i) => ..)]
    runs over the elements of [from] with their index; the element of [to]
    at the same index is read with [to[i]].  The annotation is written with
    [Object.defineProperty]; the rule objects that come out of a merge are
    fresh, so the definition always goes through on an object.  Reading a
    property of [null] or [undefined] and defining one on a primitive are
    [TypeError]s. *)
Module RuleNames.

Definition define_on (t r : jsval) : result jsval :=
  match r with
  | JPrim PUndefined | JPrim PNull => Throw (TypeError "__ruleNames")
  | _ =>
      match t with
      | JObj kd ps =>
          Ok (JObj kd (Js.assign "__ruleNames" (Js.get r "__ruleNames") ps))
      | JPrim _ => Throw (TypeError "Object.defineProperty")
      end
  end.

(** The body of the [forEach] callback; [rec] stands for
    [cloneRuleNames(_, r.oneOf)]. *)
Definition for_each_rule (rec : jsval -> result jsval)
    (k : string) (r : jsval) (to : jsval) : result jsval :=
  let ti := Js.get to k in
  if Js.truthy ti then
    t1 ← define_on ti r;
    o ← rec (Js.get t1 "oneOf");
    Ok (Js.set to k (if Js.truthy (Js.get t1 "oneOf")
                     then Js.set t1 "oneOf" o else t1))
  else Ok to.

End RuleNames.

Fixpoint cloneRuleNames_from (from : jsval) : jsval -> result jsval :=
  match from with
  | JPrim p => fun to =>
      if negb (Js.truthy to) || negb (Js.truthy (JPrim p)) then Ok to
      else Throw (TypeError "from.forEach is not a function")
  | JObj kd rs => fun to =>
      if negb (Js.truthy to) then Ok to
      else
        match kd with
        | KArray =>
            (fix each (rs : props) (to : jsval) : result jsval :=
               match rs with
               | [] => Ok to
               | (k, r) :: rest =>
                   let one_of :=
                     match r with
                     | JObj _ rps =>
                         (fix find (rps : props) : jsval -> result jsval :=
                            match rps with
                            | [] => fun o => Ok o
                            | (k', v) :: rps' =>
                                if String.eqb "oneOf" k'
                                then cloneRuleNames_from v
                                else find rps'
                            end) rps
                     | JPrim _ => fun o => Ok o
                     end in
                   to1 ← RuleNames.for_each_rule one_of k r to;
                   each rest to1
               end) rs to
        | _ => Throw (TypeError "from.forEach is not a function")
        end
  end.

Definition cloneRuleNames (to from : jsval) : result jsval :=
  cloneRuleNames_from from to.


(** More of the JavaScript operators the service uses. *)
Module JsOps.

(** [a || b] *)
Definition or (a b : jsval) : jsval := if Js.truthy a then a else b.

(** [o[k]] with the [TypeError] of reading a property of [null] or
    [undefined]. *)
Definition prop (o : jsval) (k : string) : result jsval :=
  match o with
  | JPrim PUndefined | JPrim PNull => Throw (TypeError ("reading " ++ k))
  | _ => Ok (Js.get o k)
  end.

(** The elements of an array, [None] for anything else
    ([Array.isArray]). *)
Definition elems (v : jsval) : option (list jsval) :=
  match v with
  | JObj KArray ps => Some (ps.*2)
  | _ => None
  end.

(** A string receiver, as in [command.replace(..)]. *)
Definition as_string (v : jsval) : result string :=
  match v with
  | JPrim (PStr s) => Ok s
  | _ => Throw (TypeError "not a string")
  end.

(** The code of a function value. *)
Definition as_function (v : jsval) : result nat :=
  match v with
  | JObj (KFunction f) _ => Ok f
  | _ => Throw (TypeError "not a function")
  end.

End JsOps.

(** ** The registries of a service *)

(** The handler stored with a command: the one that was registered, or the
    closure of [registerCommand], lines 254-258, that only warns about an
    empty handler; the closure holds the first argument of
    [registerCommand], which its warning names. *)
Inductive cmdHandler :=
| UserHandler (f : nat)
| EmptyHandler (name : jsval).

Record CommandEntry := {
  command : string;
  handler : cmdHandler;
  description : jsval;
  builder : jsval;
  middlewares : jsval
}.

(** A resolved plugin is an object that the service shares with whoever
    exported it: for a plugin named by a string it is the export of the
    module ([require(name)], or its [default]), which [_resolvePlugin] may
    change in place when it gives the plugin its id.  The plugin list holds
    such a plugin by reference; a plugin passed as an object is held as it
    is. *)
Inductive pluginRef :=
| ModuleExport (name : string) (esm : bool)
| InlinePlugin (p : jsval).

(** An entry of the plugin list: [plugin] or [[plugin, pluginOptions]]. *)
Inductive descriptor :=
| Plugin (r : pluginRef)
| PluginWithOptions (r : pluginRef) (options : jsval).

(** The state of a [Service] instance (the fields set by the constructor,
    by [run] and by [init]), together with Node's module registry, which
    [require] reads and [_resolvePlugin] writes when it gives a plugin its
    default id. *)
Record Service := {
  cwd : string;
  initialized : bool;
  mode : jsval;
  initProjectOptions : jsval;
  projectOptions : jsval;
  webpackChainFns : list jsval;
  webpackRawConfigFns : list jsval;
  registeredCommands : gmap string CommandEntry;
  registeredCommandFlags : gmap string jsval;
  registeredCommandHandlers : gmap string (list jsval);
  plugins : list descriptor;
  modules : gmap string jsval
}.

Definition set_initialized (b : bool) (s : Service) : Service :=
  {| cwd := s.(cwd); initialized := b; mode := s.(mode);
     initProjectOptions := s.(initProjectOptions);
     projectOptions := s.(projectOptions);
     webpackChainFns := s.(webpackChainFns);
     webpackRawConfigFns := s.(webpackRawConfigFns);
     registeredCommands := s.(registeredCommands);
     registeredCommandFlags := s.(registeredCommandFlags);
     registeredCommandHandlers := s.(registeredCommandHandlers);
     plugins := s.(plugins); modules := s.(modules) |}.

Definition set_mode (m : jsval) (s : Service) : Service :=
  {| cwd := s.(cwd); initialized := s.(initialized); mode := m;
     initProjectOptions := s.(initProjectOptions);
     projectOptions := s.(projectOptions);
     webpackChainFns := s.(webpackChainFns);
     webpackRawConfigFns := s.(webpackRawConfigFns);
     registeredCommands := s.(registeredCommands);
     registeredCommandFlags := s.(registeredCommandFlags);
     registeredCommandHandlers := s.(registeredCommandHandlers);
     plugins := s.(plugins); modules := s.(modules) |}.

Definition set_webpackChainFns (l : list jsval) (s : Service) : Service :=
  {| cwd := s.(cwd); initialized := s.(initialized); mode := s.(mode);
     initProjectOptions := s.(initProjectOptions);
     projectOptions := s.(projectOptions);
     webpackChainFns := l;
     webpackRawConfigFns := s.(webpackRawConfigFns);
     registeredCommands := s.(registeredCommands);
     registeredCommandFlags := s.(registeredCommandFlags);
     registeredCommandHandlers := s.(registeredCommandHandlers);
     plugins := s.(plugins); modules := s.(modules) |}.

Definition set_webpackRawConfigFns (l : list jsval) (s : Service) : Service :=
  {| cwd := s.(cwd); initialized := s.(initialized); mode := s.(mode);
     initProjectOptions := s.(initProjectOptions);
     projectOptions := s.(projectOptions);
     webpackChainFns := s.(webpackChainFns);
     webpackRawConfigFns := l;
     registeredCommands := s.(registeredCommands);
     registeredCommandFlags := s.(registeredCommandFlags);
     registeredCommandHandlers := s.(registeredCommandHandlers);
     plugins := s.(plugins); modules := s.(modules) |}.

Definition set_registeredCommands (m : gmap string CommandEntry)
    (s : Service) : Service :=
  {| cwd := s.(cwd); initialized := s.(initialized); mode := s.(mode);
     initProjectOptions := s.(initProjectOptions);
     projectOptions := s.(projectOptions);
     webpackChainFns := s.(webpackChainFns);
     webpackRawConfigFns := s.(webpackRawConfigFns);
     registeredCommands := m;
     registeredCommandFlags := s.(registeredCommandFlags);
     registeredCommandHandlers := s.(registeredCommandHandlers);
     plugins := s.(plugins); modules := s.(modules) |}.

Definition set_flags (fm : gmap string jsval)
    (hm : gmap string (list jsval)) (s : Service) : Service :=
  {| cwd := s.(cwd); initialized := s.(initialized); mode := s.(mode);
     initProjectOptions := s.(initProjectOptions);
     projectOptions := s.(projectOptions);
     webpackChainFns := s.(webpackChainFns);
     webpackRawConfigFns := s.(webpackRawConfigFns);
     registeredCommands := s.(registeredCommands);
     registeredCommandFlags := fm;
     registeredCommandHandlers := hm;
     plugins := s.(plugins); modules := s.(modules) |}.

Definition set_plugins (l : list descriptor) (s : Service) : Service :=
  {| cwd := s.(cwd); initialized := s.(initialized); mode := s.(mode);
     initProjectOptions := s.(initProjectOptions);
     projectOptions := s.(projectOptions);
     webpackChainFns := s.(webpackChainFns);
     webpackRawConfigFns := s.(webpackRawConfigFns);
     registeredCommands := s.(registeredCommands);
     registeredCommandFlags := s.(registeredCommandFlags);
     registeredCommandHandlers := s.(registeredCommandHandlers);
     plugins := l; modules := s.(modules) |}.

Definition set_modules (m : gmap string jsval) (s : Service) : Service :=
  {| cwd := s.(cwd); initialized := s.(initialized); mode := s.(mode);
     initProjectOptions := s.(initProjectOptions);
     projectOptions := s.(projectOptions);
     webpackChainFns := s.(webpackChainFns);
     webpackRawConfigFns := s.(webpackRawConfigFns);
     registeredCommands := s.(registeredCommands);
     registeredCommandFlags := s.(registeredCommandFlags);
     registeredCommandHandlers := s.(registeredCommandHandlers);
     plugins := s.(plugins); modules := m |}.

(** A method of the service: it reads and writes the instance and returns
    or throws. *)
Definition method (A : Type) : Type := Service -> result A * Service.

Definition andThen {A B : Type} (m : method A) (k : A -> method B) : method B :=
  fun s =>
    match m s with
    | (Ok a, s1) => k a s1
    | (Throw e, s1) => (Throw e, s1)
    end.

Definition returns {A : Type} (a : A) : method A := fun s => (Ok a, s).
Definition throws {A : Type} (e : error) : method A := fun s => (Throw e, s).
Definition lift {A : Type} (r : result A) : method A := fun s => (r, s).
Definition update (f : Service -> Service) : method unit :=
  fun s => (Ok tt, f s).

Notation "'do' x <~ m ; k" := (andThen m (fun x => k))
  (at level 10, x name, m at level 100, k at level 200).

(** ** Plugins

    A plugin reaches the service only through the facade that [initPlugin]
    builds.  What a plugin's [apply] does is therefore a sequence of facade
    calls, each with its argument list, or a throw. *)
Inductive PluginOp :=
| ApiRegisterCommand (args : list jsval)
| ApiRegisterCommandFlag (args : list jsval)
| ApiAddPlugin (args : list jsval)
| ApiChainWebpack (fn : jsval)
| ApiConfigWebpack (fn : jsval)
| ApiThrow (e : error).

Definition BUILDIN_PLUGINS : list string :=
  ["base"; "css"; "app"; "optimization"; "babel"].

(** The [i]-th argument of a call, [undefined] when it was not passed. *)
Definition arg (i : nat) (args : list jsval) : jsval := nth i args JUndefined.

(** The text of [String(p)] in an error message; the text of an object is
    given for a plain object. *)
Definition show (p : jsval) : string :=
  match p with
  | JPrim PUndefined => "undefined"
  | JPrim PNull => "null"
  | JPrim (PBool true) => "true"
  | JPrim (PBool false) => "false"
  | JPrim (PNum n) => pretty n
  | JPrim (PStr s) => s
  | JObj _ _ => "[object Object]"
  end.

Section Plugins.

(** [argsert(pattern, args, arguments.length)] of [./argsert]: whether the
    arguments have the shape the pattern asks for; it throws when they do
    not. *)
Variable argsert : string -> list jsval -> bool.

(** The code of a plugin's [apply]: the facade calls it makes, given the
    project options and the plugin options. *)
Variable plugin_code : nat -> jsval -> jsval -> list PluginOp.

(** [require(name)]: the module registry of Node. *)
Definition require (name : string) : method jsval := fun s =>
  match s.(modules) !! name with
  | Some m => (Ok m, s)
  | None => (Throw (Failure ("Cannot find module " ++ name)), s)
  end.

(** The [try] block of [_resolvePlugin], lines 121-142, on the module
    [m] that [require(p)] returned: whether the plugin is the [default] of
    the module, and the module after [plugin.id = p]. *)
Definition load_plugin (p : string) (m : jsval) : result (bool * jsval) :=
  d ← JsOps.prop m "default";
  let plugin := if Js.truthy d then d else m in
  if Js.typeof_object plugin then
    a ← JsOps.prop plugin "apply";
    if Js.typeof_function a then
      let plugin' :=
        if Js.truthy (Js.get plugin "id") then plugin
        else Js.set plugin "id" (JStr p) in
      Ok (Js.truthy d,
          if Js.truthy d then Js.set m "default" plugin' else plugin')
    else Throw (SError ("Plugin is valid : " ++ p))
  else Throw (SError ("Plugin is valid : " ++ p)).

(** [_resolvePlugin], lines 112-153.  Whatever is thrown in the [try]
    block is caught and thrown again as the error of line 144. *)
Definition _resolvePlugin (p0 : jsval) : method descriptor :=
  let '(p, pluginOptions) :=
    match JsOps.elems p0 with
    | Some [a; b] => (a, b)
    | _ => (p0, JUndefined)
    end in
  match p with
  | JPrim (PStr name) => fun s =>
      match s.(modules) !! name with
      | Some m =>
          match load_plugin name m with
          | Ok (esm, m') =>
              (Ok (if Js.truthy pluginOptions
                   then PluginWithOptions (ModuleExport name esm) pluginOptions
                   else Plugin (ModuleExport name esm)),
               set_modules (<[name := m']> s.(modules)) s)
          | Throw _ => (Throw (SError ("Require plugin is valid : " ++ name)), s)
          end
      | None => (Throw (SError ("Require plugin is valid : " ++ name)), s)
      end
  | _ =>
      if Js.typeof_object p then
        do id <~ lift (JsOps.prop p "id");
        if Js.truthy id && Js.typeof_function (Js.get p "apply")
        then returns (Plugin (InlinePlugin p))
        else throws (SError ("Plugin is valid : " ++ show p))
      else throws (SError ("Plugin is valid : " ++ show p))
  end.

(** [plugins.map(this._resolvePlugin)] *)
Fixpoint resolve_each (ps : list jsval) : method (list descriptor) :=
  match ps with
  | [] => returns []
  | p :: rest =>
      do d <~ _resolvePlugin p;
      do ds <~ resolve_each rest;
      returns (d :: ds)
  end.

(** The module of a built-in plugin. *)
Definition builtin_module (id : string) : string := "../configs/" ++ id.

(** [BUILDIN_PLUGINS.map(id => require(`../configs/${id}`))]: the exports
    of the modules, as they are. *)
Fixpoint require_each (ids : list string) : method (list descriptor) :=
  match ids with
  | [] => returns []
  | id :: rest =>
      do m <~ require (builtin_module id);
      do ms <~ require_each rest;
      returns (Plugin (ModuleExport (builtin_module id) false) :: ms)
  end.

(** [resolvePlugins], lines 94-111.  [plugins] is the argument as passed;
    anything but an array counts as the empty list. *)
Definition resolvePlugins (plugins : jsval) (useBuiltInPlugin : bool)
    : method (list descriptor) :=
  do builtInPlugins <~
     (if useBuiltInPlugin then require_each BUILDIN_PLUGINS else returns []);
  let plugins := default [] (JsOps.elems plugins) in
  match plugins with
  | _ :: _ =>
      do plugins <~ resolve_each plugins;
      returns (builtInPlugins ++ plugins)%list
  | [] => returns builtInPlugins
  end.

(** [addPlugin], lines 443-447. *)
Definition addPlugin (args : list jsval) : method unit :=
  let name := arg 0 args in
  let options :=
    match arg 1 args with
    | JPrim PUndefined => Js.obj []
    | o => o
    end in
  do plugin <~ _resolvePlugin (Js.array [name; options]);
  update (fun s => set_plugins (s.(plugins) ++ [plugin])%list s).

(** The object behind a reference, and the entry of the plugin list as
    [initPlugin] reads it. *)
Definition deref (r : pluginRef) (s : Service) : jsval :=
  match r with
  | ModuleExport name esm =>
      let m := default JUndefined (s.(modules) !! name) in
      if esm then Js.get m "default" else m
  | InlinePlugin p => p
  end.

Definition entry (d : descriptor) (s : Service) : jsval :=
  match d with
  | Plugin r => deref r s
  | PluginWithOptions r options => Js.array [deref r s; options]
  end.

(** [registerCommandFlag], lines 218-230. *)
Definition registerCommandFlag (args : list jsval) : method unit :=
  let cmdName := arg 0 args in
  let flag := arg 1 args in
  let handler := arg 2 args in
  if argsert "<string> <object> <function>" args then
    do cmdName <~ lift (JsOps.as_string cmdName);
    let cmdName := getCommandName cmdName in
    update (fun s =>
      let flags := default (Js.obj []) (s.(registeredCommandFlags) !! cmdName) in
      let flags :=
        match flags with
        | JObj kd ps => JObj kd (Js.assign_all ps (Js.own_props flag))
        | JPrim _ => flags
        end in
      let handlers := default [] (s.(registeredCommandHandlers) !! cmdName) in
      set_flags (<[cmdName := flags]> s.(registeredCommandFlags))
                (<[cmdName := (handlers ++ [handler])%list]> s.(registeredCommandHandlers))
                s)
  else throws (Failure "argsert").

(** The fields that [registerCommand] reads from a command module. *)
Definition module_fields (m : jsval)
    : result (jsval * jsval * jsval * jsval) :=
  d1 ← JsOps.prop m "description";
  d2 ← JsOps.prop m "desc";
  Ok (JsOps.or d1 d2, Js.get m "builder", Js.get m "handler",
      Js.get m "middlewares").

(** [registerCommand], lines 231-269. *)
Definition registerCommand (args : list jsval) : method unit :=
  let name := arg 0 args in
  let yargsModule := arg 1 args in
  if argsert "<string|<object> [function|object]" args then
    do parts <~ lift (
      if Js.typeof_object name then
        c ← JsOps.prop name "command";
        f ← module_fields name;
        Ok (c, f)
      else if Js.typeof_function yargsModule then
        Ok (name, (JUndefined, JUndefined, yargsModule, JUndefined))
      else
        f ← module_fields yargsModule;
        Ok (name, f));
    let '(command, (description, builder, handler, middlewares)) := parts in
    let handler :=
      match handler with
      | JObj (KFunction f) _ => UserHandler f
      | _ => EmptyHandler name
      end in
    do command <~ lift (JsOps.as_string command);
    let cmdName := getCommandName command in
    update (fun s =>
      set_registeredCommands
        (<[cmdName := {| command := command;
                         handler := handler;
                         description := if Js.truthy description
                                        then description else JFalse;
                         builder := if Js.truthy builder
                                    then builder else Js.obj [];
                         middlewares := if Js.truthy middlewares
                                        then middlewares else Js.array [] |}]>
           s.(registeredCommands)) s)
  else throws (Failure "argsert").

(** Modelled from the spec: [PluginAPI.js] is not part of the sources; its
    two configuration methods let a plugin "push configuration-transforming
    callbacks" on the two lists of the service. *)
Definition chainWebpack (fn : jsval) : method unit :=
  update (fun s => set_webpackChainFns (s.(webpackChainFns) ++ [fn])%list s).

Definition configWebpack (fn : jsval) : method unit :=
  update (fun s => set_webpackRawConfigFns (s.(webpackRawConfigFns) ++ [fn])%list s).

(** One call through the facade. *)
Definition api_call (op : PluginOp) : method unit :=
  match op with
  | ApiRegisterCommand args => registerCommand args
  | ApiRegisterCommandFlag args => registerCommandFlag args
  | ApiAddPlugin args => addPlugin args
  | ApiChainWebpack fn => chainWebpack fn
  | ApiConfigWebpack fn => configWebpack fn
  | ApiThrow e => throws e
  end.

Fixpoint api_calls (ops : list PluginOp) : method unit :=
  match ops with
  | [] => returns tt
  | op :: rest => do u <~ api_call op; api_calls rest
  end.

(** [initPlugin], lines 175-217. *)
Definition initPlugin (plugin : descriptor) : method unit := fun s =>
  let '(plugin, options) :=
    match JsOps.elems (entry plugin s) with
    | Some es => (arg 0 es, arg 1 es)
    | None => (entry plugin s, Js.obj [])
    end in
  (do apply <~ lift (JsOps.prop plugin "apply");
   do f <~ lift (JsOps.as_function apply);
   fun s => api_calls (plugin_code f s.(projectOptions) options) s) s.

(** [this.plugins.forEach(plugin => this.initPlugin(plugin))]: the
    plugins that are in the list when the loop starts; plugins added
    meanwhile are appended and not visited. *)
Fixpoint init_each (ps : list descriptor) : method unit :=
  match ps with
  | [] => returns tt
  | p :: rest => do u <~ initPlugin p; init_each rest
  end.

(** [init], lines 154-174. *)
Definition init (mode : jsval) : method unit := fun s =>
  if s.(initialized) then (Ok tt, s)
  else
    (do u <~ update (fun s => set_mode mode (set_initialized true s));
     do u <~ (fun s => init_each s.(plugins) s);
     do chain <~ (fun s => lift (JsOps.prop s.(projectOptions) "chainWebpack") s);
     do u <~ (if Js.truthy chain then chainWebpack chain else returns tt);
     do raw <~ (fun s => lift (JsOps.prop s.(projectOptions) "configureWebpack") s);
     if Js.truthy raw then configWebpack raw else returns tt) s.

End Plugins.

(** ** The webpack configuration *)

(** [a && b], with [b] read from [a]. *)
Definition and_prop (a : jsval) (k : string) : jsval :=
  if Js.truthy a then Js.get a k else a.

(** The loop of [resolveWebpackConfig] over [webpackRawConfigFns] keeps
    [config], the object [original] (which a callback may have changed in
    place as long as [config] was still that object), and whether [config]
    has been replaced by the result of a merge, which is what
    [config !== original] tests. *)
Record rawState := {
  config : jsval;
  original : jsval;
  replaced : bool
}.

Section Webpack.

(** The builder of [webpack-chain]: [new Config()] and [toConfig()]. *)
Context {Chain : Type}.
Variable new_Config : Chain.
Variable toConfig : Chain -> jsval.

(** The code of a chain callback, which works on the builder, and of a raw
    callback, which may change the configuration in place and returns a
    value. *)
Variable chain_code : nat -> Chain -> result Chain.
Variable raw_code : nat -> jsval -> result (jsval * jsval).

(** [webpack-merge]; the result is a new object. *)
Variable webpackMerge : jsval -> jsval -> jsval.

Fixpoint apply_chains (fns : list jsval) (c : Chain) : result Chain :=
  match fns with
  | [] => Ok c
  | fn :: rest =>
      f ← JsOps.as_function fn;
      c1 ← chain_code f c;
      apply_chains rest c1
  end.

(** [resolveChainableWebpackConfig], lines 449-454. *)
Definition resolveChainableWebpackConfig : method Chain := fun s =>
  (apply_chains s.(webpackChainFns) new_Config, s).

Definition apply_raw_fn (fn : jsval) (st : rawState) : result rawState :=
  match fn with
  | JObj (KFunction f) _ =>
      '(c1, res) ← raw_code f st.(config);
      let orig := if st.(replaced) then st.(original) else c1 in
      if Js.truthy res
      then Ok {| config := webpackMerge c1 res; original := orig;
                 replaced := true |}
      else Ok {| config := c1; original := orig; replaced := st.(replaced) |}
  | _ =>
      if Js.truthy fn
      then Ok {| config := webpackMerge st.(config) fn;
                 original := st.(original); replaced := true |}
      else Ok st
  end.

Fixpoint apply_raw (fns : list jsval) (st : rawState) : result rawState :=
  match fns with
  | [] => Ok st
  | fn :: rest => st1 ← apply_raw_fn fn st; apply_raw rest st1
  end.

(** Lines 480-482: the rules of [config] after [cloneRuleNames]. *)
Definition restore_rule_names (st : rawState) : result jsval :=
  if st.(replaced) then
    let module := Js.get st.(config) "module" in
    let to := and_prop module "rules" in
    let from := and_prop (Js.get st.(original) "module") "rules" in
    to' ← cloneRuleNames to from;
    Ok (if Js.truthy to
        then Js.set st.(config) "module" (Js.set module "rules" to')
        else st.(config))
  else Ok st.(config).

(** [resolveWebpackConfig], lines 456-485.  The default value of the
    parameter is computed before the body runs. *)
Definition resolveWebpackConfig (chainableConfig : option Chain)
    : method jsval :=
  do chainableConfig <~
     match chainableConfig with
     | Some c => returns c
     | None => resolveChainableWebpackConfig
     end;
  fun s =>
    if negb s.(initialized) then
      (Throw (SError
         "Service must call init() before calling resolveWebpackConfig()."), s)
    else
      let c := toConfig chainableConfig in
      (st ← apply_raw s.(webpackRawConfigFns)
              {| config := c; original := c; replaced := false |};
       restore_rule_names st, s).

End Webpack.

(** ** Running a command *)

(** What the composite handler of [runCommand] called, in order. *)
Inductive event :=
| FlagHandlerCalled (f : nat) (argv : jsval) (ret : result jsval)
| HandlerCalled (h : cmdHandler) (argv : jsval).



(** The call returned the value [false]. *)
Definition returned_false (ret : result jsval) : bool :=
  match ret with
  | Ok v => Js.is_false v
  | Throw _ => false
  end.

(** The call returned a value other than [false]. *)
Definition returned_non_false (ret : result jsval) : bool :=
  match ret with
  | Ok v => negb (Js.is_false v)
  | Throw _ => false
  end.

Section Dispatch.

(** Whatever the handlers work on. *)
Context {W : Type}.

(** The code of a handler: called with [argv], it returns or throws and
    changes the world. *)
Variable call : nat -> jsval -> W -> result jsval * W.

Variable argsert : string -> list jsval -> bool.

(** The argument parser: [cli.command(..)] followed by
    [cli.help().parse(rawArgs)] runs the handler of the command on the
    parsed arguments, or does not run it. *)
Variable cli_parse : string -> list string -> option jsval.

(** The text of [this._cli.$0] in the template literal of line 372. *)
Variable cli_0 : string.

(** The loop of lines 387-397. *)
Fixpoint flag_loop (handlers : list jsval) (argv doit : jsval) (w : W)
    : result jsval * W * list event :=
  match handlers with
  | [] => (Ok doit, w, [])
  | JObj (KFunction f) _ :: rest =>
      match call f argv w with
      | (Throw e, w1) => (Throw e, w1, [FlagHandlerCalled f argv (Throw e)])
      | (Ok v, w1) =>
          if Js.is_false v then (Ok v, w1, [FlagHandlerCalled f argv (Ok v)])
          else
            let '(r, w2, tr) := flag_loop rest argv v w1 in
            (r, w2, FlagHandlerCalled f argv (Ok v) :: tr)
      end
  | _ :: rest => flag_loop rest argv doit w
  end.

(** [oHandler(argv)], line 404: the function that was registered, or the
    closure of lines 254-258, which logs its warning. *)
Definition call_handler (oHandler : cmdHandler) (argv : jsval) (w : W)
    : result unit * W * list logline :=
  match oHandler with
  | UserHandler f =>
      let '(r, w1) := call f argv w in
      (match r with Ok _ => Ok tt | Throw e => Throw e end, w1, [])
  | EmptyHandler name =>
      (Ok tt, w,
       [LogWarn "registerCommand" (show name ++ " has an empty handler.")])
  end.

(** The handler that [runCommand] registers, lines 381-405. *)
Definition composite_handler (handlers : option (list jsval))
    (oHandler : cmdHandler) (argv : jsval) (w : W)
    : result unit * W * list event * list logline :=
  let '(r, w1, tr) :=
    match handlers with
    | Some hs => flag_loop hs argv JTrue w
    | None => (Ok JTrue, w, [])
    end in
  match r with
  | Throw e => (Throw e, w1, tr, [])
  | Ok doit =>
      if Js.is_false doit then (Ok tt, w1, tr, [])
      else
        let '(r2, w2, log) := call_handler oHandler argv w1 in
        (r2, w2, (tr ++ [HandlerCalled oHandler argv])%list, log)
  end.

(** Line 379: [Object.assign(flags, oFlags || {})]. *)
Definition builder_of (s : Service) (cmd : string) (c : CommandEntry) : jsval :=
  match default (Js.obj []) (s.(registeredCommandFlags) !! cmd) with
  | JObj kd ps =>
      JObj kd (Js.assign_all ps
                 (Js.own_props (JsOps.or c.(builder) (Js.obj []))))
  | JPrim p => JPrim p
  end.

(** Lines 409-411: the command comes first in the arguments. *)
Definition with_command (cmd : string) (rawArgs : list string) : list string :=
  match rawArgs with
  | a :: _ => if String.eqb a cmd then rawArgs else cmd :: rawArgs
  | [] => [cmd]
  end.

(** The arguments that [_registerCommand] checks, lines 270-278; the
    handler is the composite handler, a function. *)
Definition registration (s : Service) (cmd : string) (c : CommandEntry)
    : list jsval :=
  [JStr c.(command); JObj (KFunction 0) []; c.(description);
   builder_of s cmd c; c.(middlewares)].


(** [runCommand], lines 362-414: the result, the service, the world, the
    calls made and the lines logged.  The flags object of the command, when
    there is one in the registry, is the object that line 379 assigns to. *)
Definition runCommand (cmd : string) (rawArgs : list string)
    (s : Service) (w : W)
    : result unit * Service * W * list event * list logline :=
  let handlers := s.(registeredCommandHandlers) !! cmd in
  match s.(registeredCommands) !! cmd with
  | None =>
      (Ok tt, s, w, [],
       [LogError "runCommand" (cli_0 ++ " " ++ cmd ++ " is not exist!")])
  | Some c =>
      let s1 :=
        match s.(registeredCommandFlags) !! cmd with
        | Some _ =>
            set_flags (<[cmd := builder_of s cmd c]> s.(registeredCommandFlags))
                      s.(registeredCommandHandlers) s
        | None => s
        end in
      if argsert
           "<string> <function> [string|boolean] [object|function] [array]"
           (registration s cmd c)
      then
        match cli_parse c.(command) (with_command cmd rawArgs) with
        | Some argv =>
            let '(r, w1, tr, log) :=
              composite_handler handlers c.(handler) argv w in
            (r, s1, w1, tr, log)
        | None => (Ok tt, s1, w, [], [])
        end
      else (Throw (Failure "argsert"), s1, w, [], [])
  end.

End Dispatch.

(** The calls [calls], made one after the other on [argv] from the world
    [w], each with the outcome that [call] gives it, leave the world
    [w']. *)
Fixpoint calls_from {W : Type} (call : nat -> jsval -> W -> result jsval * W)
    (argv : jsval) (w : W) (calls : list (nat * result jsval)) (w' : W)
    : Prop :=
  match calls with
  | [] => w' = w
  | (f, r) :: rest =>
      (call f argv w).1 = r /\ calls_from call argv (call f argv w).2 rest w'
  end.

(** ** Project options *)

(** What [loadProjectOptions] asks of the host: [path], [fs], [require],
    [cosmiconfig] and the [./options] module (its [defaults] and its
    [validateSync], which answers with the reason when it rejects).  A
    search of [cosmiconfig] loads what it finds, so it may throw; it gives
    nothing when it finds nothing. *)
Record Host := {
  isAbsolute : string -> bool;
  resolve : string -> string -> string;
  existsSync : string -> bool;
  require_config : string -> result jsval;
  search_san : string -> result (option (jsval * jsval));
  search_postcss : string -> result (option jsval);
  search_browserslist : string -> result (option jsval);
  validateOptions : jsval -> option string;
  defaultConfig : jsval
}.

Definition default_browserslist : jsval :=
  Js.array [JStr "> 1.2% in cn"; JStr "last 2 versions"; JStr "iOS >=8";
            JStr "android>4.4"; JStr "not bb>0"; JStr "not ff>0";
            JStr "not ie>0"; JStr "not ie_mob>0"].

Section ProjectOptions.

Variable h : Host.
Variable cwd : string.

(** Lines 280-287: the path that will be required, or [false], and the
    warning. *)
Definition explicit_config (configFile : jsval) : jsval * list logline :=
  match configFile with
  | JPrim (PStr f) =>
      if Js.truthy configFile then
        let p := if h.(isAbsolute) f then f else h.(resolve) cwd f in
        if h.(existsSync) p then (JStr p, [])
        else (JFalse, [LogWarn "config-file" (f ++ " is not exists!")])
      else (configFile, [])
  | _ => (configFile, [])
  end.

(** Lines 290-301: [result.filepath] and [result.config]. *)
Definition find_config (originalConfigFile configFile : jsval)
    : result (jsval * jsval) :=
  if Js.truthy configFile then
    p ← JsOps.as_string configFile;
    c ← h.(require_config) p;
    Ok (originalConfigFile, c)
  else
    found ← h.(search_san) cwd;
    Ok (default (JUndefined, JUndefined) found).

(** Lines 303-323: the configuration after the file has been merged in,
    and the lines logged (the text of the two error lines is abridged). *)
Definition merge_found (config : jsval) (found : jsval * jsval)
    : result jsval * list logline :=
  let '(configPath, cfg) := found in
  if Js.truthy cfg then
    if negb (Js.typeof_object cfg) then
      (Ok (Lodash.defaultsDeep cfg config),
       [LogError "loadProjectOptions" (show configPath ++ ": must be an object")])
    else
      match h.(validateOptions) cfg with
      | Some e =>
          (Throw (SError e),
           [LogError "loadProjectOptions" (show configPath ++ ": invalid format")])
      | None => (Ok (Lodash.defaultsDeep cfg config), [])
      end
  else
    (Ok config,
     [LogWarn "loadProjectOptions" "san.config.js Cannot find! Use default config."]).

(** Lines 326-336. *)
Definition with_postcss (config : jsval) : result jsval :=
  let css := Js.get config "css" in
  if Js.truthy (and_prop css "postcss") then Ok config
  else
    found ← h.(search_postcss) (h.(resolve) cwd ".");
    let postcss := default JUndefined found in
    Ok (Js.set config "css"
          (Js.obj (Js.assign_all [("postcss", postcss)]
                     (Js.own_props (JsOps.or css (Js.obj [])))))).

(** Lines 338-352. *)
Definition with_browserslist (config : jsval) : result jsval :=
  if Js.truthy (Js.get config "browserslist") then Ok config
  else
    found ← h.(search_browserslist) (h.(resolve) cwd ".");
    let browserslist := default JUndefined found in
    Ok (Js.set config "browserslist"
          (JsOps.or browserslist default_browserslist)).

(** Lines 354-359. *)
Definition normalize_paths (config : jsval) : jsval :=
  let config := ensureSlash config "publicPath" in
  let config :=
    match Js.get config "publicPath" with
    | JPrim (PStr s) =>
        Js.set config "publicPath" (JStr (JsString.strip_dot_slash s))
    | _ => config
    end in
  removeSlash config "outputDir".

(** The project options as they stand before line 354. *)
Definition merged_options (initProjectOptions configFile : jsval)
    : result jsval * list logline :=
  let '(configFile', log1) := explicit_config configFile in
  let config := Lodash.defaultsDeep initProjectOptions h.(defaultConfig) in
  match find_config configFile configFile' with
  | Throw e => (Throw e, log1)
  | Ok found =>
      let '(r, log2) := merge_found config found in
      (c ← r; c1 ← with_postcss c; with_browserslist c1, (log1 ++ log2)%list)
  end.

(** [loadProjectOptions], lines 279-361, for a service whose
    [_initProjectOptions] is [initProjectOptions].  (The source merges into
    that object in place; the service is not threaded here.) *)
Definition loadProjectOptions (initProjectOptions configFile : jsval)
    : result jsval * list logline :=
  let '(r, log) := merged_options initProjectOptions configFile in
  (c ← r; Ok (normalize_paths c), log).

End ProjectOptions.

(** ** Environment files *)

(** What [load] finds at a path: the variables [dotenv.parse] read, no file
    ([ENOENT]), or another failure, which is logged. *)
Inductive envFile :=
| Parsed (vars : gmap string string)
| NoEntry
| Unreadable.

(** [findExisting] of [./utils] and the files it looks at. *)
Record EnvHost := {
  findExisting : string -> list string -> option string;
  readEnv : string -> envFile
}.

(** [load], lines 59-71. *)
Definition load (eh : EnvHost) (envPath : string) : option (gmap string string) :=
  match eh.(readEnv) envPath with
  | Parsed vars => Some vars
  | NoEntry | Unreadable => None
  end.

(** Lines 86-90, for one variable. *)
Definition default_if_null (defaultNodeEnv k : string)
    (env : gmap string jsval) : gmap string jsval :=
  match env !! k with
  | Some (JPrim PNull) => <[k := JStr defaultNodeEnv]> env
  | _ => env
  end.

(** [loadEnv], lines 46-92, on [process.env].  [mode] is a string; the
    empty string is the falsy mode.  [Object.assign(defaultEnv, localEnv)]
    is the union in which [localEnv] wins, and the loop of lines 77-81 sets
    every variable that [process.env] does not own. *)
Definition loadEnv (eh : EnvHost) (cwd mode : string)
    (env : gmap string jsval) : result (gmap string jsval) :=
  let modeEnvName := ".env" ++ (if String.eqb mode "" then "" else "." ++ mode) in
  match eh.(findExisting) cwd [".san/" ++ modeEnvName; modeEnvName] with
  | None => Ok env
  | Some envPath =>
      let localEnv := load eh (envPath ++ ".local") in
      let defaultEnv := load eh envPath in
      match defaultEnv with
      | None => Throw (TypeError "Cannot convert undefined or null to object")
      | Some defaultEnv =>
          let envObj : gmap string string := default ∅ localEnv ∪ defaultEnv in
          let env1 : gmap string jsval :=
            env ∪ ((fun v => JStr v) <$> envObj) in
          if String.eqb mode "" then Ok env1
          else
            let defaultNodeEnv :=
              if String.eqb mode "production" then mode else "development" in
            Ok (default_if_null defaultNodeEnv "BABEL_ENV"
                  (default_if_null defaultNodeEnv "NODE_ENV" env1))
      end
  end.

(** ** Command strings

    A command string as [registerCommand] receives it: the command word,
    then arguments, each after some white space.  An argument is a bare
    word or a group in angle brackets or in square brackets; the text of a
    group may hold white space. *)
Inductive cmdArg :=
| Positional (word : string)
| Required (text : string)
| Optional (text : string).

Module CommandString.

Fixpoint no_space (s : string) : bool :=
  match s with
  | "" => true
  | String c r => negb (JsString.is_space c) && no_space r
  end.

Definition is_bracket (c : ascii) : bool :=
  Ascii.eqb c "[" || Ascii.eqb c "]" || Ascii.eqb c "<" || Ascii.eqb c ">".

(** No bracket of either kind in [s]. *)
Fixpoint plain (s : string) : bool :=
  match s with
  | "" => true
  | String c r => negb (is_bracket c) && plain r
  end.

Definition text_of (a : cmdArg) : string :=
  match a with
  | Positional t | Required t | Optional t => t
  end.

Definition render_arg (a : cmdArg) : string :=
  match a with
  | Positional w => w
  | Required t => "<" ++ t ++ ">"
  | Optional t => "[" ++ t ++ "]"
  end.

(** The arguments, each with the white space written before it. *)
Fixpoint render_args (args : list (string * cmdArg)) : string :=
  match args with
  | [] => ""
  | (sep, a) :: rest => sep ++ render_arg a ++ render_args rest
  end.

(** The white space before an argument is not empty, and the text of an
    argument holds no bracket. *)
Fixpoint well_formed (args : list (string * cmdArg)) : bool :=
  match args with
  | [] => true
  | (sep, a) :: rest =>
      negb (String.eqb sep "") && JsString.all_space sep
      && plain (text_of a) && well_formed rest
  end.

End CommandString.

(** The words of the specification for the name of a command: "the first
    whitespace-delimited token" of a string "containing embedded bracket or
    angle-bracket argument groups". *)
Module SpecWords.




End SpecWords.

(** ** Paths into a value *)

(** [v[k1][k2]...], reading [undefined] below a primitive. *)
Fixpoint path_get (p : list string) (v : jsval) : jsval :=
  match p with
  | [] => v
  | k :: p' => path_get p' (Js.get v k)
  end.

(** The project options as [loadProjectOptions] returns them, from the
    options as they stand after the merge of line 320. *)
Definition finish_options (h : Host) (cwd : string) (c : jsval)
    : result jsval :=
  c1 ← with_postcss h cwd c;
  c2 ← with_browserslist h cwd c1;
  Ok (normalize_paths c2).

(** The keys that lines 326-359 complete or normalize. *)
Definition completed_keys : list string :=
  ["css"; "browserslist"; "publicPath"; "outputDir"].

(** ** Sample projects

    Hosts for the examples: a project directory without any configuration
    file, and one whose [san.config.js] exports [cfg]. *)
Module Sample.

Definition defaults : jsval :=
  Js.obj [("publicPath", JStr "/"); ("outputDir", JStr "output");
          ("assetsDir", JStr "static")].

Definition bare_host : Host :=
  {| isAbsolute := JsString.starts_with "/";
     resolve := fun a b => a ++ "/" ++ b;
     existsSync := fun _ => false;
     require_config := fun p => Throw (Failure ("Cannot find module " ++ p));
     search_san := fun _ => Ok None;
     search_postcss := fun _ => Ok None;
     search_browserslist := fun _ => Ok None;
     validateOptions := fun _ => None;
     defaultConfig := defaults |}.

Definition host_with (cfg : jsval) : Host :=
  {| isAbsolute := JsString.starts_with "/";
     resolve := fun a b => a ++ "/" ++ b;
     existsSync := fun _ => false;
     require_config := fun p => Throw (Failure ("Cannot find module " ++ p));
     search_san := fun cwd => Ok (Some (JStr (cwd ++ "/san.config.js"), cfg));
     search_postcss := fun _ => Ok None;
     search_browserslist := fun _ => Ok None;
     validateOptions := fun _ => None;
     defaultConfig := defaults |}.

(** A project whose postcss configuration cannot be loaded. *)
Definition broken_postcss_host : Host :=
  {| isAbsolute := JsString.starts_with "/";
     resolve := fun a b => a ++ "/" ++ b;
     existsSync := fun _ => false;
     require_config := fun p => Throw (Failure ("Cannot find module " ++ p));
     search_san := fun _ => Ok None;
     search_postcss := fun _ => Throw (Failure "postcss.config.js: Unexpected token");
     search_browserslist := fun _ => Ok None;
     validateOptions := fun _ => None;
     defaultConfig := defaults |}.

End Sample.

(** A sample service: as the constructor leaves it when it is given no
    plugins and [useBuiltInPlugin] is false ([fresh], with [projectOptions]
    not set yet), and as [run] makes it ready for [init], with project
    options ([ready]); a command registered with two flag handlers, and
    handlers that record their name in the world. *)
Module SampleService.

Definition fresh : Service :=
  {| cwd := "/proj"; initialized := false; mode := JUndefined;
     initProjectOptions := Js.obj []; projectOptions := JUndefined;
     webpackChainFns := []; webpackRawConfigFns := [];
     registeredCommands := ∅; registeredCommandFlags := ∅;
     registeredCommandHandlers := ∅; plugins := []; modules := ∅ |}.

Definition ready : Service :=
  {| cwd := "/proj"; initialized := false; mode := JUndefined;
     initProjectOptions := Js.obj []; projectOptions := Js.obj [];
     webpackChainFns := []; webpackRawConfigFns := [];
     registeredCommands := ∅; registeredCommandFlags := ∅;
     registeredCommandHandlers := ∅; plugins := []; modules := ∅ |}.

Definition accept (pattern : string) (args : list jsval) : bool := true.

(** The name under which the command line was started. *)
Definition cli_0 : string := "san".

Definition fn (f : nat) : jsval := JObj (KFunction f) [].

(** [build] with the flag handlers 1 and 2 and the primary handler 10. *)
Definition with_build : Service :=
  ((do u <~ registerCommand accept [JStr "build <entry>"; fn 10];
    do u <~ registerCommandFlag accept
              [JStr "build"; Js.obj [("watch", JTrue)]; fn 1];
    registerCommandFlag accept
      [JStr "build"; Js.obj [("analyze", JTrue)]; fn 2]) ready).2.

(** Handler 2 returns [false]; the others return nothing. *)
Definition call (f : nat) (argv : jsval) (w : list nat)
    : result jsval * list nat :=
  (if Nat.eqb f 2 then Ok JFalse else Ok JUndefined, (w ++ [f])%list).

(** No handler returns [false]. *)
Definition call_quiet (f : nat) (argv : jsval) (w : list nat)
    : result jsval * list nat :=
  (Ok JUndefined, (w ++ [f])%list).

Definition parse (command : string) (rawArgs : list string) : option jsval :=
  Some (Js.obj [("_", Js.array ((fun a => JStr a) <$> rawArgs))]).

End SampleService.

(** ** Plugin references *)

(** The value that line 127 tests: the [default] of the module when there
    is one, the module otherwise. *)
Definition effective_plugin (m : jsval) : jsval :=
  if Js.truthy (Js.get m "default") then Js.get m "default" else m.

(** [typeof plugin === 'object' && typeof plugin.apply === 'function'] on
    a value that is not [null]. *)
Definition plugin_shaped (v : jsval) : bool :=
  match v with
  | JObj (KFunction _) _ => false
  | JObj _ _ => Js.typeof_function (Js.get v "apply")
  | JPrim _ => false
  end.

(** The reference as written in the list given to [resolvePlugins]: a
    module name or an object, alone or with options. *)
Definition ref_target (p : jsval) : jsval :=
  match JsOps.elems p with
  | Some [a; _] => a
  | _ => p
  end.

Definition plugin_of (d : descriptor) : pluginRef :=
  match d with
  | Plugin r | PluginWithOptions r _ => r
  end.

(** The descriptor [d] holds the plugin that the reference [p] names. *)
Definition resolves (p : jsval) (d : descriptor) : Prop :=
  match ref_target p, plugin_of d with
  | JPrim (PStr name), ModuleExport name' _ => name = name'
  | JPrim (PStr _), InlinePlugin _ => False
  | q, InlinePlugin q' => q = q'
  | _, ModuleExport _ _ => False
  end.

(** The descriptors of the built-in plugins. *)
Definition builtin_descriptors : list descriptor :=
  (fun id => Plugin (ModuleExport ("../configs/" ++ id) false))
    <$> ["base"; "css"; "app"; "optimization"; "babel"].

(** A module that [_resolvePlugin] has been through: resolving it again
    leaves it as it is. *)
Definition settled_in (s : Service) (name : string) (m : jsval) : Prop :=
  s.(modules) !! name = Some m /\ exists esm, load_plugin name m = Ok (esm, m).

(** A method that leaves the [initialized] flag as it is. *)
Definition keeps_flag {A : Type} (m : method A) : Prop :=
  forall s r s', m s = (r, s') -> s'.(initialized) = s.(initialized).

(** A plugin that registers a command and a chain callback, and the module
    registry that holds it as an ES module. *)
Module SamplePlugins.

Definition plugin : jsval :=
  Js.obj [("apply", JObj (KFunction 7) [])].

Definition esm_module : jsval := Js.obj [("default", plugin)].

Definition code (f : nat) (projectOptions options : jsval) : list PluginOp :=
  if Nat.eqb f 7
  then [ApiRegisterCommand [JStr "serve [entry]"; JObj (KFunction 11) []];
        ApiChainWebpack (JObj (KFunction 3) [])]
  else [].

Definition service : Service :=
  set_modules (<["san-plugin" := esm_module]> (<["broken" := Js.obj []]> ∅))
    SampleService.ready.

Definition builtin (f : nat) : jsval :=
  Js.obj [("id", JStr "built-in"); ("apply", JObj (KFunction f) [])].

(** The same registry with the five built-in modules. *)
Definition with_builtins : Service :=
  set_modules
    (<["../configs/base" := builtin 20]>
       (<["../configs/css" := builtin 21]>
          (<["../configs/app" := builtin 22]>
             (<["../configs/optimization" := builtin 23]>
                (<["../configs/babel" := builtin 24]> service.(modules))))))
    service.

End SamplePlugins.

(** ** Rule lists *)

(** [config.module && config.module.rules] *)
Definition rules_of (config : jsval) : jsval :=
  and_prop (Js.get config "module") "rules".

(** A list of rules as webpack has it: nothing, or an array of objects
    whose [oneOf], if any, is a list of rules. *)
#[warnings="-register-all"] Inductive Rules : jsval -> Prop :=
| rules_none v : Js.truthy v = false -> Rules v
| rules_list ps :
    NoDup ps.*1 ->
    (forall k r, (k, r) ∈ ps ->
                 Js.is_object r = true /\ Rules (Js.get r "oneOf")) ->
    Rules (JObj KArray ps).

(** The rules [to] carry the annotations of the rules [from]: wherever
    [from] has a rule and [to] has one at the same index, the rule of [to]
    has the [__ruleNames] of the rule of [from], and so on in their
    [oneOf]. *)
#[warnings="-register-all"] Inductive Restored : jsval -> jsval -> Prop :=
| restored_nothing to from :
    Js.truthy to = false \/ Js.truthy from = false -> Restored to from
| restored_rules to from :
    (forall k r,
       Js.lookup k (Js.own_props from) = Some r ->
       Js.truthy (Js.get to k) = true ->
       Js.get (Js.get to k) "__ruleNames" = Js.get r "__ruleNames"
       /\ Restored (Js.get (Js.get to k) "oneOf") (Js.get r "oneOf")) ->
    Restored to from.

(** The rules [to'] are the rules [to] with the annotations of the rules
    [from] and no other change.  When there is nothing to copy to or from,
    [to'] is [to].  Otherwise every index reads the same in [to'] as in
    [to], unless [from] has a rule [r] at this index and [to] a rule [t]:
    then [to'] has there a rule that reads as [t] does at every property but
    [__ruleNames], which is the one of [r], and [oneOf], which is the one of
    [t] with the annotations of the one of [r]. *)
#[warnings="-register-all"] Inductive Annotated : jsval -> jsval -> jsval -> Prop :=
| annotated_nothing from to :
    Js.truthy to = false \/ Js.truthy from = false -> Annotated from to to
| annotated_rules from to to' :
    Js.truthy to' = Js.truthy to ->
    (forall i, Js.lookup i (Js.own_props from) = None ->
               Js.get to' i = Js.get to i) ->
    (forall i, Js.truthy (Js.get to i) = false -> Js.get to' i = Js.get to i) ->
    (forall i r,
       Js.lookup i (Js.own_props from) = Some r ->
       Js.truthy (Js.get to i) = true ->
       Js.truthy (Js.get to' i) = true
       /\ Js.get (Js.get to' i) "__ruleNames" = Js.get r "__ruleNames"
       /\ (forall k, k <> "__ruleNames" -> k <> "oneOf" ->
                     Js.get (Js.get to' i) k = Js.get (Js.get to i) k)
       /\ Annotated (Js.get r "oneOf") (Js.get (Js.get to i) "oneOf")
                    (Js.get (Js.get to' i) "oneOf")) ->
    Annotated from to to'.

(** A literal list of rules is well formed: the proof goes through the
    rules one by one. *)
Ltac literal_rules :=
  vm_compute;
  first
    [ apply rules_none; reflexivity
    | apply rules_list;
      [ apply (bool_decide_unpack _); vm_compute; reflexivity
      | let k := fresh "k" in
        let r := fresh "r" in
        let Hin := fresh "Hin" in
        intros k r Hin;
        repeat (apply elem_of_cons in Hin; destruct Hin as [Hin|Hin];
                [injection Hin as -> ->; split; [reflexivity|literal_rules]|]);
        by apply elem_of_nil in Hin ] ].

(** A chain builder that is its own configuration, a raw callback that
    returns a rule to merge in, and a merge that rebuilds the rules without
    their annotations. *)
Module SampleWebpack.

Definition rule (name : string) (fields : props) : jsval :=
  Js.obj (fields ++ [("__ruleNames", Js.array [JStr name])]).

Definition base_config : jsval :=
  Js.obj [("module", Js.obj [("rules",
             Js.array [rule "js" [("test", JStr "js")];
                       rule "css" [("test", JStr "css")]])])].

Definition chain_code (f : nat) (c : jsval) : result jsval := Ok c.

Definition raw_code (f : nat) (c : jsval) : result (jsval * jsval) :=
  Ok (c, Js.obj [("mode", JStr "production")]).

(** The properties of a rule without the annotation. *)
Definition strip (r : jsval) : jsval :=
  match r with
  | JObj kd ps =>
      JObj kd (filter (fun kv => negb (String.eqb kv.1 "__ruleNames")) ps)
  | JPrim _ => r
  end.

Definition merge (a b : jsval) : jsval :=
  let rules := Js.own_props (rules_of a) in
  Js.obj [("module", Js.obj [("rules",
             JObj KArray ((fun kv => (kv.1, strip kv.2)) <$> rules))]);
          ("mode", Js.get b "mode")].

Definition service : Service :=
  set_webpackRawConfigFns [JObj (KFunction 5) []]
    (set_initialized true SampleService.ready).

(** A configuration with a nested list of rules, and a merge that rebuilds
    the rules, at every depth, without their annotations. *)
Definition nested_config : jsval :=
  Js.obj [("module", Js.obj [("rules",
             Js.array [rule "js" [("test", JStr "js")];
                       rule "css"
                         [("test", JStr "css");
                          ("oneOf",
                           Js.array [rule "vue" [("resourceQuery", JStr "vue")];
                                     rule "normal" [("use", JStr "css-loader")]])]]);
                             ("noParse", JStr "jquery")]);
          ("entry", JStr "src/main.js")].

Fixpoint strip_all (v : jsval) : jsval :=
  match v with
  | JObj kd ps =>
      JObj kd
        ((fix each (ps : props) : props :=
            match ps with
            | [] => []
            | (k, x) :: rest =>
                if String.eqb k "__ruleNames" then each rest
                else (k, strip_all x) :: each rest
            end) ps)
  | JPrim _ => v
  end.

Definition merge_all (a b : jsval) : jsval :=
  match strip_all a with
  | JObj kd ps => JObj kd (Js.assign_all ps (Js.own_props b))
  | JPrim p => JPrim p
  end.

End SampleWebpack.

(** The [forEach] loop of [cloneRuleNames] over the elements of [from],
    with the recursive call written out. *)
Fixpoint each_rule (rs : props) (to : jsval) : result jsval :=
  match rs with
  | [] => Ok to
  | (k, r) :: rest =>
      to1 ← RuleNames.for_each_rule
               (cloneRuleNames_from (Js.get r "oneOf")) k r to;
      each_rule rest to1
  end.

(** ** Environment variables *)

(** One of the files that [loadEnv] reads for this mode defines [k]. *)
Definition env_files_define (eh : EnvHost) (cwd mode k : string) : Prop :=
  let modeEnvName := ".env" ++ (if String.eqb mode "" then "" else "." ++ mode) in
  exists envPath vars,
    eh.(findExisting) cwd [".san/" ++ modeEnvName; modeEnvName] = Some envPath
    /\ (load eh envPath = Some vars \/ load eh (envPath ++ ".local") = Some vars)
    /\ is_Some (vars !! k).

(** The value that lines 84-90 assign. *)
Definition mode_default (mode : string) : string :=
  if String.eqb mode "production" then mode else "development".

(** A project with a [.env.production] that sets [NODE_ENV] and [API]. *)
Module SampleEnv.

Definition host : EnvHost :=
  {| findExisting := fun cwd names =>
       if bool_decide (".env.production" ∈ names)
       then Some ".env.production" else None;
     readEnv := fun path =>
       if String.eqb path ".env.production"
       then Parsed (<["NODE_ENV" := "staging"]> (<["API" := "/api"]> ∅))
       else NoEntry |}.

End SampleEnv.

(** ** Auxiliary notions for the proofs *)

(** What lines 354-359 make of [publicPath]. *)
Definition normal_publicPath (v : jsval) : jsval :=
  match v with
  | JPrim (PStr s) =>
      JStr (JsString.strip_dot_slash
              (JsString.trail_slash
                 (if JsString.is_http s then s else JsString.lead_slash s)))
  | _ => v
  end.

(** Every defined leaf of [op] is a leaf of [op']. *)
Definition keeps_leaves (op op' : props) : Prop :=
  forall k p q,
    path_get p (default JUndefined (Js.lookup k op)) = JPrim q ->
    q <> PUndefined ->
    path_get p (default JUndefined (Js.lookup k op')) = JPrim q.

(** The plugin that lines 128-131 leave: it has its id. *)
Definition with_id (p : string) (plugin : jsval) : jsval :=
  if Js.truthy (Js.get plugin "id") then plugin else Js.set plugin "id" (JStr p).

(** What the recursive call is asked to do on the [oneOf] of a rule. *)
Definition restores (from : jsval) : Prop :=
  forall to, Rules to -> Rules from ->
    exists to',
      cloneRuleNames_from from to = Ok to'
      /\ Restored to' from /\ Annotated from to to'.

(** ** Further notions *)

(** The entry that [registerCommand(command, handler)] stores for a
    function [handler], lines 261-267. *)
Definition plain_entry (command : string) (f : nat) : CommandEntry :=
  {| command := command; handler := UserHandler f; description := JFalse;
     builder := Js.obj []; middlewares := Js.array [] |}.

(** The patterns that the service passes to [argsert]. *)
Definition pattern_registerCommand : string :=
  "<string|<object> [function|object]".
Definition pattern_registerCommandFlag : string :=
  "<string> <object> <function>".
Definition pattern_cli_command : string :=
  "<string> <function> [string|boolean] [object|function] [array]".

(** A part of the service that the registries' setters do not touch. *)
Definition beside_registries {B : Type} (proj : Service -> B) : Prop :=
  (forall m s, proj (set_registeredCommands m s) = proj s)
  /\ (forall fm hm s, proj (set_flags fm hm s) = proj s)
  /\ (forall l s, proj (set_plugins l s) = proj s)
  /\ (forall m s, proj (set_modules m s) = proj s)
  /\ (forall l s, proj (set_webpackChainFns l s) = proj s)
  /\ (forall l s, proj (set_webpackRawConfigFns l s) = proj s).

(** A method that leaves a part of the service as it is. *)
Definition preserves {A B : Type} (proj : Service -> B) (m : method A) : Prop :=
  forall s r s', m s = (r, s') -> proj s' = proj s.

(** A method that only appends to a list kept in the service. *)
Definition appends {A B : Type} (proj : Service -> list B) (m : method A) : Prop :=
  forall s r s', m s = (r, s') -> exists added, proj s' = (proj s ++ added)%list.

(** A raw webpack entry that gives nothing to merge: a function whose
    calls return a falsy value, or a falsy literal. *)
Definition nothing_to_merge (raw_code : nat -> jsval -> result (jsval * jsval))
    (fn : jsval) : Prop :=
  match fn with
  | JObj (KFunction f) _ =>
      forall c c1 res, raw_code f c = Ok (c1, res) -> Js.truthy res = false
  | _ => Js.truthy fn = false
  end.

(** [this.projectOptions = projectOptions], line 432. *)
Definition set_projectOptions (o : jsval) (s : Service) : Service :=
  {| cwd := s.(cwd); initialized := s.(initialized); mode := s.(mode);
     initProjectOptions := s.(initProjectOptions);
     projectOptions := o;
     webpackChainFns := s.(webpackChainFns);
     webpackRawConfigFns := s.(webpackRawConfigFns);
     registeredCommands := s.(registeredCommands);
     registeredCommandFlags := s.(registeredCommandFlags);
     registeredCommandHandlers := s.(registeredCommandHandlers);
     plugins := s.(plugins); modules := s.(modules) |}.

(** ** More sample projects *)
Module SampleMore.

(** The parsed arguments of [build src]. *)
Definition argv : jsval := Js.obj [("_", Js.array [JStr "build"; JStr "src"])].

(** [build] registered as a module with options of its own, and flags
    contributed for it. *)
Definition build_module : jsval :=
  Js.obj [("builder", Js.obj [("watch", JFalse)]);
          ("handler", SampleService.fn 10)].

Definition contributed : props := [("watch", JTrue); ("analyze", JTrue)].

Definition with_options : Service :=
  ((do u <~ registerCommand SampleService.accept [JStr "build"; build_module];
    registerCommandFlag SampleService.accept
      [JStr "build"; Js.obj contributed; SampleService.fn 1])
     SampleService.ready).2.

(** A service with the sample plugin in its list, and project options
    that bring callbacks of their own. *)
Definition project_options : jsval :=
  Js.obj [("chainWebpack", SampleService.fn 30);
          ("configureWebpack", Js.obj [("mode", JStr "production")])].

Definition project : Service :=
  (addPlugin [JStr "san-plugin"]
     (set_projectOptions project_options SamplePlugins.service)).2.

(** Project options whose [chainWebpack] is not a function. *)
Definition bad_chain : Service :=
  set_projectOptions (Js.obj [("chainWebpack", JStr "oops")])
    SampleService.ready.

(** A service that [run] has not given its project options yet. *)
Definition no_options : Service := SampleService.fresh.

Definition inline_plugin : jsval :=
  Js.obj [("id", JStr "inline"); ("apply", SampleService.fn 7)].

(** A raw callback that changes the configuration in place and returns
    nothing. *)
Definition raw_quiet (f : nat) (c : jsval) : result (jsval * jsval) :=
  Ok (Js.set c "mode" (JStr "development"), JUndefined).

Definition quiet_service : Service :=
  set_webpackRawConfigFns [SampleService.fn 5; JFalse]
    (set_initialized true SampleService.ready).

(** A project whose configuration file is found by the search and fails
    validation. *)
Definition strict_host (cfg : jsval) : Host :=
  {| isAbsolute := JsString.starts_with "/";
     resolve := fun a b => a ++ "/" ++ b;
     existsSync := fun _ => false;
     require_config := fun p => Throw (Failure ("Cannot find module " ++ p));
     search_san := fun cwd => Ok (Some (JStr (cwd ++ "/san.config.js"), cfg));
     search_postcss := fun _ => Ok None;
     search_browserslist := fun _ => Ok None;
     validateOptions := fun _ => Some "pages must be an object";
     defaultConfig := Sample.defaults |}.

(** A project with a postcss configuration beside it. *)
Definition postcss_host : Host :=
  {| isAbsolute := JsString.starts_with "/";
     resolve := fun a b => a ++ "/" ++ b;
     existsSync := fun _ => false;
     require_config := fun p => Throw (Failure ("Cannot find module " ++ p));
     search_san := fun _ => Ok None;
     search_postcss := fun _ => Ok (Some (Js.obj [("plugins", Js.array [])]));
     search_browserslist := fun _ => Ok None;
     validateOptions := fun _ => None;
     defaultConfig := Sample.defaults |}.

(** A project with [.env] and [.env.local]. *)
Definition env_host : EnvHost :=
  {| findExisting := fun cwd names =>
       if bool_decide (".env" ∈ names) then Some ".env" else None;
     readEnv := fun path =>
       if String.eqb path ".env"
       then Parsed (<["API" := "/api"]> (<["KEY" := "a"]> ∅))
       else if String.eqb path ".env.local"
       then Parsed (<["API" := "/local"]> ∅)
       else NoEntry |}.

(** A project whose [.env] cannot be read. *)
Definition unreadable_host : EnvHost :=
  {| findExisting := fun cwd names =>
       if bool_decide (".env" ∈ names) then Some ".env" else None;
     readEnv := fun path => Unreadable |}.

End SampleMore.

(** ** White space in command strings *)
Module Spacing.

(** [s] does not begin with a white character. *)
Definition starts_clean (s : string) : bool :=
  match s with
  | "" => true
  | String c _ => negb (JsString.is_space c)
  end.

(** No two white characters stand side by side in [s]. *)
Fixpoint single_spaced (s : string) : bool :=
  match s with
  | "" => true
  | String c r =>
      (negb (JsString.is_space c) || starts_clean r) && single_spaced r
  end.

End Spacing.

(** ** The entry point *)

(** What [run] works on: the service with the two properties that [run]
    sets on it ([version], [logger]), the process environment, and the
    world of the handlers and of the logger. *)
Module Run.

Record state {W : Type} := {
  service : Service;
  version : jsval;
  logger : jsval;
  env : gmap string jsval;
  world : W
}.
Arguments state : clear implicits.

End Run.

Definition set_initProjectOptions (o : jsval) (s : Service) : Service :=
  {| cwd := s.(cwd); initialized := s.(initialized); mode := s.(mode);
     initProjectOptions := o;
     projectOptions := s.(projectOptions);
     webpackChainFns := s.(webpackChainFns);
     webpackRawConfigFns := s.(webpackRawConfigFns);
     registeredCommands := s.(registeredCommands);
     registeredCommandFlags := s.(registeredCommandFlags);
     registeredCommandHandlers := s.(registeredCommandHandlers);
     plugins := s.(plugins); modules := s.(modules) |}.

(** The default of the parameter, [argv = {}]. *)
Definition argv_of (argv : jsval) : jsval :=
  match argv with
  | JPrim PUndefined => Js.obj []
  | a => a
  end.

(** Line 422: [argv.mode || (cmd === 'build' && argv.watch ? 'development'
    : 'production')]. *)
Definition run_mode (cmd : string) (argv : jsval) : jsval :=
  JsOps.or (Js.get argv "mode")
    (if String.eqb cmd "build" && Js.truthy (Js.get argv "watch")
     then JStr "development" else JStr "production").

Section Entry.

Context {W : Type}.

(** The code of a function value, as for the handlers; the logger is
    called through it too. *)
Variable call : nat -> jsval -> W -> result jsval * W.
Variable argsert : string -> list jsval -> bool.
Variable cli_parse : string -> list string -> option jsval.
Variable cli_0 : string.
Variable plugin_code : nat -> jsval -> jsval -> list PluginOp.
Variable h : Host.
Variable eh : EnvHost.

(** [_initProjectOptions] after [loadProjectOptions(configFile)] gave
    [r].  Line 288 merges the defaults into that object in place; when no
    configuration is merged over it, it is also the object that lines
    324-359 complete and that is returned. *)
Definition initProjectOptions_after (s : Service) (configFile : jsval)
    (r : result jsval) : jsval :=
  let init := s.(initProjectOptions) in
  if Js.is_object init then
    let base := Lodash.defaultsDeep init h.(defaultConfig) in
    match r, find_config h s.(cwd) configFile
               (explicit_config h s.(cwd) configFile).1 with
    | Ok c, Ok (_, cfg) => if Js.truthy cfg then base else c
    | _, _ => base
    end
  else init.

(** Lines 429-430: [logger('run:options')] and the call of what it
    returns on the project options. *)
Definition log_options (logger projectOptions : jsval) (w : W)
    : result unit * W :=
  match JsOps.as_function logger with
  | Throw e => (Throw e, w)
  | Ok f =>
      match call f (JStr "run:options") w with
      | (Throw e, w1) => (Throw e, w1)
      | (Ok logInfo, w1) =>
          match JsOps.as_function logInfo with
          | Throw e => (Throw e, w1)
          | Ok g =>
              match call g projectOptions w1 with
              | (Throw e, w2) => (Throw e, w2)
              | (Ok _, w2) => (Ok tt, w2)
              end
          end
      end
  end.

(** Lines 432-439: the project options are set, the progress plugin is
    added unless [argv.noProgress], and the service is initialized. *)
Definition prepare (projectOptions noProgress mode : jsval) : method unit :=
  do u <~ update (set_projectOptions projectOptions);
  do u <~ (if Js.truthy noProgress then returns tt
           else addPlugin [JStr "../plugins/progress"]);
  init argsert plugin_code mode.

(** [run], lines 416-442, for a command that is a string.  [None] stands
    for a mode that is not a string, which [loadEnv] above does not cover;
    the command line gives a string or nothing.  What is thrown is the
    rejection of the promise that [run] returns. *)
Definition run (cmd : string) (argv : jsval) (rawArgv : list string)
    (st : Run.state W)
    : option (result unit * Run.state W * list event * list logline) :=
  let argv := argv_of argv in
  match JsOps.prop argv "_version" with
  | Throw e => Some (Throw e, st, [], [])
  | Ok version =>
      let logger := Js.get argv "_logger" in
      let s := st.(Run.service) in
      let w := st.(Run.world) in
      let state s env w :=
        {| Run.service := s; Run.version := version; Run.logger := logger;
           Run.env := env; Run.world := w |} in
      match run_mode cmd argv with
      | JPrim (PStr mode) =>
          match loadEnv eh s.(cwd) mode st.(Run.env) with
          | Throw e => Some (Throw e, state s st.(Run.env) w, [], [])
          | Ok env1 =>
              let configFile := Js.get argv "configFile" in
              let '(r, log) :=
                loadProjectOptions h s.(cwd) s.(initProjectOptions) configFile in
              let s1 :=
                set_initProjectOptions (initProjectOptions_after s configFile r) s in
              match r with
              | Throw e => Some (Throw e, state s1 env1 w, [], log)
              | Ok projectOptions =>
                  match log_options logger projectOptions w with
                  | (Throw e, w1) => Some (Throw e, state s1 env1 w1, [], log)
                  | (Ok _, w1) =>
                      match prepare projectOptions (Js.get argv "noProgress")
                              (JStr mode) s1 with
                      | (Throw e, s2) => Some (Throw e, state s2 env1 w1, [], log)
                      | (Ok _, s2) =>
                          let '(r, s3, w2, tr, log2) :=
                            runCommand call argsert cli_parse cli_0 cmd rawArgv
                              s2 w1 in
                          Some (r, state s3 env1 w2, tr, (log ++ log2)%list)
                      end
                  end
              end
          end
      | _ => None
      end
  end.

End Entry.

(** A project that is run from the command line. *)
Module SampleRun.

(** The logger is function 50; what it returns is function 51. *)
Definition call (f : nat) (argv : jsval) (w : list nat)
    : result jsval * list nat :=
  (if Nat.eqb f 50 then Ok (SampleService.fn 51) else Ok JUndefined,
   (w ++ [f])%list).

Definition service : Service :=
  set_modules (<["../plugins/progress" := SamplePlugins.builtin 25]> ∅)
    SampleService.with_build.

Definition start : Run.state (list nat) :=
  {| Run.service := service; Run.version := JUndefined;
     Run.logger := JUndefined; Run.env := ∅; Run.world := [] |}.

Definition argv : jsval :=
  Js.obj [("_version", JStr "4.0.0"); ("_logger", SampleService.fn 50);
          ("watch", JTrue)].

End SampleRun.

(** * Properties *)

Example getCommandName_build :
  getCommandName "build <entry> [options]" = "build".
Proof. reflexivity. Qed.

Example getCommandName_inner_space :
  getCommandName "serve   <entry file>  [a b]" = "serve".
Proof. reflexivity. Qed.

Example defaultsDeep_nested :
  Lodash.defaultsDeep
    (Js.obj [("a", JNum 1); ("css", Js.obj [("x", JNum 1)])])
    (Js.obj [("a", JNum 2); ("css", Js.obj [("x", JNum 2); ("y", JNum 3)]);
             ("b", JNull)])
  = Js.obj [("a", JNum 1); ("css", Js.obj [("x", JNum 1); ("y", JNum 3)]);
            ("b", JNull)].
Proof. reflexivity. Qed.

Example cloneRuleNames_nested :
  cloneRuleNames
    (Js.array [Js.obj [("test", JStr "css");
                       ("oneOf", Js.array [Js.obj [("use", JStr "a")]])];
               Js.obj [("test", JStr "extra")]])
    (Js.array [Js.obj [("__ruleNames", Js.array [JStr "css"]);
                       ("oneOf", Js.array
                          [Js.obj [("__ruleNames", Js.array [JStr "css"; JStr "m"])]])]])
  = Ok (Js.array
          [Js.obj [("test", JStr "css");
                   ("oneOf", Js.array
                      [Js.obj [("use", JStr "a");
                               ("__ruleNames", Js.array [JStr "css"; JStr "m"])]]);
                   ("__ruleNames", Js.array [JStr "css"])];
           Js.obj [("test", JStr "extra")]]).
Proof. reflexivity. Qed.

(** ** Command names *)
Module CommandNameFacts.
Import JsString CommandString.

Lemma app_nil (t : string) : "" ++ t = t.
Proof. reflexivity. Qed.

Lemma app_cons c (r t : string) : String c r ++ t = String c (r ++ t).
Proof. reflexivity. Qed.

Lemma app_assoc (a b c : string) : (a ++ b) ++ c = a ++ b ++ c.
Proof. induction a as [|x a IH]; [done|]. by rewrite !app_cons, IH. Qed.

Lemma app_nil_r (a : string) : a ++ "" = a.
Proof. induction a as [|x a IH]; [done|]. by rewrite app_cons, IH. Qed.

Lemma space_not_bracket c : is_space c = true -> is_bracket c = false.
Proof.
  destruct c as [[] [] [] [] [] [] [] []]; vm_compute; congruence.
Qed.

Lemma collapse_no_space name t :
  no_space name = true ->
  collapse false (name ++ t) = name ++ collapse false t.
Proof.
  induction name as [|c r IH]; [done|]. simpl no_space.
  intros [Hc Hr]%andb_true_iff. rewrite app_cons.
  apply negb_true_iff in Hc. cbn [collapse]. rewrite Hc. by rewrite IH.
Qed.

Lemma closes_first_skip o c x r :
  Ascii.eqb x c = false -> Ascii.eqb x o = false ->
  closes_first o c (String x r) = closes_first o c r.
Proof. intros Hc Ho. simpl. by rewrite Hc, Ho. Qed.

Lemma not_bracket_neq x c :
  is_bracket x = false -> is_bracket c = true -> Ascii.eqb x c = false.
Proof.
  intros Hx Hc. destruct (Ascii.eqb_spec x c) as [->|_]; congruence.
Qed.

Lemma closes_first_pass o c x r :
  is_bracket x = false -> is_bracket o = true -> is_bracket c = true ->
  closes_first o c (String x r) = closes_first o c r.
Proof.
  intros Hx Ho Hc. apply closes_first_skip; by apply not_bracket_neq.
Qed.

Lemma closes_first_collapse o c b t :
  is_bracket o = true -> is_bracket c = true ->
  closes_first o c (collapse b t) = closes_first o c t.
Proof.
  intros Ho Hc. revert b.
  induction t as [|x r IH]; intros b; [done|].
  cbn [collapse]. destruct (is_space x) eqn:Hx.
  - pose proof (space_not_bracket _ Hx) as Hbx.
    rewrite (closes_first_pass o c x r) by done.
    destruct b; [apply IH|].
    destruct r as [|y r']; [by rewrite closes_first_pass|].
    destruct (is_space y) eqn:Hy.
    + rewrite closes_first_pass by done. apply IH.
    + rewrite closes_first_pass by done. apply IH.
  - simpl. rewrite IH. done.
Qed.

Lemma in_group_collapse b t : in_group (collapse b t) = in_group t.
Proof. unfold in_group. by rewrite !closes_first_collapse. Qed.

Lemma sep_match_collapse w tail :
  is_space w = true -> in_group tail = false ->
  sep_match (collapse false (String w tail)) = true.
Proof.
  intros Hw Hg. cbn [collapse]. rewrite Hw.
  destruct tail as [|y r].
  - simpl. by rewrite Hw.
  - destruct (is_space y) eqn:Hy.
    + cbn [sep_match]. rewrite in_group_collapse, Hg.
      replace (is_space " ") with true by reflexivity.
      by rewrite orb_true_r.
    + cbn [sep_match]. rewrite in_group_collapse, Hg, Hw.
      by rewrite orb_true_r.
Qed.

Lemma split_head_token name t :
  no_space name = true -> sep_match t = true -> split_head (name ++ t) = name.
Proof.
  intros Hn Ht. induction name as [|c r IH].
  - rewrite app_nil. destruct t as [|x t']; [done|].
    cbn [split_head]. by rewrite Ht.
  - simpl in Hn. apply andb_true_iff in Hn as [Hc Hr].
    apply negb_true_iff in Hc. rewrite app_cons.
    cbn [split_head sep_match]. rewrite Hc. simpl. by rewrite IH.
Qed.

Lemma split_head_no_space name : no_space name = true -> split_head name = name.
Proof.
  induction name as [|c r IH]; simpl; [done|].
  intros [Hc Hr]%andb_true_iff. apply negb_true_iff in Hc.
  rewrite Hc. simpl. by rewrite IH.
Qed.

Lemma collapse_id name : no_space name = true -> collapse false name = name.
Proof.
  induction name as [|c r IH]; simpl; [done|].
  intros [Hc Hr]%andb_true_iff. apply negb_true_iff in Hc.
  rewrite Hc. by rewrite IH.
Qed.

Lemma trim_no_space name : no_space name = true -> trim name = name.
Proof.
  intros Hn. unfold trim.
  assert (trim_left name = name) as ->.
  { destruct name as [|c r]; [done|]. simpl in *.
    apply andb_true_iff in Hn as [Hc _]. apply negb_true_iff in Hc.
    by rewrite Hc. }
  induction name as [|c r IH]; [done|].
  simpl in Hn. apply andb_true_iff in Hn as [Hc Hr].
  apply negb_true_iff in Hc. cbn [trim_right all_space]. rewrite Hc. simpl.
  by rewrite IH.
Qed.

(** The name is the text before the first white character that is followed
    by something the lookahead does not take for the inside of a group. *)
Lemma getCommandName_token name w tail :
  no_space name = true -> is_space w = true -> in_group tail = false ->
  getCommandName (name ++ String w tail) = name.
Proof.
  intros Hn Hw Hg. unfold getCommandName.
  rewrite collapse_no_space by done.
  rewrite split_head_token; [by apply trim_no_space|done|].
  by apply sep_match_collapse.
Qed.

Lemma getCommandName_word name :
  no_space name = true -> getCommandName name = name.
Proof.
  intros Hn. unfold getCommandName.
  rewrite collapse_id, split_head_no_space by done. by apply trim_no_space.
Qed.

Lemma closes_first_app o c t1 t2 :
  is_bracket o = true -> is_bracket c = true -> plain t1 = true ->
  closes_first o c (t1 ++ t2) = closes_first o c t2.
Proof.
  intros Ho Hc. induction t1 as [|x r IH]; [done|].
  simpl plain. intros [Hx Hr]%andb_true_iff. apply negb_true_iff in Hx.
  rewrite app_cons, closes_first_pass by done. by apply IH.
Qed.

Lemma all_space_plain s : all_space s = true -> plain s = true.
Proof.
  induction s as [|x r IH]; [done|]. simpl.
  intros [Hx Hr]%andb_true_iff. rewrite (space_not_bracket _ Hx). simpl. auto.
Qed.

Lemma render_args_outside args :
  well_formed args = true ->
  closes_first "[" "]" (render_args args) = false
  /\ closes_first "<" ">" (render_args args) = false.
Proof.
  induction args as [|[sep a] rest IH]; [done|].
  cbn [well_formed render_args].
  intros [[[_ Hsep]%andb_true_iff Ha]%andb_true_iff Hr]%andb_true_iff.
  destruct (IH Hr) as [IH1 IH2].
  apply all_space_plain in Hsep.
  rewrite !(closes_first_app _ _ sep) by done.
  destruct a as [t|t|t]; simpl in Ha; cbn [render_arg].
  - by rewrite !closes_first_app.
  - rewrite !app_assoc, !app_cons, !app_nil. split.
    + rewrite (closes_first_skip _ _ "<") by done.
      rewrite closes_first_app by done.
      by rewrite (closes_first_skip _ _ ">").
    + reflexivity.
  - rewrite !app_assoc, !app_cons, !app_nil. split.
    + reflexivity.
    + rewrite (closes_first_skip _ _ "[") by done.
      rewrite closes_first_app by done.
      by rewrite (closes_first_skip _ _ "]").
Qed.

End CommandNameFacts.

(** ** The spacing of names *)
Module NameFacts.
Import JsString Spacing.

Lemma collapse_spacing s b :
  single_spaced (collapse b s) = true
  /\ (b = true -> starts_clean (collapse b s) = true).
Proof.
  revert b. induction s as [|c r IH]; intros b; [done|].
  cbn [collapse]. destruct (is_space c) eqn:Hc.
  - destruct b; [apply IH|]. split; [|done].
    destruct r as [|c2 r']; [cbn [single_spaced starts_clean]; by rewrite Hc|].
    destruct (is_space c2) eqn:Hc2.
    + destruct (IH true) as [H1 H2].
      cbn [single_spaced]. rewrite H1, (H2 eq_refl). by rewrite orb_true_r.
    + destruct (IH false) as [H1 _].
      cbn [single_spaced]. rewrite H1.
      cbn [collapse]. rewrite Hc2. cbn [starts_clean]. rewrite Hc2.
      by rewrite orb_true_r.
  - destruct (IH false) as [H1 _]. split.
    + cbn [single_spaced]. by rewrite Hc, H1.
    + intros _. cbn [starts_clean]. by rewrite Hc.
Qed.

Lemma collapse_single_spaced t :
  single_spaced t = true -> collapse false t = t.
Proof.
  induction t as [|c r IH]; [done|]. cbn [single_spaced].
  intros [Hc Hr]%andb_true_iff. cbn [collapse].
  destruct (is_space c) eqn:Ec.
  - destruct r as [|c2 r']; [done|].
    cbn [negb orb starts_clean] in Hc. apply negb_true_iff in Hc.
    rewrite Hc. by rewrite IH.
  - by rewrite IH.
Qed.

Lemma sep_match_clean r : starts_clean r = true -> sep_match r = false.
Proof.
  destruct r as [|y r']; [done|]. cbn [starts_clean sep_match].
  intros Hy. apply negb_true_iff in Hy. by rewrite Hy.
Qed.

Lemma split_head_clean r :
  starts_clean r = true -> starts_clean (split_head r) = true.
Proof.
  intros H. destruct r as [|y r']; [done|].
  cbn [split_head]. by rewrite (sep_match_clean _ H).
Qed.

Lemma split_head_single_spaced c :
  single_spaced c = true -> single_spaced (split_head c) = true.
Proof.
  induction c as [|x r IH]; [done|]. cbn [single_spaced].
  intros [Hx Hr]%andb_true_iff. cbn [split_head].
  destruct (sep_match (String x r)); [done|].
  cbn [single_spaced]. rewrite (IH Hr), andb_true_r.
  destruct (is_space x); [|done]. cbn [negb orb] in *.
  by apply split_head_clean.
Qed.

(** A group that closes in the whole string closes in its head: the
    closing bracket does not lie behind the first separator. *)
Lemma closes_first_head o c r :
  CommandString.is_bracket o = true -> CommandString.is_bracket c = true ->
  (o = "["%char /\ c = "]"%char) \/ (o = "<"%char /\ c = ">"%char) ->
  single_spaced r = true ->
  closes_first o c r = true -> closes_first o c (split_head r) = true.
Proof.
  intros Ho Hc Hoc. induction r as [|y t IH]; [done|].
  cbn [single_spaced]. intros [Hy Ht]%andb_true_iff Hcl.
  cbn [split_head]. destruct (sep_match (String y t)) eqn:Hsep.
  - exfalso. cbn [sep_match] in Hsep.
    apply andb_true_iff in Hsep as [Hsp Hsep].
    rewrite Hsp in Hy. cbn [negb orb] in Hy.
    rewrite (sep_match_clean _ Hy) in Hsep. cbn [orb] in Hsep.
    apply negb_true_iff in Hsep.
    rewrite CommandNameFacts.closes_first_pass in Hcl
      by (try done; by apply CommandNameFacts.space_not_bracket).
    unfold in_group in Hsep. apply orb_false_iff in Hsep as [H1 H2].
    destruct Hoc as [[-> ->]|[-> ->]]; congruence.
  - cbn [closes_first] in *.
    destruct (Ascii.eqb y c); [done|].
    destruct (Ascii.eqb y o); [done|]. by apply IH.
Qed.

Lemma in_group_head r :
  single_spaced r = true -> in_group r = true -> in_group (split_head r) = true.
Proof.
  intros Hr. unfold in_group. intros [H|H]%orb_true_iff.
  - rewrite (closes_first_head "[" "]"); auto.
  - rewrite (closes_first_head "<" ">"); auto using orb_true_r.
Qed.

Lemma split_head_idem c :
  single_spaced c = true -> split_head (split_head c) = split_head c.
Proof.
  induction c as [|x r IH]; [done|]. cbn [single_spaced].
  intros [Hx Hr]%andb_true_iff. cbn [split_head].
  destruct (sep_match (String x r)) eqn:Hsep; [done|].
  cbn [split_head].
  assert (sep_match (String x (split_head r)) = false) as ->.
  { cbn [sep_match] in *. destruct (is_space x); [|done].
    cbn [andb negb orb] in *.
    apply orb_false_iff in Hsep as [_ Hg]. apply negb_false_iff in Hg.
    rewrite (sep_match_clean _ (split_head_clean _ Hx)).
    by rewrite (in_group_head _ Hr Hg). }
  by rewrite IH.
Qed.

Lemma trim_right_head c :
  single_spaced c = true -> trim_right (split_head c) = split_head c.
Proof.
  induction c as [|x r IH]; [done|]. cbn [single_spaced].
  intros [Hx Hr]%andb_true_iff. cbn [split_head].
  destruct (sep_match (String x r)) eqn:Hsep; [done|].
  cbn [trim_right].
  assert (all_space (String x (split_head r)) = false) as ->.
  { cbn [all_space sep_match] in *. destruct (is_space x); [|done].
    cbn [andb negb orb] in *.
    apply orb_false_iff in Hsep as [_ Hg]. apply negb_false_iff in Hg.
    destruct r as [|y r']; [done|].
    cbn [split_head]. rewrite (sep_match_clean _ Hx).
    cbn [all_space starts_clean] in *. apply negb_true_iff in Hx.
    by rewrite Hx. }
  by rewrite IH.
Qed.

Lemma trim_left_clean h : starts_clean h = true -> trim_left h = h.
Proof.
  destruct h as [|y r]; [done|]. cbn [starts_clean trim_left].
  intros Hy. apply negb_true_iff in Hy. by rewrite Hy.
Qed.

(** The head of a string that is single-spaced and begins with a word is
    its own name. *)
Lemma getCommandName_head c :
  single_spaced c = true -> starts_clean c = true ->
  getCommandName (split_head c) = split_head c.
Proof.
  intros Hc Hs. unfold getCommandName.
  rewrite collapse_single_spaced by (by apply split_head_single_spaced).
  rewrite split_head_idem by done. unfold trim.
  rewrite trim_left_clean by (by apply split_head_clean).
  by apply trim_right_head.
Qed.

(** What [getCommandName] returns is the head of such a string. *)
Lemma getCommandName_is_head s :
  exists c, single_spaced c = true /\ starts_clean c = true
            /\ getCommandName s = split_head c.
Proof.
  unfold getCommandName.
  destruct (collapse_spacing s false) as [Hc _].
  destruct (collapse false s) as [|x r] eqn:E.
  { by exists "". }
  destruct (is_space x) eqn:Hx.
  - destruct (sep_match (String x r)) eqn:Hsep.
    + exists "". cbn [split_head]. by rewrite Hsep.
    + cbn [single_spaced] in Hc. rewrite Hx in Hc. cbn [negb orb] in Hc.
      apply andb_true_iff in Hc as [Hr1 Hr2].
      exists r. split; [done|]. split; [done|].
      cbn [split_head]. rewrite Hsep. unfold trim. cbn [trim_left].
      rewrite Hx. rewrite trim_left_clean by (by apply split_head_clean).
      by apply trim_right_head.
  - exists (String x r). split; [done|].
    assert (starts_clean (String x r) = true) as Hs.
    { cbn [starts_clean]. by rewrite Hx. }
    split; [done|]. unfold trim.
    rewrite trim_left_clean by (by apply split_head_clean).
    by apply trim_right_head.
Qed.

End NameFacts.

(** ** Names that hold a group *)
Module GroupFacts.
Import JsString CommandString Spacing.









End GroupFacts.



Example getCommandName_leading_space :
  getCommandName " build <entry> [options]" = "".
Proof. vm_compute. reflexivity. Qed.

Example getCommandName_group_first :
  getCommandName "<entry   file>  [options]" = "<entry file>".
Proof. vm_compute. reflexivity. Qed.


(** ** Property lists *)
Module JsFacts.

Lemma lookup_assign_eq k v ps : Js.lookup k (Js.assign k v ps) = Some v.
Proof.
  induction ps as [|[k' v'] r IH]; simpl.
  - by rewrite String.eqb_refl.
  - destruct (String.eqb k k') eqn:E; simpl; rewrite ?String.eqb_refl, ?E; auto.
Qed.

Lemma lookup_assign_ne k k' v ps :
  k' <> k -> Js.lookup k' (Js.assign k v ps) = Js.lookup k' ps.
Proof.
  intros Hne. induction ps as [|[k2 v2] r IH]; simpl.
  - destruct (String.eqb_spec k' k); [done|done].
  - destruct (String.eqb_spec k k2) as [->|Hk]; simpl.
    + destruct (String.eqb_spec k' k2); [done|done].
    + destruct (String.eqb_spec k' k2); [done|]. apply IH.
Qed.

Lemma lookup_app_some k ps qs v :
  Js.lookup k ps = Some v -> Js.lookup k (ps ++ qs)%list = Some v.
Proof.
  induction ps as [|[k' v'] r IH]; simpl; [done|].
  destruct (String.eqb k k'); auto.
Qed.

Lemma get_set_eq o k v : Js.is_object o = true -> Js.get (Js.set o k v) k = v.
Proof. destruct o; [done|]. intros _. simpl. by rewrite lookup_assign_eq. Qed.

Lemma get_set_ne o k k' v : k' <> k -> Js.get (Js.set o k v) k' = Js.get o k'.
Proof.
  destruct o; [done|]. intros Hne. simpl. by rewrite lookup_assign_ne.
Qed.

Lemma set_is_object o k v : Js.is_object (Js.set o k v) = Js.is_object o.
Proof. by destruct o. Qed.

Lemma truthy_set o k v : Js.truthy (Js.set o k v) = Js.truthy o.
Proof. by destruct o. Qed.

(** What a primitive gives for a property is a primitive. *)
Lemma get_prim_not_object p k : Js.is_object (Js.get (JPrim p) k) = false.
Proof.
  destruct p; try done. simpl. unfold Js.get_string.
  destruct (Js.index_of k) as [i|].
  - by destruct (Js.char_at i s).
  - by destruct (String.eqb k "length").
Qed.

Lemma get_object o k : Js.is_object (Js.get o k) = true -> Js.is_object o = true.
Proof. destruct o as [p|]; [|done]. by rewrite get_prim_not_object. Qed.

(** A primitive has a value only at an index and at [length]. *)
Lemma get_prim_word p k :
  Js.index_of k = None -> String.eqb k "length" = false ->
  Js.get (JPrim p) k = JUndefined.
Proof.
  intros Hi Hl. destruct p; try done. simpl. unfold Js.get_string.
  by rewrite Hi, Hl.
Qed.

Lemma char_at_empty i : Js.char_at i "" = None.
Proof. by destruct i. Qed.

Lemma get_falsy v k : Js.truthy v = false -> Js.truthy (Js.get v k) = false.
Proof.
  destruct v as [p|]; [|done]. destruct p; try done.
  destruct s as [|c r]; [|done]. intros _. simpl. unfold Js.get_string.
  destruct (Js.index_of k) as [i|].
  - by rewrite char_at_empty.
  - by destruct (String.eqb k "length").
Qed.

Lemma lookup_none k (ps : props) : Js.lookup k ps = None -> k ∉ ps.*1.
Proof.
  induction ps as [|[k' v] rest IH]; simpl.
  { intros _ H. by apply elem_of_nil in H. }
  destruct (String.eqb_spec k k') as [->|Hne]; [done|].
  intros H [Heq|Hin]%elem_of_cons; [done|]. by apply IH.
Qed.

End JsFacts.

(** ** Slashes *)
Module SlashFacts.
Import JsString.

Lemma trail_slash_ends s : s <> "" -> ends_with "/" (trail_slash s) = true.
Proof.
  induction s as [|c r IH]; [done|]. intros _.
  destruct r as [|c' r'].
  - cbn [trail_slash]. destruct (Ascii.eqb c "/") eqn:E.
    + cbn [ends_with]. exact E.
    + reflexivity.
  - change (trail_slash (String c (String c' r')))
      with (String c (trail_slash (String c' r'))).
    specialize (IH ltac:(done)).
    destruct (trail_slash (String c' r')) eqn:E; [done|]. exact IH.
Qed.

Lemma starts_with_char a c r :
  starts_with (String a "") (String c r) = Ascii.eqb a c.
Proof. cbn [starts_with]. apply andb_true_r. Qed.

Lemma trail_slash_head s :
  starts_with "/" (trail_slash s) = starts_with "/" s.
Proof.
  destruct s as [|c r]; [done|]. destruct r as [|c' r'].
  - cbn [trail_slash]. by destruct (Ascii.eqb c "/").
  - reflexivity.
Qed.

Lemma lead_slash_head s :
  s <> "" -> starts_with "." s = false ->
  starts_with "/" (lead_slash s) = true.
Proof.
  destruct s as [|c r]; [done|]. intros _. rewrite starts_with_char.
  intros Hdot. cbn [lead_slash].
  rewrite (Ascii.eqb_sym c "."), Hdot, orb_false_r.
  destruct (Ascii.eqb c "/") eqn:E.
  - rewrite starts_with_char. by rewrite Ascii.eqb_sym.
  - reflexivity.
Qed.

Lemma lead_slash_nonempty s : s <> "" -> lead_slash s <> "".
Proof.
  destruct s as [|c r]; [done|]. intros _. cbn [lead_slash].
  by destruct (Ascii.eqb c "/" || Ascii.eqb c ".").
Qed.

Lemma trail_slash_nonempty s : s <> "" -> trail_slash s <> "".
Proof.
  destruct s as [|c [|c' r]]; [done| |done]. intros _. cbn [trail_slash].
  by destruct (Ascii.eqb c "/").
Qed.

Lemma strip_dot_slash_rooted s :
  starts_with "/" s = true -> strip_dot_slash s = s.
Proof.
  destruct s as [|c r]; [done|]. rewrite starts_with_char.
  intros Hc. apply Ascii.eqb_eq in Hc. by subst c.
Qed.

Lemma trail_slash_spec s :
  s <> "" ->
  trail_slash s = if ends_with "/" s then s else s ++ "/".
Proof.
  induction s as [|c r IH]; [done|]. intros _.
  destruct r as [|c' r'].
  - cbn [ends_with trail_slash].
    destruct (Ascii.eqb_spec c "/") as [->|_]; done.
  - change (ends_with "/" (String c (String c' r')))
      with (ends_with "/" (String c' r')).
    change (trail_slash (String c (String c' r')))
      with (String c (trail_slash (String c' r'))).
    rewrite IH by done.
    destruct (ends_with "/" (String c' r')); [done|].
    by rewrite CommandNameFacts.app_cons.
Qed.

(** After [./] has been removed, the string still ends with the slash,
    unless nothing is left. *)
Lemma strip_dot_slash_ends s :
  ends_with "/" s = true -> s <> "./" ->
  ends_with "/" (strip_dot_slash s) = true.
Proof.
  intros He Hne. destruct s as [|a r]; [done|].
  destruct (Ascii.eqb_spec a ".") as [->|Ha].
  - destruct r as [|b r]; [done|].
    destruct (Ascii.eqb_spec b "/") as [->|Hb].
    + destruct r as [|x r']; [done|]. exact He.
    + destruct b as [[] [] [] [] [] [] [] []]; try exact He; done.
  - destruct a as [[] [] [] [] [] [] [] []]; try exact He; done.
Qed.

End SlashFacts.

(** ** Project options *)
Module OptionsFacts.

Lemma defaultsDeep_is_object o s : Js.is_object (Lodash.defaultsDeep o s) = true.
Proof. unfold Lodash.defaultsDeep. by destruct o as [[]|]. Qed.

Lemma with_postcss_is_object h cwd c c1 :
  with_postcss h cwd c = Ok c1 -> Js.is_object c1 = Js.is_object c.
Proof.
  unfold with_postcss. destruct (Js.truthy _); [by intros [= <-]|].
  destruct (search_postcss h _) as [found|e]; [|done].
  intros [= <-]. apply JsFacts.set_is_object.
Qed.

Lemma with_browserslist_is_object h cwd c c1 :
  with_browserslist h cwd c = Ok c1 -> Js.is_object c1 = Js.is_object c.
Proof.
  unfold with_browserslist. destruct (Js.truthy _); [by intros [= <-]|].
  destruct (search_browserslist h _) as [found|e]; [|done].
  intros [= <-]. apply JsFacts.set_is_object.
Qed.

Lemma merge_found_is_object h config found c log :
  Js.is_object config = true ->
  merge_found h config found = (Ok c, log) -> Js.is_object c = true.
Proof.
  intros Hc. unfold merge_found. destruct found as [fp cfg].
  destruct (Js.truthy cfg).
  - destruct (negb _).
    + intros [= <- _]. apply defaultsDeep_is_object.
    + destruct (validateOptions h cfg); [done|].
      intros [= <- _]. apply defaultsDeep_is_object.
  - by intros [= <- _].
Qed.

Lemma merged_options_is_object h cwd init cf c log :
  merged_options h cwd init cf = (Ok c, log) -> Js.is_object c = true.
Proof.
  unfold merged_options. destruct (explicit_config h cwd cf) as [cf' log1].
  destruct (find_config h cwd cf cf') as [found|e]; [|done].
  destruct (merge_found _ _ _) as [[c0|e] log2] eqn:E; [|done].
  cbn [mbind result_bind].
  destruct (with_postcss h cwd c0) as [c1|e] eqn:E1; [|done].
  cbn [mbind result_bind]. intros [= Hb _].
  rewrite (with_browserslist_is_object _ _ _ _ Hb).
  rewrite (with_postcss_is_object _ _ _ _ E1).
  eapply merge_found_is_object; [|exact E]. apply defaultsDeep_is_object.
Qed.

Lemma normalize_paths_publicPath c :
  Js.is_object c = true ->
  Js.get (normalize_paths c) "publicPath" = normal_publicPath (Js.get c "publicPath").
Proof.
  intros Hc. unfold normalize_paths, ensureSlash, removeSlash.
  set (pick := fun c' : jsval =>
         match Js.get c' "outputDir" with
         | JPrim (PStr s) =>
             Js.set c' "outputDir" (JStr (JsString.strip_trail_slash s))
         | _ => c'
         end).
  assert (Hpick : forall c', Js.get (pick c') "publicPath" = Js.get c' "publicPath").
  { intros c'. unfold pick. destruct (Js.get c' "outputDir") as [[]|]; try done.
    by rewrite JsFacts.get_set_ne. }
  destruct (Js.get c "publicPath") as [p|kd ps] eqn:E.
  - destruct p; try (rewrite E; fold (pick c); by rewrite Hpick, E).
    rewrite JsFacts.get_set_eq by done.
    match goal with |- Js.get ?t _ = _ => change t with (pick
      (Js.set (Js.set c "publicPath"
                 (JStr (JsString.trail_slash
                    (if JsString.is_http s then s else JsString.lead_slash s))))
         "publicPath"
         (JStr (JsString.strip_dot_slash (JsString.trail_slash
                    (if JsString.is_http s then s else JsString.lead_slash s))))))
    end.
    rewrite Hpick, JsFacts.get_set_eq; [done|].
    by rewrite JsFacts.set_is_object.
  - rewrite E. fold (pick c). by rewrite Hpick, E.
Qed.

Lemma normalize_paths_other c k :
  k <> "publicPath" -> k <> "outputDir" ->
  Js.get (normalize_paths c) k = Js.get c k.
Proof.
  intros H1 H2. unfold normalize_paths, ensureSlash, removeSlash.
  repeat match goal with
  | |- context [match Js.get ?a ?b with _ => _ end] =>
      destruct (Js.get a b) as [[]|]
  | |- context [Js.get (Js.set _ _ _) k] => rewrite JsFacts.get_set_ne by done
  end; done.
Qed.

End OptionsFacts.

(** C3, as the code has it.  When the merged project options hold a
    string under [publicPath], the options that [loadProjectOptions] returns
    hold a string there too.  It ends with a slash, except that the strings
    [""], ["."] and ["./"] come back as the empty string.  It begins with a
    slash when the string is not empty, is not an http or https URL and does
    not begin with a dot; a string that begins with a dot gets no leading
    slash: it comes back with the trailing slash and without a leading
    [./].  What is not a string is returned as it is. *)
Theorem loadProjectOptions_publicPath (h : Host) (cwd : string)
    (init cf c : jsval) (log : list logline) :
  merged_options h cwd init cf = (Ok c, log) ->
  exists c',
    loadProjectOptions h cwd init cf = (Ok c', log)
    /\ match Js.get c "publicPath" with
       | JPrim (PStr s) =>
           exists s',
             Js.get c' "publicPath" = JStr s'
             /\ (s = "" \/ s = "." \/ s = "./" -> s' = "")
             /\ (s <> "" -> s <> "." -> s <> "./" ->
                 JsString.ends_with "/" s' = true)
             /\ (s <> "" -> JsString.is_http s = false ->
                 JsString.starts_with "." s = false ->
                 JsString.starts_with "/" s' = true)
             /\ (JsString.starts_with "." s = true ->
                 s' = JsString.strip_dot_slash
                        (if JsString.ends_with "/" s then s else s ++ "/"))
       | v => Js.get c' "publicPath" = v
       end.
Proof.
  intros Hm. exists (normalize_paths c). split.
  { unfold loadProjectOptions. by rewrite Hm. }
  pose proof (merged_options_is_object := OptionsFacts.merged_options_is_object
                                            _ _ _ _ _ _ Hm).
  rewrite OptionsFacts.normalize_paths_publicPath by done.
  destruct (Js.get c "publicPath") as [[| | | |s]|]; try done.
  cbn [normal_publicPath]. eexists; split; [reflexivity|].
  set (t := if JsString.is_http s then s else JsString.lead_slash s).
  assert (JsString.starts_with "." s = true ->
          JsString.is_http s = false /\ t = s) as Hdot.
  { intros Hd. destruct s as [|a r]; [done|].
    rewrite SlashFacts.starts_with_char in Hd. apply Ascii.eqb_eq in Hd.
    subst a. subst t. split; [done|]. done. }
  assert (t = s \/ (JsString.starts_with "/" t = true /\ s <> "")) as Ht.
  { subst t. destruct (JsString.is_http s); [by left|].
    destruct s as [|a r]; [by left|]. cbn [JsString.lead_slash].
    destruct (Ascii.eqb a "/" || Ascii.eqb a "."); [by left|by right]. }
  split; [|split; [|split]].
  - intros [->|[->| ->]]; reflexivity.
  - intros H1 H2 H3. apply SlashFacts.strip_dot_slash_ends.
    + apply SlashFacts.trail_slash_ends.
      destruct Ht as [->|[Hs _]]; [done|]. by destruct t.
    + destruct Ht as [->|[Hs _]].
      * rewrite SlashFacts.trail_slash_spec by done.
        destruct (JsString.ends_with "/" s) eqn:E; [done|].
        intros Heq. destruct s as [|a [|b r]]; [done| |].
        -- injection Heq as ->. done.
        -- rewrite !CommandNameFacts.app_cons in Heq. injection Heq as -> -> Hr.
           by destruct r.
      * intros Heq.
        destruct t as [|a r]; [done|].
        rewrite SlashFacts.starts_with_char in Hs. apply Ascii.eqb_eq in Hs.
        subst a. destruct r as [|b r']; [done|].
        change (JsString.trail_slash (String "/" (String b r')))
          with (String "/" (JsString.trail_slash (String b r'))) in Heq.
        discriminate Heq.
  - intros Hne Hhttp Hd. subst t. rewrite Hhttp.
    assert (JsString.starts_with "/" (JsString.trail_slash (JsString.lead_slash s))
            = true) as Hhead.
    { rewrite SlashFacts.trail_slash_head. by apply SlashFacts.lead_slash_head. }
    by rewrite SlashFacts.strip_dot_slash_rooted.
  - intros Hd. destruct (Hdot Hd) as [_ ->].
    rewrite SlashFacts.trail_slash_spec; [done|]. by intros ->.
Qed.

Lemma loadProjectOptions_publicPath_witness :
  (exists c',
     loadProjectOptions Sample.bare_host "/proj"
       (Js.obj [("publicPath", JStr "static")]) JUndefined
     = (Ok c', [LogWarn "loadProjectOptions"
                  "san.config.js Cannot find! Use default config."])
     /\ exists s', Js.get c' "publicPath" = JStr s'
                   /\ JsString.starts_with "/" s' = true
                   /\ JsString.ends_with "/" s' = true)
  /\ (exists c',
        loadProjectOptions Sample.bare_host "/proj"
          (Js.obj [("publicPath", JStr "../a")]) JUndefined
        = (Ok c', [LogWarn "loadProjectOptions"
                     "san.config.js Cannot find! Use default config."])
        /\ Js.get c' "publicPath" = JStr "../a/").
Proof.
  split.
  - assert (exists c,
              merged_options Sample.bare_host "/proj"
                (Js.obj [("publicPath", JStr "static")]) JUndefined
              = (Ok c, [LogWarn "loadProjectOptions"
                          "san.config.js Cannot find! Use default config."])
              /\ Js.get c "publicPath" = JStr "static") as (c & Hc & Hget).
    { eexists. split; vm_compute; reflexivity. }
    destruct (loadProjectOptions_publicPath Sample.bare_host "/proj"
                (Js.obj [("publicPath", JStr "static")]) JUndefined c _ Hc)
      as (c' & Hrun & Hpath).
    exists c'. split; [exact Hrun|].
    rewrite Hget in Hpath. destruct Hpath as (s' & Hs' & _ & Hend & Hhead & _).
    exists s'. split; [exact Hs'|]. split.
    + apply Hhead; [discriminate|vm_compute; reflexivity..].
    + apply Hend; discriminate.
  - assert (exists c,
              merged_options Sample.bare_host "/proj"
                (Js.obj [("publicPath", JStr "../a")]) JUndefined
              = (Ok c, [LogWarn "loadProjectOptions"
                          "san.config.js Cannot find! Use default config."])
              /\ Js.get c "publicPath" = JStr "../a") as (c & Hc & Hget).
    { eexists. split; vm_compute; reflexivity. }
    destruct (loadProjectOptions_publicPath Sample.bare_host "/proj"
                (Js.obj [("publicPath", JStr "../a")]) JUndefined c _ Hc)
      as (c' & Hrun & Hpath).
    exists c'. split; [exact Hrun|].
    rewrite Hget in Hpath. destruct Hpath as (s' & Hs' & _ & _ & _ & Hdot).
    rewrite Hs'. f_equal. f_equal. rewrite Hdot; vm_compute; reflexivity.
Defined.

Example loadProjectOptions_parent_publicPath :
  (c ← (loadProjectOptions Sample.bare_host "/proj"
          (Js.obj [("publicPath", JStr "../a")]) JUndefined).1;
   Ok (Js.get c "publicPath"))
  = Ok (JStr "../a/").
Proof. vm_compute. reflexivity. Qed.

Example loadProjectOptions_relative_publicPath :
  (c ← (loadProjectOptions Sample.bare_host "/proj"
          (Js.obj [("publicPath", JStr "./dist")]) JUndefined).1;
   Ok (Js.get c "publicPath"))
  = Ok (JStr "dist/").
Proof. vm_compute. reflexivity. Qed.

Example loadProjectOptions_empty_publicPath :
  (c ← (loadProjectOptions Sample.bare_host "/proj"
          (Js.obj [("publicPath", JStr "")]) JUndefined).1;
   Ok (Js.get c "publicPath"))
  = Ok (JStr "").
Proof. vm_compute. reflexivity. Qed.

(** C3 as stated does not hold: a relative public path keeps no leading
    slash ("./dist" comes back as "dist/"). *)
Lemma publicPath_leading_slash_counterexample :
  ~ (forall (h : Host) (cwd : string) (init cf c c' : jsval)
            (log : list logline) (s : string),
       merged_options h cwd init cf = (Ok c, log) ->
       loadProjectOptions h cwd init cf = (Ok c', log) ->
       Js.get c "publicPath" = JStr s ->
       JsString.is_http s = false ->
       exists s', Js.get c' "publicPath" = JStr s'
                  /\ JsString.starts_with "/" s' = true
                  /\ JsString.ends_with "/" s' = true).
Proof.
  intros H.
  edestruct (H Sample.bare_host "/proj"
               (Js.obj [("publicPath", JStr "./dist")]) JUndefined)
    as (s' & Hs & Hhead & _); [vm_compute; reflexivity..|].
  vm_compute in Hs. injection Hs as <-. discriminate Hhead.
Qed.

(** ** Merging with defaults *)
Module MergeFacts.

(** Induction on a value and the values of its properties. *)
Lemma jsval_props_ind (P : jsval -> Prop) :
  (forall p, P (JPrim p)) ->
  (forall kd ps, Forall (fun kv => P kv.2) ps -> P (JObj kd ps)) ->
  forall v, P v.
Proof.
  intros Hp Ho. fix IH 1. intros [p|kd ps]; [apply Hp|].
  apply Ho. induction ps as [|[k v] r IHr]; constructor; [apply IH|apply IHr].
Qed.

Lemma path_get_undefined p q :
  path_get p JUndefined = JPrim q -> q = PUndefined.
Proof.
  induction p as [|k p IH]; cbn [path_get Js.get]; [congruence|exact IH].
Qed.

Lemma keeps_leaves_refl op : keeps_leaves op op.
Proof. by intros k p q. Qed.

Lemma keeps_leaves_trans a b c :
  keeps_leaves a b -> keeps_leaves b c -> keeps_leaves a c.
Proof. intros H1 H2 k p q Hp Hq. apply H2; [|done]. by apply H1. Qed.

Lemma keeps_leaves_obj kd kd' op op' p q :
  keeps_leaves op op' ->
  path_get p (JObj kd op) = JPrim q -> q <> PUndefined ->
  path_get p (JObj kd' op') = JPrim q.
Proof.
  intros H. destruct p as [|k p]; [done|]. simpl. apply H.
Qed.

Lemma merge_key_keeps k sv rec op :
  (forall ops, keeps_leaves ops (rec ops)) ->
  keeps_leaves op (Lodash.merge_key k sv rec op).
Proof.
  intros Hrec k' p q Hp Hq. unfold Lodash.merge_key.
  destruct (Js.lookup k op) as [[[]|kd ops]|] eqn:E; try done.
  - (* the destination holds undefined under k *)
    destruct (String.eqb_spec k' k) as [->|Hne].
    + rewrite E in Hp. cbn [default] in Hp.
      by apply path_get_undefined in Hp.
    + by rewrite JsFacts.lookup_assign_ne.
  - destruct (Js.is_object sv); [|done].
    destruct (String.eqb_spec k' k) as [->|Hne].
    + rewrite E in Hp. rewrite JsFacts.lookup_assign_eq. simpl in *.
      eapply keeps_leaves_obj; [apply Hrec|exact Hp|done].
    + by rewrite JsFacts.lookup_assign_ne.
  - destruct (Js.lookup k' op) as [v|] eqn:E'.
    + by rewrite (JsFacts.lookup_app_some _ _ _ _ E').
    + cbn [default] in Hp. by apply path_get_undefined in Hp.
Qed.

Lemma merge_into_keeps src : forall op, keeps_leaves op (Lodash.merge_into src op).
Proof.
  induction src as [x|kd sp IH] using jsval_props_ind; intros op.
  { apply keeps_leaves_refl. }
  simpl. revert op. induction IH as [|[k sv] rest Hsv _ IHrest]; intros op.
  { apply keeps_leaves_refl. }
  eapply keeps_leaves_trans; [|apply IHrest].
  apply merge_key_keeps. exact Hsv.
Qed.

(** The values of the destination win at every defined leaf. *)
Lemma defaultsDeep_keeps_leaves cfg base p q :
  Js.is_object cfg = true ->
  path_get p cfg = JPrim q -> q <> PUndefined ->
  path_get p (Lodash.defaultsDeep cfg base) = JPrim q.
Proof.
  destruct cfg as [|kd op]; [done|]. intros _.
  unfold Lodash.defaultsDeep. simpl Lodash.to_object.
  apply keeps_leaves_obj, merge_into_keeps.
Qed.

Lemma with_postcss_other h cwd c c1 k :
  k <> "css" -> with_postcss h cwd c = Ok c1 -> Js.get c1 k = Js.get c k.
Proof.
  intros Hk. unfold with_postcss.
  destruct (Js.truthy _); [by intros [= <-]|].
  destruct (search_postcss h _) as [found|e]; [|done].
  intros [= <-]. by rewrite JsFacts.get_set_ne.
Qed.

Lemma with_browserslist_other h cwd c c1 k :
  k <> "browserslist" ->
  with_browserslist h cwd c = Ok c1 -> Js.get c1 k = Js.get c k.
Proof.
  intros Hk. unfold with_browserslist.
  destruct (Js.truthy _); [by intros [= <-]|].
  destruct (search_browserslist h _) as [found|e]; [|done].
  intros [= <-]. by rewrite JsFacts.get_set_ne.
Qed.

Lemma finish_options_inv h cwd c c' :
  finish_options h cwd c = Ok c' ->
  exists c1 c2,
    with_postcss h cwd c = Ok c1 /\ with_browserslist h cwd c1 = Ok c2
    /\ c' = normalize_paths c2.
Proof.
  unfold finish_options.
  destruct (with_postcss h cwd c) as [c1|e] eqn:E1; [|done].
  cbn [mbind result_bind].
  destruct (with_browserslist h cwd c1) as [c2|e] eqn:E2; [|done].
  cbn [mbind result_bind]. intros [= <-]. by exists c1, c2.
Qed.

Lemma finish_options_other h cwd c c' k :
  k ∉ completed_keys ->
  finish_options h cwd c = Ok c' -> Js.get c' k = Js.get c k.
Proof.
  unfold completed_keys. intros Hk H.
  assert (k <> "css" /\ k <> "browserslist" /\ k <> "publicPath"
          /\ k <> "outputDir") as (H1 & H2 & H3 & H4).
  { repeat split; intros ->; apply Hk; set_solver. }
  destruct (finish_options_inv _ _ _ _ H) as (c1 & c2 & Hp & Hb & ->).
  rewrite OptionsFacts.normalize_paths_other by done.
  rewrite (with_browserslist_other _ _ _ _ _ H2 Hb).
  by apply (with_postcss_other h cwd).
Qed.

(** The completion of the options throws only what one of its searches
    throws. *)
Lemma finish_options_throws h cwd c e :
  finish_options h cwd c = Throw e ->
  h.(search_postcss) (h.(resolve) cwd ".") = Throw e
  \/ h.(search_browserslist) (h.(resolve) cwd ".") = Throw e.
Proof.
  unfold finish_options, with_postcss, with_browserslist.
  destruct (Js.truthy (and_prop _ _)).
  - cbn [mbind result_bind]. destruct (Js.truthy _); [done|].
    destruct (search_browserslist h _) as [found|e']; [done|].
    intros [= ->]. by right.
  - destruct (search_postcss h _) as [found|e']; [|intros [= ->]; by left].
    cbn [mbind result_bind]. destruct (Js.truthy _); [done|].
    destruct (search_browserslist h _) as [found'|e']; [done|].
    intros [= ->]. by right.
Qed.

End MergeFacts.

Lemma finish_merged h cwd c :
  (c2 ← (c1 ← with_postcss h cwd c; with_browserslist h cwd c1);
   Ok (normalize_paths c2))
  = finish_options h cwd c.
Proof.
  unfold finish_options. by destruct (with_postcss h cwd c) as [c1|e].
Qed.

(** C6, as the code has it.  When there is no configuration file (no
    explicit path that exists, and the search returns without a
    configuration), [loadProjectOptions] warns and completes the options
    built from the inline options over the defaults; it returns them unless
    the search for a postcss or a browserslist configuration throws, and
    then it throws what the search threw.  When a file is found whose export
    is an object that passes validation, the result is built in the same
    way from the file merged over those options; in the merge the file wins
    at every path where it holds a value that is neither an object nor
    [undefined], and the returned options keep these values under every key
    that the later steps do not complete or normalize. *)
Theorem loadProjectOptions_layers (h : Host) (cwd : string) (init cf : jsval) :
  let base := Lodash.defaultsDeep init h.(defaultConfig) in
  let cf' := (explicit_config h cwd cf).1 in
  let searches_return :=
    is_ok (h.(search_postcss) (h.(resolve) cwd ".")) = true
    /\ is_ok (h.(search_browserslist) (h.(resolve) cwd ".")) = true in
  (Js.truthy cf' = false ->
   forall found,
     h.(search_san) cwd = Ok found ->
     Js.truthy (default JUndefined (snd <$> found)) = false ->
     exists log,
       loadProjectOptions h cwd init cf = (finish_options h cwd base, log)
       /\ LogWarn "loadProjectOptions"
            "san.config.js Cannot find! Use default config." ∈ log
       /\ (searches_return -> is_ok (finish_options h cwd base) = true)
       /\ (forall e,
             finish_options h cwd base = Throw e ->
             h.(search_postcss) (h.(resolve) cwd ".") = Throw e
             \/ h.(search_browserslist) (h.(resolve) cwd ".") = Throw e))
  /\
  (forall fp cfg,
     find_config h cwd cf cf' = Ok (fp, cfg) ->
     Js.truthy cfg = true -> Js.typeof_object cfg = true ->
     h.(validateOptions) cfg = None ->
     let merged := Lodash.defaultsDeep cfg base in
     (exists log,
        loadProjectOptions h cwd init cf = (finish_options h cwd merged, log))
     /\ (searches_return -> is_ok (finish_options h cwd merged) = true)
     /\ (forall p q,
           path_get p cfg = JPrim q -> q <> PUndefined ->
           path_get p merged = JPrim q)
     /\ (forall c' k p q,
           finish_options h cwd merged = Ok c' ->
           k ∉ completed_keys ->
           path_get (k :: p) cfg = JPrim q -> q <> PUndefined ->
           path_get (k :: p) c' = JPrim q)).
Proof.
  intros base cf' searches_return.
  assert (forall c, searches_return -> is_ok (finish_options h cwd c) = true)
    as Hreturn.
  { intros c [H1 H2]. destruct (finish_options h cwd c) as [c'|e] eqn:E; [done|].
    destruct (MergeFacts.finish_options_throws _ _ _ _ E) as [H|H];
      [by rewrite H in H1|by rewrite H in H2]. }
  split.
  - intros Hcf found Hsan Hsearch.
    unfold loadProjectOptions, merged_options.
    destruct (explicit_config h cwd cf) as [cf1 log1] eqn:E.
    subst cf'. simpl in Hcf.
    unfold find_config. rewrite Hcf, Hsan. cbn [mbind result_bind].
    assert (Js.truthy (default (JUndefined, JUndefined) found).2 = false)
      as Hfound.
    { by destruct found as [[]|]. }
    destruct (default (JUndefined, JUndefined) found) as [fp cfg].
    simpl in Hfound. unfold merge_found. rewrite Hfound.
    cbn [mbind result_bind]. rewrite finish_merged.
    eexists. split; [reflexivity|]. split; [set_solver|].
    split; [apply Hreturn|]. intros e. apply MergeFacts.finish_options_throws.
  - intros fp cfg Hfind Htruthy Htype Hvalid merged.
    assert (Js.is_object cfg = true) as Hobj.
    { destruct cfg as [[]|[]]; done. }
    split; [|split; [|split]].
    + unfold loadProjectOptions, merged_options.
      destruct (explicit_config h cwd cf) as [cf1 log1] eqn:E.
      subst cf'. simpl in Hfind. rewrite Hfind.
      unfold merge_found. rewrite Htruthy, Htype, Hvalid.
      cbn [negb mbind result_bind]. rewrite finish_merged.
      eexists. reflexivity.
    + apply Hreturn.
    + intros p q. by apply MergeFacts.defaultsDeep_keeps_leaves.
    + intros c' k p q Hfin Hk Hp Hq. cbn [path_get] in *.
      rewrite (MergeFacts.finish_options_other _ _ _ _ _ Hk Hfin).
      change (path_get (k :: p) merged = JPrim q).
      by apply MergeFacts.defaultsDeep_keeps_leaves.
Qed.

Lemma loadProjectOptions_layers_witness :
  (exists log,
     loadProjectOptions Sample.bare_host "/proj"
       (Js.obj [("assetsDir", JStr "assets")]) (JStr "missing.js")
     = (finish_options Sample.bare_host "/proj"
          (Lodash.defaultsDeep (Js.obj [("assetsDir", JStr "assets")])
             Sample.defaults), log)
     /\ LogWarn "loadProjectOptions"
          "san.config.js Cannot find! Use default config." ∈ log
     /\ is_ok (finish_options Sample.bare_host "/proj"
                 (Lodash.defaultsDeep (Js.obj [("assetsDir", JStr "assets")])
                    Sample.defaults)) = true)
  /\ exists c',
       (loadProjectOptions
          (Sample.host_with (Js.obj [("assetsDir", JStr "cdn")])) "/proj"
          (Js.obj []) JUndefined).1 = Ok c'
       /\ path_get ["assetsDir"] c' = JStr "cdn".
Proof.
  pose proof (loadProjectOptions_layers Sample.bare_host "/proj"
                (Js.obj [("assetsDir", JStr "assets")]) (JStr "missing.js"))
    as H1.
  pose proof (loadProjectOptions_layers
                (Sample.host_with (Js.obj [("assetsDir", JStr "cdn")])) "/proj"
                (Js.obj []) JUndefined) as H2.
  cbv zeta in H1, H2. destruct H1 as [H1 _]. destruct H2 as [_ H2].
  split.
  - destruct (H1 ltac:(vm_compute; reflexivity) None
                ltac:(vm_compute; reflexivity) ltac:(vm_compute; reflexivity))
      as (log & Hrun & Hlog & Hok & _).
    exists log. split; [exact Hrun|]. split; [exact Hlog|].
    apply Hok. split; vm_compute; reflexivity.
  - destruct (H2 (JStr "/proj/san.config.js")
                (Js.obj [("assetsDir", JStr "cdn")]))
      as ((log & Hrun) & _ & _ & H3); [vm_compute; reflexivity..|].
    assert (exists c',
              finish_options
                (Sample.host_with (Js.obj [("assetsDir", JStr "cdn")])) "/proj"
                (Lodash.defaultsDeep (Js.obj [("assetsDir", JStr "cdn")])
                   (Lodash.defaultsDeep (Js.obj [])
                      (defaultConfig
                         (Sample.host_with
                            (Js.obj [("assetsDir", JStr "cdn")])))))
              = Ok c') as [c' Hc'].
    { eexists. vm_compute. reflexivity. }
    exists c'. split; [by rewrite Hrun, Hc'|].
    apply (H3 c' "assetsDir" [] (PStr "cdn") Hc');
      [|vm_compute; reflexivity|discriminate].
    rewrite list_elem_of_In. vm_compute.
    intros H. repeat destruct H as [H|H]; try discriminate H; exact H.
Defined.

(** The search for a postcss configuration loads what it finds: when that
    fails, [loadProjectOptions] throws although no configuration file of
    the project is involved. *)
Example loadProjectOptions_search_throws :
  (loadProjectOptions Sample.broken_postcss_host "/proj" (Js.obj [])
     JUndefined).1
  = Throw (Failure "postcss.config.js: Unexpected token").
Proof. vm_compute. reflexivity. Qed.

Example loadProjectOptions_undefined_in_file :
  (c ← (loadProjectOptions
          (Sample.host_with (Js.obj [("assetsDir", JUndefined)])) "/proj"
          (Js.obj []) JUndefined).1;
   Ok (Js.get c "assetsDir"))
  = Ok (JStr "static").
Proof. vm_compute. reflexivity. Qed.

Example loadProjectOptions_file_publicPath_normalized :
  (c ← (loadProjectOptions
          (Sample.host_with (Js.obj [("publicPath", JStr "cdn")])) "/proj"
          (Js.obj []) JUndefined).1;
   Ok (Js.get c "publicPath"))
  = Ok (JStr "/cdn/").
Proof. vm_compute. reflexivity. Qed.

(** C6 as stated does not hold for every overlapping key: a key that the
    file holds as [undefined] takes the default. *)
Lemma file_overrides_counterexample :
  ~ (forall (h : Host) (cwd : string) (init cf fp cfg c : jsval)
            (log : list logline) (k : string) (v : jsval),
       find_config h cwd cf (explicit_config h cwd cf).1 = Ok (fp, cfg) ->
       loadProjectOptions h cwd init cf = (Ok c, log) ->
       Js.lookup k (Js.own_props cfg) = Some v ->
       is_Some (Js.lookup k
                  (Js.own_props (Lodash.defaultsDeep init h.(defaultConfig)))) ->
       Js.get c k = v).
Proof.
  intros H.
  pose (h := Sample.host_with (Js.obj [("assetsDir", JUndefined)])).
  assert (exists fp cfg c log,
            find_config h "/proj" JUndefined
              (explicit_config h "/proj" JUndefined).1 = Ok (fp, cfg)
            /\ loadProjectOptions h "/proj" (Js.obj []) JUndefined = (Ok c, log)
            /\ Js.lookup "assetsDir" (Js.own_props cfg) = Some JUndefined
            /\ Js.get c "assetsDir" = JStr "static")
    as (fp & cfg & c & log & Hfind & Hrun & Hkey & Hget).
  { do 4 eexists. vm_compute. repeat split; reflexivity. }
  assert (is_Some (Js.lookup "assetsDir"
                     (Js.own_props
                        (Lodash.defaultsDeep (Js.obj []) h.(defaultConfig)))))
    as Hdefault.
  { eexists. vm_compute. reflexivity. }
  specialize (H h "/proj" (Js.obj []) JUndefined fp cfg c log "assetsDir"
                JUndefined Hfind Hrun Hkey Hdefault).
  rewrite Hget in H. discriminate H.
Qed.

(** ** Running a command *)
Section DispatchFacts.

Context {W : Type}.
Variable call : nat -> jsval -> W -> result jsval * W.
Variable argsert : string -> list jsval -> bool.
Variable cli_parse : string -> list string -> option jsval.
Variable cli_0 : string.

Lemma calls_from_cons f argv w calls w' :
  calls_from call argv (call f argv w).2 calls w' ->
  calls_from call argv w ((f, (call f argv w).1) :: calls) w'.
Proof. intros H. by split. Qed.

Lemma returned_false_not_non_false ret :
  returned_false ret = true -> returned_non_false ret = false.
Proof. destruct ret as [v|e]; simpl; [|done]. by intros ->. Qed.




End DispatchFacts.

Example runCommand_stops_at_false :
  runCommand SampleService.call SampleService.accept SampleService.parse
    SampleService.cli_0 "build" ["src"] SampleService.with_build []
  = (Ok tt, SampleService.with_build, [1; 2],
     [FlagHandlerCalled 1 (Js.obj [("_", Js.array [JStr "build"; JStr "src"])])
        (Ok JUndefined);
      FlagHandlerCalled 2 (Js.obj [("_", Js.array [JStr "build"; JStr "src"])])
        (Ok JFalse)],
     []).
Proof. vm_compute. reflexivity. Qed.


(** ** Initialization *)
Section InitFacts.

Variable argsert : string -> list jsval -> bool.
Variable plugin_code : nat -> jsval -> jsval -> list PluginOp.

Lemma keeps_flag_returns {A} (a : A) : keeps_flag (returns a).
Proof. by intros s r s' [= _ <-]. Qed.

Lemma keeps_flag_throws {A} e : keeps_flag (@throws A e).
Proof. by intros s r s' [= _ <-]. Qed.

Lemma keeps_flag_lift {A} (x : result A) : keeps_flag (lift x).
Proof. by intros s r s' [= _ <-]. Qed.

Lemma keeps_flag_update f :
  (forall s, (f s).(initialized) = s.(initialized)) -> keeps_flag (update f).
Proof. intros Hf s r s' [= _ <-]. apply Hf. Qed.

Lemma keeps_flag_andThen {A B} (m : method A) (k : A -> method B) :
  keeps_flag m -> (forall a, keeps_flag (k a)) -> keeps_flag (andThen m k).
Proof.
  intros Hm Hk s r s'. unfold andThen.
  destruct (m s) as [[a|e] s1] eqn:E.
  - intros H. rewrite (Hk _ _ _ _ H). by apply (Hm _ _ _ E).
  - intros [= _ <-]. by apply (Hm _ _ _ E).
Qed.

Lemma keeps_flag_state {A} (m : Service -> method A) :
  (forall s0, keeps_flag (m s0)) -> keeps_flag (fun s => m s s).
Proof. intros H s r s'. apply H. Qed.

Lemma keeps_flag_resolvePlugin p : keeps_flag (_resolvePlugin p).
Proof.
  unfold _resolvePlugin.
  destruct (match JsOps.elems p with
            | Some [a; b] => (a, b)
            | _ => (p, JUndefined)
            end) as [q opts].
  assert (keeps_flag
            (if Js.typeof_object q
             then do id <~ lift (JsOps.prop q "id");
                  if Js.truthy id && Js.typeof_function (Js.get q "apply")
                  then returns (Plugin (InlinePlugin q))
                  else throws (SError ("Plugin is valid : " ++ show q))
             else throws (SError ("Plugin is valid : " ++ show q)))) as Hobj.
  { destruct (Js.typeof_object q); [|apply keeps_flag_throws].
    apply keeps_flag_andThen; [apply keeps_flag_lift|].
    intros id. destruct (_ && _);
      [apply keeps_flag_returns|apply keeps_flag_throws]. }
  destruct q as [[| | | |name]|]; try exact Hobj.
  intros s r s'. destruct (modules s !! name) as [m|]; [|by intros [= _ <-]].
  destruct (load_plugin name m) as [[esm m']|e]; by intros [= _ <-].
Qed.

Lemma keeps_flag_api_call op : keeps_flag (api_call argsert op).
Proof.
  destruct op as [args|args|args|fn|fn|e]; simpl.
  - unfold registerCommand. destruct (argsert _ _); [|apply keeps_flag_throws].
    apply keeps_flag_andThen; [apply keeps_flag_lift|].
    intros [cmd [[[d b] hd] mw]].
    apply keeps_flag_andThen; [apply keeps_flag_lift|].
    intros name. by apply keeps_flag_update.
  - unfold registerCommandFlag.
    destruct (argsert _ _); [|apply keeps_flag_throws].
    apply keeps_flag_andThen; [apply keeps_flag_lift|].
    intros name. by apply keeps_flag_update.
  - unfold addPlugin.
    apply keeps_flag_andThen; [apply keeps_flag_resolvePlugin|].
    intros plugin. by apply keeps_flag_update.
  - by apply keeps_flag_update.
  - by apply keeps_flag_update.
  - apply keeps_flag_throws.
Qed.

Lemma keeps_flag_api_calls ops : keeps_flag (api_calls argsert ops).
Proof.
  induction ops as [|op rest IH]; simpl; [apply keeps_flag_returns|].
  apply keeps_flag_andThen; [apply keeps_flag_api_call|]. by intros _.
Qed.

Lemma keeps_flag_initPlugin p : keeps_flag (initPlugin argsert plugin_code p).
Proof.
  intros s. unfold initPlugin.
  destruct (match JsOps.elems (entry p s) with
            | Some es => (arg 0 es, arg 1 es)
            | None => (entry p s, Js.obj [])
            end) as [q opts].
  revert s. change (keeps_flag
    (do apply <~ lift (JsOps.prop q "apply");
     do f <~ lift (JsOps.as_function apply);
     fun s => api_calls argsert (plugin_code f s.(projectOptions) opts) s)).
  apply keeps_flag_andThen; [apply keeps_flag_lift|]. intros a.
  apply keeps_flag_andThen; [apply keeps_flag_lift|]. intros f.
  apply (keeps_flag_state
           (fun s0 => api_calls argsert (plugin_code f s0.(projectOptions) opts))).
  intros s0. apply keeps_flag_api_calls.
Qed.

Lemma keeps_flag_init_each ps : keeps_flag (init_each argsert plugin_code ps).
Proof.
  induction ps as [|p rest IH]; simpl; [apply keeps_flag_returns|].
  apply keeps_flag_andThen; [apply keeps_flag_initPlugin|]. by intros _.
Qed.

(** After [init] has returned, the service is initialized. *)
Lemma init_initialized mode s r s1 :
  init argsert plugin_code mode s = (r, s1) -> s1.(initialized) = true.
Proof.
  unfold init. destruct (initialized s) eqn:Hs; [by intros [= _ <-]|].
  unfold andThen at 1. simpl.
  set (s0 := set_mode mode (set_initialized true s)).
  intros H.
  assert (keeps_flag
    (do u <~ (fun s => init_each argsert plugin_code (plugins s) s);
     do chain <~ (fun s => lift (JsOps.prop (projectOptions s) "chainWebpack") s);
     do u <~ (if Js.truthy chain then chainWebpack chain else returns tt);
     do raw <~ (fun s => lift (JsOps.prop (projectOptions s) "configureWebpack") s);
     if Js.truthy raw then configWebpack raw else returns tt)) as Hk.
  { apply keeps_flag_andThen.
    { apply (keeps_flag_state (fun s0 => init_each argsert plugin_code (plugins s0))).
      intros ?. apply keeps_flag_init_each. }
    intros _. apply keeps_flag_andThen.
    { apply (keeps_flag_state (fun s0 => lift (JsOps.prop (projectOptions s0) _))).
      intros ?. apply keeps_flag_lift. }
    intros chain. apply keeps_flag_andThen.
    { destruct (Js.truthy chain);
        [by apply keeps_flag_update|apply keeps_flag_returns]. }
    intros _. apply keeps_flag_andThen.
    { apply (keeps_flag_state (fun s0 => lift (JsOps.prop (projectOptions s0) _))).
      intros ?. apply keeps_flag_lift. }
    intros raw. destruct (Js.truthy raw);
      [by apply keeps_flag_update|apply keeps_flag_returns]. }
  by rewrite (Hk _ _ _ H).
Qed.

(** C2.  After a call of [init] that returned, a second call, with any
    mode, returns at once and leaves the service as the first call left
    it: the registered commands, the flags and flag handlers, the plugins,
    the two lists of webpack callbacks and the mode. *)
Theorem init_idempotent (mode mode' : jsval) (s s1 : Service) :
  init argsert plugin_code mode s = (Ok tt, s1) ->
  init argsert plugin_code mode' s1 = (Ok tt, s1).
Proof.
  intros H. apply init_initialized in H. unfold init. by rewrite H.
Qed.

End InitFacts.

(** ** Resolving plugins *)
Module PluginFacts.

Lemma assign_idem k v ps : Js.assign k v (Js.assign k v ps) = Js.assign k v ps.
Proof.
  induction ps as [|[k' v'] r IH]; simpl.
  - by rewrite String.eqb_refl.
  - destruct (String.eqb k k') eqn:E; simpl; rewrite ?String.eqb_refl, ?E;
      [done|by rewrite IH].
Qed.

Lemma set_idem o k v : Js.set (Js.set o k v) k v = Js.set o k v.
Proof. destruct o; [done|]. simpl. by rewrite assign_idem. Qed.

Lemma typeof_object_set o k v :
  Js.typeof_object (Js.set o k v) = Js.typeof_object o.
Proof. by destruct o as [|[]]. Qed.

Lemma truthy_object o : Js.is_object o = true -> Js.truthy o = true.
Proof. by destruct o. Qed.

Lemma with_id_idem p plugin :
  Js.is_object plugin = true -> with_id p (with_id p plugin) = with_id p plugin.
Proof.
  intros Ho. unfold with_id at 2 3.
  destruct (Js.truthy (Js.get plugin "id")) eqn:E.
  - unfold with_id. by rewrite E.
  - unfold with_id. rewrite JsFacts.get_set_eq by done.
    destruct (Js.truthy (JStr p)); [done|apply set_idem].
Qed.

Lemma with_id_get p plugin k :
  k <> "id" -> Js.get (with_id p plugin) k = Js.get plugin k.
Proof.
  intros Hk. unfold with_id. destruct (Js.truthy _); [done|].
  by apply JsFacts.get_set_ne.
Qed.

Lemma with_id_typeof p plugin :
  Js.typeof_object (with_id p plugin) = Js.typeof_object plugin.
Proof. unfold with_id. destruct (Js.truthy _); [done|apply typeof_object_set]. Qed.

Lemma with_id_is_object p plugin :
  Js.is_object (with_id p plugin) = Js.is_object plugin.
Proof.
  unfold with_id. destruct (Js.truthy _); [done|apply JsFacts.set_is_object].
Qed.

(** [load_plugin] in terms of the value it tests. *)
Lemma load_plugin_ok name m :
  plugin_shaped (effective_plugin m) = true ->
  load_plugin name m
  = Ok (Js.truthy (Js.get m "default"),
        if Js.truthy (Js.get m "default")
        then Js.set m "default" (with_id name (Js.get m "default"))
        else with_id name m).
Proof.
  unfold effective_plugin, load_plugin, JsOps.prop.
  destruct m as [[]|kd ps]; try done.
  cbn [mbind result_bind].
  set (d := Js.get (JObj kd ps) "default").
  destruct (Js.truthy d) eqn:Ed.
  - destruct d as [[]|[]]; try done; simpl; by intros ->.
  - destruct kd; try done; simpl; by intros ->.
Qed.

Lemma load_plugin_throw name m :
  plugin_shaped (effective_plugin m) = false ->
  exists e, load_plugin name m = Throw e.
Proof.
  unfold effective_plugin, load_plugin, JsOps.prop.
  destruct m as [[]|kd ps]; try (by eexists).
  cbn [mbind result_bind].
  set (d := Js.get (JObj kd ps) "default").
  destruct (Js.truthy d) eqn:Ed.
  - destruct d as [[]|[]]; try done; simpl; try (by eexists);
      intros ->; by eexists.
  - destruct kd; try done; simpl; try (by eexists); intros ->; by eexists.
Qed.

Lemma load_plugin_shaped name m r :
  load_plugin name m = Ok r -> plugin_shaped (effective_plugin m) = true.
Proof.
  intros H. destruct (plugin_shaped (effective_plugin m)) eqn:E; [done|].
  destruct (load_plugin_throw name m E) as [e He]. congruence.
Qed.

Lemma load_plugin_settles name m esm m' :
  load_plugin name m = Ok (esm, m') -> load_plugin name m' = Ok (esm, m').
Proof.
  intros H. pose proof (load_plugin_shaped _ _ _ H) as Hs.
  rewrite (load_plugin_ok _ _ Hs) in H. injection H as <- <-.
  unfold effective_plugin in Hs.
  destruct (Js.truthy (Js.get m "default")) eqn:Ed.
  - assert (Js.is_object m = true) as Hm.
    { destruct m; [by destruct p|done]. }
    assert (Js.is_object (Js.get m "default") = true) as Hd.
    { destruct (Js.get m "default") as [|[]]; done. }
    assert (plugin_shaped
              (effective_plugin
                 (Js.set m "default" (with_id name (Js.get m "default"))))
            = true) as Hs'.
    { unfold effective_plugin. rewrite JsFacts.get_set_eq by done.
      rewrite truthy_object by (by rewrite with_id_is_object).
      unfold plugin_shaped in *.
      rewrite with_id_get by done.
      destruct (Js.get m "default") as [|kd ps] eqn:E; [done|].
      unfold with_id. destruct (Js.truthy (Js.get (JObj kd ps) "id")); [done|].
      simpl. by destruct kd. }
    rewrite (load_plugin_ok _ _ Hs'). rewrite JsFacts.get_set_eq by done.
    rewrite truthy_object by (by rewrite with_id_is_object).
    by rewrite with_id_idem, set_idem.
  - assert (Js.is_object m = true) as Hm.
    { destruct m as [|[]]; done. }
    assert (Js.get (with_id name m) "default" = Js.get m "default") as Hdef
      by (by apply with_id_get).
    assert (plugin_shaped (effective_plugin (with_id name m)) = true) as Hs'.
    { unfold effective_plugin. rewrite Hdef, Ed.
      unfold plugin_shaped in *. rewrite with_id_get by done.
      destruct m as [|kd ps]; [done|].
      unfold with_id. destruct (Js.truthy (Js.get (JObj kd ps) "id")); [done|].
      simpl. by destruct kd. }
    rewrite (load_plugin_ok _ _ Hs'), Hdef, Ed. by rewrite with_id_idem.
Qed.

Lemma set_modules_same s : set_modules s.(modules) s = s.
Proof. by destruct s. Qed.

Lemma modules_set_modules m s : (set_modules m s).(modules) = m.
Proof. done. Qed.

(** What a call of [_resolvePlugin] is, for a named plugin and for the
    rest. *)
Lemma resolvePlugin_cases p s r s' :
  _resolvePlugin p s = (r, s') ->
  (s' = s /\ (forall d, r = Ok d -> forall s2, _resolvePlugin p s2 = (Ok d, s2))
          /\ (forall d, r = Ok d -> exists q, plugin_of d = InlinePlugin q
                                              /\ q = ref_target p
                                              /\ Js.is_object q = true))
  \/ exists name,
       ref_target p = JStr name
       /\ ((r = Throw (SError ("Require plugin is valid : " ++ name)) /\ s' = s
            /\ match s.(modules) !! name with
               | Some m => plugin_shaped (effective_plugin m) = false
               | None => True
               end)
           \/ exists m esm m' d,
                s.(modules) !! name = Some m
                /\ load_plugin name m = Ok (esm, m')
                /\ r = Ok d /\ plugin_of d = ModuleExport name esm
                /\ s' = set_modules (<[name := m']> s.(modules)) s
                /\ forall s2, s2.(modules) !! name = Some m' ->
                              _resolvePlugin p s2 = (Ok d, s2)).
Proof.
  unfold _resolvePlugin, ref_target.
  set (pq := match JsOps.elems p with
             | Some [a; b] => (a, b)
             | _ => (p, JUndefined)
             end).
  assert (match JsOps.elems p with
          | Some [a; _] => a
          | _ => p
          end = pq.1) as ->.
  { subst pq. destruct (JsOps.elems p) as [[|a [|b [|]]]|]; done. }
  destruct pq as [q opts]. simpl.
  assert (forall A (x y : A) (b : bool), (if b then x else y) = x \/
                                         (if b then x else y) = y) as Hif.
  { intros A x y []; auto. }
  assert ((if Js.typeof_object q
           then do id <~ lift (JsOps.prop q "id");
                if Js.truthy id && Js.typeof_function (Js.get q "apply")
                then returns (Plugin (InlinePlugin q))
                else throws (SError ("Plugin is valid : " ++ show q))
           else throws (SError ("Plugin is valid : " ++ show q))) s = (r, s') ->
          (forall name, q <> JStr name) ->
          s' = s
          /\ (forall d, r = Ok d -> forall s2,
                (if Js.typeof_object q
                 then do id <~ lift (JsOps.prop q "id");
                      if Js.truthy id && Js.typeof_function (Js.get q "apply")
                      then returns (Plugin (InlinePlugin q))
                      else throws (SError ("Plugin is valid : " ++ show q))
                 else throws (SError ("Plugin is valid : " ++ show q))) s2
                = (Ok d, s2))
          /\ (forall d, r = Ok d -> exists q', plugin_of d = InlinePlugin q'
                                   /\ q' = q /\ Js.is_object q' = true)) as Hobj.
  { intros H Hq. destruct (Js.typeof_object q) eqn:Et.
    - unfold andThen, lift in *. destruct (JsOps.prop q "id") as [id|e] eqn:Eid.
      + destruct (Js.truthy id && _) eqn:Ec.
        * injection H as <- <-. split; [done|]. split.
          { intros d [= <-] s2. done. }
          intros d [= <-]. exists q. split; [done|]. split; [done|].
          destruct q as [[]|]; done.
        * injection H as <- <-. split; [done|]. by split.
      + injection H as <- <-. split; [done|]. by split.
    - injection H as <- <-. split; [done|]. by split. }
  destruct q as [[| | | |name]|kd ps]; try (intros H; left; by apply Hobj).
  intros H. right. exists name. split; [done|].
  destruct (modules s !! name) as [m|] eqn:Em.
  - destruct (load_plugin name m) as [[esm m']|e] eqn:El.
    + right. injection H as <- <-. eexists m, esm, m', _.
      do 3 (split; [done|]). split; [by destruct (Js.truthy opts)|].
      split; [done|]. intros s2 Hs2. rewrite Hs2.
      rewrite (load_plugin_settles _ _ _ _ El).
      by rewrite insert_id, set_modules_same.
    + left. injection H as <- <-. do 2 (split; [done|]).
      destruct (plugin_shaped (effective_plugin m)) eqn:Es; [|done].
      rewrite (load_plugin_ok _ _ Es) in El. done.
  - left. by injection H as <- <-.
Qed.

(** Modules that are settled stay as they are, and no module goes away. *)
Lemma resolvePlugin_settled p s r s' n m :
  _resolvePlugin p s = (r, s') -> settled_in s n m -> settled_in s' n m.
Proof.
  intros H [Hn [esm Hl]].
  destruct (resolvePlugin_cases _ _ _ _ H) as
    [(-> & _)|(name & _ & [(_ & -> & _)|(m0 & esm0 & m' & d & Hm & Hl0 & _ & _ & -> & _)])];
    try (by split; [|exists esm]).
  split; [|by exists esm]. rewrite modules_set_modules.
  destruct (decide (name = n)) as [->|Hne].
  - rewrite Hn in Hm. injection Hm as <-. rewrite Hl in Hl0.
    injection Hl0 as _ <-. by rewrite lookup_insert_eq.
  - by rewrite lookup_insert_ne.
Qed.

Lemma resolvePlugin_keeps_modules p s r s' n :
  _resolvePlugin p s = (r, s') ->
  is_Some (s.(modules) !! n) -> is_Some (s'.(modules) !! n).
Proof.
  intros H Hn.
  destruct (resolvePlugin_cases _ _ _ _ H) as
    [(-> & _)|(name & _ & [(_ & -> & _)|(m0 & esm0 & m' & d & Hm & Hl0 & _ & _ & -> & _)])];
    try done.
  rewrite modules_set_modules. destruct (decide (name = n)) as [->|Hne].
  - by rewrite lookup_insert_eq.
  - by rewrite lookup_insert_ne.
Qed.

Lemma resolve_each_settled ps : forall s r s' n m,
  resolve_each ps s = (r, s') -> settled_in s n m -> settled_in s' n m.
Proof.
  induction ps as [|p rest IH]; intros s r s' n m; simpl.
  { by intros [= _ <-]. }
  unfold andThen. destruct (_resolvePlugin p s) as [[d|e] sa] eqn:E.
  - destruct (resolve_each rest sa) as [[ds|e] sb] eqn:E2.
    + intros [= _ <-] Hs. eapply IH; [exact E2|].
      eapply resolvePlugin_settled; [exact E|done].
    + intros [= _ <-] Hs. eapply IH; [exact E2|].
      eapply resolvePlugin_settled; [exact E|done].
  - intros [= _ <-] Hs. eapply resolvePlugin_settled; [exact E|done].
Qed.

Lemma resolve_each_keeps_modules ps : forall s r s' n,
  resolve_each ps s = (r, s') ->
  is_Some (s.(modules) !! n) -> is_Some (s'.(modules) !! n).
Proof.
  induction ps as [|p rest IH]; intros s r s' n; simpl.
  { by intros [= _ <-]. }
  unfold andThen. destruct (_resolvePlugin p s) as [[d|e] sa] eqn:E.
  - destruct (resolve_each rest sa) as [[ds|e] sb] eqn:E2.
    + intros [= _ <-] Hs. eapply IH; [exact E2|].
      eapply resolvePlugin_keeps_modules; [exact E|done].
    + intros [= _ <-] Hs. eapply IH; [exact E2|].
      eapply resolvePlugin_keeps_modules; [exact E|done].
  - intros [= _ <-] Hs. eapply resolvePlugin_keeps_modules; [exact E|done].
Qed.

(** The descriptors come in the order of the references, and resolving
    the same references again, in a registry that has the settled modules,
    gives the same descriptors and changes nothing. *)
Lemma resolve_each_stable ps : forall s ds s1,
  resolve_each ps s = (Ok ds, s1) ->
  Forall2 resolves ps ds
  /\ forall s2,
       (forall n m, settled_in s1 n m -> s2.(modules) !! n = Some m) ->
       resolve_each ps s2 = (Ok ds, s2).
Proof.
  induction ps as [|p rest IH]; intros s ds s1; simpl.
  { intros [= <- <-]. split; [constructor|done]. }
  unfold andThen. destruct (_resolvePlugin p s) as [[d|e] sa] eqn:E; [|done].
  destruct (resolve_each rest sa) as [[ds'|e] sb] eqn:E2; [|done].
  intros [= <- <-]. destruct (IH _ _ _ E2) as [Hord Hagain].
  destruct (resolvePlugin_cases _ _ _ _ E) as
    [(-> & Hsame & Hin)|(name & Hname & [(? & _)|(m0 & esm0 & m' & d0 & Hm & Hl0 & [= <-] & Hd & -> & Hsame)])];
    [| done |].
  - split.
    + constructor; [|done]. destruct (Hin d eq_refl) as (q & Hq & -> & Ho).
      unfold resolves. rewrite Hq. destruct (ref_target p) as [[]|]; done.
    + intros s2 Hs2. rewrite (Hsame d eq_refl s2), (Hagain s2 Hs2). done.
  - split.
    + constructor; [|done]. unfold resolves. by rewrite Hname, Hd.
    + intros s2 Hs2. rewrite (Hsame s2), (Hagain s2 Hs2); [done|].
      apply Hs2. eapply resolve_each_settled; [exact E2|].
      split; [by rewrite modules_set_modules, lookup_insert_eq|].
      exists esm0. by eapply load_plugin_settles.
Qed.

Lemma require_each_ok ids : forall s bs s',
  require_each ids s = (Ok bs, s') ->
  s' = s
  /\ bs = (fun id => Plugin (ModuleExport (builtin_module id) false)) <$> ids
  /\ Forall (fun id => is_Some (s.(modules) !! builtin_module id)) ids.
Proof.
  induction ids as [|id rest IH]; intros s bs s'; simpl.
  { by intros [= <- <-]. }
  unfold andThen, require.
  destruct (modules s !! builtin_module id) eqn:Em; [|done].
  destruct (require_each rest s) as [[ms|e] sb] eqn:E; [|done].
  intros [= <- <-]. destruct (IH _ _ _ E) as (-> & -> & Hall).
  split; [done|]. split; [done|]. constructor; [by rewrite Em|done].
Qed.

Lemma require_each_again ids : forall s,
  Forall (fun id => is_Some (s.(modules) !! builtin_module id)) ids ->
  require_each ids s
  = (Ok ((fun id => Plugin (ModuleExport (builtin_module id) false)) <$> ids), s).
Proof.
  induction ids as [|id rest IH]; intros s Hall; simpl; [done|].
  inversion Hall as [|? ? [m Hm] Hrest]; subst.
  unfold andThen, require. rewrite Hm, (IH _ Hrest). done.
Qed.

End PluginFacts.

(** C4.  The list that [resolvePlugins] returns is the built-in plugins,
    when they are enabled, in the order base, css, app, optimization, babel,
    followed by one descriptor for each reference, in the order of the
    references; and a second call with the same arguments returns the same
    list. *)
Theorem resolvePlugins_order (plugins : jsval) (useBuiltInPlugin : bool)
    (s s1 : Service) (out : list descriptor) :
  resolvePlugins plugins useBuiltInPlugin s = (Ok out, s1) ->
  (exists resolved,
     out = ((if useBuiltInPlugin then builtin_descriptors else []) ++ resolved)%list
     /\ Forall2 resolves (default [] (JsOps.elems plugins)) resolved)
  /\ resolvePlugins plugins useBuiltInPlugin s1 = (Ok out, s1).
Proof.
  unfold resolvePlugins, andThen.
  set (refs := default [] (JsOps.elems plugins)).
  destruct ((if useBuiltInPlugin then require_each BUILDIN_PLUGINS
             else returns []) s) as [[bs|e] s0] eqn:Eb; [|done].
  assert (s0 = s
          /\ bs = (if useBuiltInPlugin then builtin_descriptors else [])
          /\ forall s2, (forall n, is_Some (s.(modules) !! n) ->
                                   is_Some (s2.(modules) !! n)) ->
               (if useBuiltInPlugin then require_each BUILDIN_PLUGINS
                else returns []) s2 = (Ok bs, s2)) as (-> & Hbs & Hagain).
  { destruct useBuiltInPlugin.
    - destruct (PluginFacts.require_each_ok _ _ _ _ Eb) as (-> & -> & Hall).
      split; [done|]. split; [done|]. intros s2 Hs2.
      apply PluginFacts.require_each_again.
      eapply Forall_impl; [exact Hall|]. intros id. apply Hs2.
    - injection Eb as <- <-. done. }
  destruct refs as [|p rest] eqn:Erefs.
  - intros [= <- <-]. split.
    + exists []. rewrite app_nil_r. split; [done|constructor].
    + rewrite (Hagain s); [done|auto].
  - destruct (resolve_each (p :: rest) s) as [[ds|e] sb] eqn:Er; [|done].
    intros [= <- <-].
    destruct (PluginFacts.resolve_each_stable _ _ _ _ Er) as [Hord Hstable].
    split.
    + exists ds. by rewrite Hbs.
    + rewrite (Hagain sb).
      * rewrite (Hstable sb); [done|]. by intros n m [Hn _].
      * intros n. by apply (PluginFacts.resolve_each_keeps_modules _ _ _ _ _ Er).
Qed.

Lemma resolvePlugins_order_witness :
  let r := resolvePlugins (Js.array [JStr "san-plugin"]) true
             SamplePlugins.with_builtins in
  r.1 = Ok (builtin_descriptors ++ [Plugin (ModuleExport "san-plugin" true)])%list
  /\ resolvePlugins (Js.array [JStr "san-plugin"]) true r.2
     = (Ok (builtin_descriptors ++ [Plugin (ModuleExport "san-plugin" true)])%list,
        r.2).
Proof.
  split; [by vm_compute|].
  apply (resolvePlugins_order (Js.array [JStr "san-plugin"]) true
           SamplePlugins.with_builtins).
  by vm_compute.
Defined.

Example resolvePlugins_sets_id :
  (resolvePlugins (Js.array [JStr "san-plugin"]) false SamplePlugins.service).2
    .(modules) !! "san-plugin"
  = Some (Js.obj [("default",
                   Js.obj [("apply", JObj (KFunction 7) []);
                           ("id", JStr "san-plugin")])]).
Proof. by vm_compute. Qed.

(** C7, as the code has it.  For a plugin named by a string, alone or with
    options, whose module cannot be loaded, or whose plugin value (the
    [default] of the module when it has one, the module otherwise) is not an
    object with a callable [apply], [_resolvePlugin] throws the error that
    names the reference and changes nothing; [addPlugin] throws it and
    leaves the plugin list as it is; and [resolvePlugins] over a list that
    holds the reference throws and returns no list. *)
Theorem resolvePlugin_invalid (name : string) (options : option jsval)
    (s : Service) :
  match s.(modules) !! name with
  | Some m => plugin_shaped (effective_plugin m) = false
  | None => True
  end ->
  let ref :=
    match options with
    | Some o => Js.array [JStr name; o]
    | None => JStr name
    end in
  let e := SError ("Require plugin is valid : " ++ name) in
  _resolvePlugin ref s = (Throw e, s)
  /\ addPlugin (JStr name :: option_list options) s = (Throw e, s)
  /\ forall before after useBuiltInPlugin,
       exists e' s',
         resolvePlugins (Js.array (before ++ ref :: after)) useBuiltInPlugin s
         = (Throw e', s').
Proof.
  intros Hbad ref e.
  assert (forall opts s0,
            s0.(modules) !! name = s.(modules) !! name ->
            _resolvePlugin (Js.array [JStr name; opts]) s0 = (Throw e, s0)
            /\ _resolvePlugin (JStr name) s0 = (Throw e, s0)) as Hthrow.
  { intros opts s0 Hs0. unfold _resolvePlugin. simpl.
    rewrite Hs0. destruct (modules s !! name) as [m|]; [|done].
    destruct (PluginFacts.load_plugin_throw name m Hbad) as [e0 ->]. done. }
  assert (forall s0, s0.(modules) !! name = s.(modules) !! name ->
                     _resolvePlugin ref s0 = (Throw e, s0)) as Href.
  { intros s0 Hs0. subst ref. destruct options as [o|].
    - apply (proj1 (Hthrow o s0 Hs0)).
    - apply (proj2 (Hthrow JUndefined s0 Hs0)). }
  split; [by apply Href|]. split.
  { unfold addPlugin, andThen.
    destruct options as [o|]; simpl.
    - assert (match o with JUndefined => Js.obj [] | _ => o end
              = match o with JUndefined => Js.obj [] | _ => o end) as _ by done.
      by rewrite (proj1 (Hthrow _ s eq_refl)).
    - by rewrite (proj1 (Hthrow _ s eq_refl)). }
  intros before after b. unfold resolvePlugins, andThen.
  destruct ((if b then require_each BUILDIN_PLUGINS else returns []) s)
    as [[bs|e0] s0] eqn:Eb; [|by eexists _, _].
  assert (s0 = s) as ->.
  { destruct b; [|by injection Eb].
    by destruct (PluginFacts.require_each_ok _ _ _ _ Eb). }
  assert (JsOps.elems (Js.array (before ++ ref :: after))
          = Some (before ++ ref :: after)%list) as ->.
  { unfold Js.array, JsOps.elems. f_equal.
    generalize 0. induction (before ++ ref :: after)%list as [|v l IH];
      intros n; simpl; [done|]. by rewrite IH. }
  simpl default.
  assert (exists e' s', resolve_each (before ++ ref :: after) s = (Throw e', s'))
    as (e' & s' & Hr).
  { assert (forall s0, s0.(modules) !! name = s.(modules) !! name ->
              exists e' s', resolve_each (before ++ ref :: after) s0
                            = (Throw e', s')) as Hgen; [|by apply Hgen].
    induction before as [|p rest IH]; intros s0 Hs0; simpl; unfold andThen.
    - rewrite (Href s0 Hs0). by eexists _, _.
    - destruct (_resolvePlugin p s0) as [[d|e1] sa] eqn:E; [|by eexists _, _].
      destruct (IH sa) as (e' & s' & ->); [|by eexists _, _].
      rewrite <- Hs0.
      destruct (PluginFacts.resolvePlugin_cases _ _ _ _ E) as
        [(-> & _)|(n & _ & [(? & _)|(m0 & esm0 & m' & d0 & Hm & Hl0 & _ & _ & -> & _)])];
        [done|done|].
      rewrite PluginFacts.modules_set_modules.
      destruct (decide (n = name)) as [->|Hne]; [|by rewrite lookup_insert_ne].
      exfalso. rewrite <- Hs0, Hm in Hbad.
      apply PluginFacts.load_plugin_shaped in Hl0. congruence. }
  destruct (before ++ ref :: after)%list as [|p l] eqn:El.
  { by destruct before. }
  change (default [] (Some (p :: l))) with (p :: l).
  cbv beta iota. rewrite Hr. by eexists _, _.
Qed.

Lemma resolvePlugin_invalid_witness :
  _resolvePlugin (JStr "broken") SamplePlugins.service
  = (Throw (SError "Require plugin is valid : broken"), SamplePlugins.service)
  /\ addPlugin [JStr "missing"; Js.obj []] SamplePlugins.service
     = (Throw (SError "Require plugin is valid : missing"), SamplePlugins.service).
Proof.
  split.
  - apply (resolvePlugin_invalid "broken" None SamplePlugins.service).
    by vm_compute.
  - apply (resolvePlugin_invalid "missing" (Some (Js.obj []))
             SamplePlugins.service).
    by vm_compute.
Defined.

(** C7 as stated does not hold: a module that has no [apply] of its own but
    exports the plugin as its [default] is resolved. *)
Lemma module_without_apply_counterexample :
  ~ (forall (name : string) (s : Service) (m : jsval),
       s.(modules) !! name = Some m ->
       Js.typeof_function (Js.get m "apply") = false ->
       exists e, (_resolvePlugin (JStr name) s).1 = Throw e).
Proof.
  intros H.
  destruct (H "san-plugin" SamplePlugins.service SamplePlugins.esm_module)
    as [e He]; [by vm_compute|by vm_compute|].
  vm_compute in He. discriminate He.
Qed.

(** ** Rule names *)
Module RuleFacts.

Lemma clone_nothing_to from to :
  Js.truthy to = false -> cloneRuleNames_from from to = Ok to.
Proof. intros H. destruct from as [p|kd rs]; simpl; by rewrite H. Qed.

Lemma clone_nothing_from from to :
  Js.truthy from = false -> cloneRuleNames_from from to = Ok to.
Proof.
  intros H. destruct from as [p|kd rs]; [|done]. simpl in *.
  rewrite H. by rewrite orb_true_r.
Qed.

Lemma lookup_elem k r (ps : props) : Js.lookup k ps = Some r -> (k, r) ∈ ps.
Proof.
  induction ps as [|[k' v] rest IH]; simpl; [done|].
  destruct (String.eqb_spec k k') as [->|_].
  - intros [= ->]. apply list_elem_of_here.
  - intros H. apply list_elem_of_further. by apply IH.
Qed.

Lemma elem_lookup k r (ps : props) :
  NoDup ps.*1 -> (k, r) ∈ ps -> Js.lookup k ps = Some r.
Proof.
  induction ps as [|[k' v] rest IH]; simpl.
  { by intros _ H%elem_of_nil. }
  intros [Hk Hnd]%NoDup_cons [Heq|Hin]%elem_of_cons.
  - injection Heq as <- <-. by rewrite String.eqb_refl.
  - destruct (String.eqb_spec k k') as [->|_]; [|by apply IH].
    exfalso. apply Hk. by apply (list_elem_of_fmap_2 fst _ (k', r)).
Qed.

Lemma get_prim_oneOf p : Js.get (JPrim p) "oneOf" = JUndefined.
Proof. by apply JsFacts.get_prim_word. Qed.

(** The search for [r.oneOf] inside the loop is the recursive call on
    [r.oneOf]. *)
Lemma find_oneOf r o :
  match r with
  | JObj _ rps =>
      (fix find (rps : props) : jsval -> result jsval :=
         match rps with
         | [] => fun o => Ok o
         | (k', v) :: rps' =>
             if String.eqb "oneOf" k' then cloneRuleNames_from v else find rps'
         end) rps
  | JPrim _ => fun o => Ok o
  end o
  = cloneRuleNames_from (Js.get r "oneOf") o.
Proof.
  destruct r as [p|kd rps].
  { rewrite get_prim_oneOf. by rewrite clone_nothing_from. }
  unfold Js.get. induction rps as [|[k' v] rest IH].
  { by rewrite clone_nothing_from. }
  cbn [Js.lookup]. destruct (String.eqb "oneOf" k'); [done|apply IH].
Qed.

Lemma for_each_rule_ext rec1 rec2 k r to :
  (forall o, rec1 o = rec2 o) ->
  RuleNames.for_each_rule rec1 k r to = RuleNames.for_each_rule rec2 k r to.
Proof.
  intros H. unfold RuleNames.for_each_rule.
  destruct (Js.truthy (Js.get to k)); [|done].
  destruct (RuleNames.define_on (Js.get to k) r) as [t1|e]; [|done].
  simpl. by rewrite H.
Qed.

Lemma clone_array rs to :
  Js.truthy to = true ->
  cloneRuleNames_from (JObj KArray rs) to = each_rule rs to.
Proof.
  intros H. cbn [cloneRuleNames_from]. rewrite H. cbn [negb].
  clear H. revert to. induction rs as [|[k r] rest IH]; intros to; [done|].
  cbn [each_rule].
  rewrite (for_each_rule_ext _ (cloneRuleNames_from (Js.get r "oneOf")))
    by apply find_oneOf.
  destruct (RuleNames.for_each_rule _ k r to) as [to1|e]; [|done].
  simpl. apply IH.
Qed.

Lemma restores_nothing from : Js.truthy from = false -> restores from.
Proof.
  intros H to _ _. exists to. split; [by apply clone_nothing_from|].
  split; [apply restored_nothing|apply annotated_nothing]; by right.
Qed.

Lemma rules_elem to k :
  Rules to -> Js.truthy (Js.get to k) = true ->
  Js.is_object to = true
  /\ Js.is_object (Js.get to k) = true
  /\ Rules (Js.get (Js.get to k) "oneOf").
Proof.
  intros Hr Ht. inversion Hr as [v Hv|ps Hnd Hall]; subst.
  - by rewrite JsFacts.get_falsy in Ht.
  - split; [done|]. simpl in *.
    destruct (Js.lookup k ps) as [t|] eqn:E; [|done].
    apply (Hall k t). by apply lookup_elem.
Qed.

(** The loop over the rules of [from]: what it leaves at every index of
    [to]. *)
Lemma each_rule_spec rs :
  NoDup rs.*1 ->
  (forall k r, (k, r) ∈ rs ->
     Js.is_object r = true /\ Rules (Js.get r "oneOf")
     /\ restores (Js.get r "oneOf")) ->
  forall to,
    (forall k r, (k, r) ∈ rs -> Js.truthy (Js.get to k) = true ->
       Js.is_object (Js.get to k) = true
       /\ Rules (Js.get (Js.get to k) "oneOf")) ->
    exists to',
      each_rule rs to = Ok to'
      /\ (forall k, k ∉ rs.*1 -> Js.get to' k = Js.get to k)
      /\ (forall k, Js.truthy (Js.get to' k) = Js.truthy (Js.get to k))
      /\ (forall k r, (k, r) ∈ rs -> Js.truthy (Js.get to k) = true ->
            Js.get (Js.get to' k) "__ruleNames" = Js.get r "__ruleNames"
            /\ Restored (Js.get (Js.get to' k) "oneOf") (Js.get r "oneOf")
            /\ (forall k', k' <> "__ruleNames" -> k' <> "oneOf" ->
                  Js.get (Js.get to' k) k' = Js.get (Js.get to k) k')
            /\ Annotated (Js.get r "oneOf") (Js.get (Js.get to k) "oneOf")
                 (Js.get (Js.get to' k) "oneOf"))
      /\ (forall k, Js.truthy (Js.get to k) = false ->
            Js.get to' k = Js.get to k)
      /\ Js.truthy to' = Js.truthy to.
Proof.
  induction rs as [|[k r] rest IH]; intros Hnd Hrs to Hto.
  { exists to. split; [done|]. split; [done|]. split; [done|].
    split; [|done]. by intros k r Hin%elem_of_nil. }
  simpl in Hnd. apply NoDup_cons in Hnd as [Hk Hnd].
  assert (forall k' r', (k', r') ∈ rest -> k' <> k) as Hother.
  { intros k' r' Hin ->. apply Hk.
    by apply (list_elem_of_fmap_2 fst _ (k, r')). }
  specialize (IH Hnd (fun k' r' Hin => Hrs k' r' (list_elem_of_further _ _ _ Hin))).
  cbn [each_rule]. unfold RuleNames.for_each_rule.
  destruct (Js.truthy (Js.get to k)) eqn:Et.
  - (* the rule of [to] at this index gets the annotation *)
    destruct (Hto k r (list_elem_of_here _ _) Et) as [Hobj Hone].
    destruct (Hrs k r (list_elem_of_here _ _)) as (Hr & Hrone & Hrec).
    assert (Js.is_object to = true) as Htoobj.
    { by apply (JsFacts.get_object to k). }
    destruct (Js.get to k) as [|kd ps] eqn:Eget; [done|].
    assert (RuleNames.define_on (JObj kd ps) r
            = Ok (JObj kd (Js.assign "__ruleNames" (Js.get r "__ruleNames") ps)))
      as ->.
    { destruct r as [|]; [done|]. done. }
    set (t1 := JObj kd (Js.assign "__ruleNames" (Js.get r "__ruleNames") ps)).
    cbn [mbind result_bind].
    assert (forall k', k' <> "__ruleNames" ->
              Js.get t1 k' = Js.get (JObj kd ps) k') as Ht1.
    { intros k' Hk'. subst t1. simpl. by rewrite JsFacts.lookup_assign_ne. }
    rewrite (Ht1 "oneOf") by done.
    destruct (Hrec _ Hone Hrone) as (o' & -> & Hrest & Hann1).
    cbn [mbind result_bind].
    set (t1' := if Js.truthy (Js.get (JObj kd ps) "oneOf")
                then Js.set t1 "oneOf" o' else t1).
    assert (Js.is_object t1' = true) as Ht1'.
    { subst t1'. by destruct (Js.truthy (Js.get (JObj kd ps) "oneOf")). }
    assert (Js.get t1' "__ruleNames" = Js.get r "__ruleNames") as Hnames.
    { subst t1'. destruct (Js.truthy (Js.get (JObj kd ps) "oneOf")).
      - rewrite JsFacts.get_set_ne by done. subst t1. simpl.
        by rewrite JsFacts.lookup_assign_eq.
      - subst t1. simpl. by rewrite JsFacts.lookup_assign_eq. }
    assert (Restored (Js.get t1' "oneOf") (Js.get r "oneOf")) as Hres.
    { subst t1'. destruct (Js.truthy (Js.get (JObj kd ps) "oneOf")) eqn:Eo.
      - by rewrite JsFacts.get_set_eq.
      - apply restored_nothing. left. by rewrite Ht1. }
    assert (forall k', k' <> "__ruleNames" -> k' <> "oneOf" ->
              Js.get t1' k' = Js.get (JObj kd ps) k') as Hsame.
    { intros k' H1 H2. subst t1'.
      destruct (Js.truthy (Js.get (JObj kd ps) "oneOf")).
      - rewrite JsFacts.get_set_ne by done. by apply Ht1.
      - by apply Ht1. }
    assert (Annotated (Js.get r "oneOf") (Js.get (JObj kd ps) "oneOf")
              (Js.get t1' "oneOf")) as Hann1'.
    { subst t1'. destruct (Js.truthy (Js.get (JObj kd ps) "oneOf")) eqn:Eo.
      - by rewrite JsFacts.get_set_eq.
      - rewrite Ht1 by done. apply annotated_nothing. by left. }
    destruct (IH (Js.set to k t1'))
      as (to' & Hrun & Hkeep & Htruthy & Hann & Hfalsy & Hkind).
    { intros k' r' Hin Hk'. pose proof (Hother k' r' Hin) as Hne.
      rewrite JsFacts.get_set_ne in * by done.
      apply (Hto k' r'); [|done]. by apply list_elem_of_further. }
    exists to'. split; [exact Hrun|]. split; [|split; [|split; [|split]]].
    + intros k' Hk'. rewrite Hkeep.
      * apply JsFacts.get_set_ne. intros ->. apply Hk'. simpl. apply list_elem_of_here.
      * intros Hin. apply Hk'. simpl. by apply list_elem_of_further.
    + intros k'. rewrite Htruthy. destruct (decide (k' = k)) as [->|Hne].
      * rewrite JsFacts.get_set_eq, Eget by done.
        by destruct t1'.
      * by rewrite JsFacts.get_set_ne.
    + intros k' r' [Heq|Hin]%elem_of_cons Hk'.
      * injection Heq as -> ->. rewrite Hkeep by done.
        rewrite JsFacts.get_set_eq by done. rewrite Eget. done.
      * pose proof (Hother k' r' Hin) as Hne.
        rewrite <- (JsFacts.get_set_ne to k k' t1') by done.
        apply Hann; [done|]. by rewrite JsFacts.get_set_ne.
    + intros k' Hk'.
      assert (k' <> k) as Hne by (intros ->; congruence).
      rewrite Hfalsy; rewrite JsFacts.get_set_ne by done; done.
    + by rewrite Hkind, JsFacts.truthy_set.
  - destruct (IH to) as (to' & Hrun & Hkeep & Htruthy & Hann & Hfalsy & Hkind).
    { intros k' r' Hin. apply (Hto k' r'). by apply list_elem_of_further. }
    cbn [mbind result_bind]. exists to'. split; [exact Hrun|].
    split; [|split; [|split; [|split]]]; [|done| |done|done].
    + intros k' Hk'. apply Hkeep. intros Hin. apply Hk'. simpl.
      by apply list_elem_of_further.
    + intros k' r' [Heq|Hin]%elem_of_cons Hk'.
      * injection Heq as -> ->. congruence.
      * by apply Hann.
Qed.

End RuleFacts.

Module CloneFacts.
Import RuleFacts.

(** [cloneRuleNames] goes through on well-formed rules and restores the
    annotations, at every depth, and changes nothing else. *)
Lemma clone_restores from :
  restores from /\ forall k, restores (Js.get from k).
Proof.
  induction from as [p|kd ps IH] using MergeFacts.jsval_props_ind.
  { split.
    - intros to Hto Hfrom. inversion Hfrom as [v Hv|]; subst.
      by apply restores_nothing.
    - intros k. pose proof (JsFacts.get_prim_not_object p k) as Hobj.
      destruct (Js.get (JPrim p) k) as [q|kd ps]; [|done].
      intros to Hto Hfrom. inversion Hfrom as [v Hv|]; subst.
      by apply restores_nothing. }
  assert (forall k, restores (Js.get (JObj kd ps) k)) as Hprops.
  { intros k. simpl. destruct (Js.lookup k ps) as [v|] eqn:E.
    - apply lookup_elem in E. rewrite Forall_forall in IH.
      apply (IH (k, v) E).
    - by apply restores_nothing. }
  split; [|exact Hprops].
  intros to Hto Hfrom.
  inversion Hfrom as [v Hv|ps' Hnd Hall]; subst; [done|].
  destruct (Js.truthy to) eqn:Et.
  - rewrite clone_array by done.
    destruct (each_rule_spec ps Hnd) with (to := to)
      as (to' & Hrun & Hkeep & Htruthy & Hann & Hfalsy & Hkind).
    + intros k r Hin. destruct (Hall k r Hin) as [Hobj Hone].
      split; [done|]. split; [done|].
      rewrite Forall_forall in IH. apply (IH (k, r) Hin).
    + intros k r _ Hk. by apply rules_elem.
    + exists to'. split; [done|]. split.
      * apply restored_rules.
        intros k r Hlook Hk.
        destruct (Hann k r) as (H1 & H2 & _); [by apply lookup_elem| |done].
        by rewrite <- Htruthy.
      * apply annotated_rules; [exact Hkind| | |].
        -- intros i Hi. apply Hkeep. by apply JsFacts.lookup_none.
        -- exact Hfalsy.
        -- intros i r Hlook Hi. split; [by rewrite Htruthy|].
           destruct (Hann i r) as (H1 & _ & H3 & H4);
             [by apply lookup_elem|done|done].
  - exists to. split; [by apply clone_nothing_to|].
    split; [apply restored_nothing|apply annotated_nothing]; by left.
Qed.

Lemma cloneRuleNames_restores to from :
  Rules to -> Rules from ->
  exists to', cloneRuleNames to from = Ok to' /\ Restored to' from.
Proof.
  intros Hto Hfrom.
  destruct (proj1 (clone_restores from) to Hto Hfrom) as (to' & H1 & H2 & _).
  by exists to'.
Qed.

Lemma cloneRuleNames_annotates to from :
  Rules to -> Rules from ->
  exists to',
    cloneRuleNames to from = Ok to'
    /\ Restored to' from /\ Annotated from to to'.
Proof. intros Hto Hfrom. by apply (proj1 (clone_restores from)). Qed.

(** A list of rules without nested lists. *)
Lemma rules_flat ps :
  NoDup ps.*1 ->
  Forall (fun kv => Js.is_object kv.2 = true
                    /\ Js.truthy (Js.get kv.2 "oneOf") = false) ps ->
  Rules (JObj KArray ps).
Proof.
  intros Hnd Hall. apply rules_list; [done|].
  intros k r Hin. rewrite Forall_forall in Hall.
  destruct (Hall (k, r) Hin) as [Ho Hone]. split; [done|].
  by apply rules_none.
Qed.

End CloneFacts.

Section WebpackFacts.

Context {Chain : Type}.
Variable new_Config : Chain.
Variable toConfig : Chain -> jsval.
Variable chain_code : nat -> Chain -> result Chain.
Variable raw_code : nat -> jsval -> result (jsval * jsval).
Variable webpackMerge : jsval -> jsval -> jsval.

(** The rules of the configuration that [restore_rule_names] returns are
    the rules that [cloneRuleNames] left. *)
Lemma restore_rule_names_rules (st : rawState) to' :
  st.(replaced) = true ->
  cloneRuleNames (rules_of st.(config)) (rules_of st.(original)) = Ok to' ->
  exists cfg,
    restore_rule_names st = Ok cfg
    /\ rules_of cfg = to'
    /\ (forall k, k <> "module" -> Js.get cfg k = Js.get st.(config) k)
    /\ (forall k, k <> "rules" ->
          Js.get (Js.get cfg "module") k
          = Js.get (Js.get st.(config) "module") k).
Proof.
  intros Hrep Hclone. unfold restore_rule_names. rewrite Hrep.
  fold (rules_of (config st)) (rules_of (original st)).
  rewrite Hclone. cbn [mbind result_bind].
  eexists. split; [reflexivity|].
  destruct (Js.truthy (rules_of (config st))) eqn:Et.
  - unfold rules_of, and_prop in Et.
    destruct (Js.truthy (Js.get (config st) "module")) eqn:Em;
      [|by rewrite Em in Et].
    assert (Js.is_object (Js.get (config st) "module") = true) as Hm.
    { destruct (Js.get (config st) "module") as [p|]; [|done].
      by rewrite JsFacts.get_prim_word in Et. }
    assert (Js.is_object (config st) = true) as Hc.
    { by apply (JsFacts.get_object _ "module"). }
    split; [|split].
    + unfold rules_of at 1. rewrite JsFacts.get_set_eq by done.
      unfold and_prop. rewrite PluginFacts.truthy_object
        by (by rewrite JsFacts.set_is_object).
      by rewrite JsFacts.get_set_eq.
    + intros k Hk. by rewrite JsFacts.get_set_ne.
    + intros k Hk. rewrite JsFacts.get_set_eq by done.
      by rewrite JsFacts.get_set_ne.
  - unfold cloneRuleNames in Hclone.
    rewrite RuleFacts.clone_nothing_to in Hclone by done.
    by injection Hclone as <-.
Qed.

(** C8.  When [resolveWebpackConfig] runs on an initialized service and
    the raw callbacks have replaced the configuration by the result of a
    merge, and the rules before and after the merge are well-formed lists of
    rule objects, the call returns the merged configuration with the
    annotations of the rules before the merge.  Wherever the rules before
    the merge and the merged rules both have a rule at an index, the rule
    returned at this index has the [__ruleNames] of the rule before the
    merge and otherwise the properties of the merged rule, and so on in
    their [oneOf] lists; every other rule, and every property of the merged
    configuration outside [module.rules], is returned as it was merged. *)
Theorem resolveWebpackConfig_restores (chainableConfig : option Chain)
    (s : Service) (c : Chain) (st : rawState) :
  s.(initialized) = true ->
  match chainableConfig with
  | Some c' => Ok c'
  | None => apply_chains chain_code s.(webpackChainFns) new_Config
  end = Ok c ->
  apply_raw raw_code webpackMerge s.(webpackRawConfigFns)
    {| config := toConfig c; original := toConfig c; replaced := false |}
  = Ok st ->
  st.(replaced) = true ->
  Rules (rules_of st.(config)) -> Rules (rules_of st.(original)) ->
  exists cfg,
    resolveWebpackConfig new_Config toConfig chain_code raw_code webpackMerge
      chainableConfig s = (Ok cfg, s)
    /\ Restored (rules_of cfg) (rules_of st.(original))
    /\ Annotated (rules_of st.(original)) (rules_of st.(config)) (rules_of cfg)
    /\ (forall k, k <> "module" -> Js.get cfg k = Js.get st.(config) k)
    /\ (forall k, k <> "rules" ->
          Js.get (Js.get cfg "module") k
          = Js.get (Js.get st.(config) "module") k).
Proof.
  intros Hinit Hchain Hraw Hrep Hto Hfrom.
  destruct (CloneFacts.cloneRuleNames_annotates _ _ Hto Hfrom)
    as (to' & Hclone & Hres & Hann).
  assert (resolveWebpackConfig new_Config toConfig chain_code raw_code
            webpackMerge chainableConfig s
          = (restore_rule_names st, s)) as ->.
  { unfold resolveWebpackConfig, andThen, resolveChainableWebpackConfig, returns.
    destruct chainableConfig as [c'|].
    - injection Hchain as ->. rewrite Hinit. simpl. by rewrite Hraw.
    - rewrite Hchain, Hinit. simpl. by rewrite Hraw. }
  destruct (restore_rule_names_rules st to' Hrep Hclone)
    as (cfg & -> & Hrules & Hout & Hmod).
  exists cfg. rewrite Hrules. done.
Qed.

(** C9.  On a service that is not initialized, [resolveWebpackConfig]
    throws and leaves the service as it is.  The error is the one of line
    458, unless the builder had to be made and one of the chain callbacks
    threw first. *)
Theorem resolveWebpackConfig_uninitialized (chainableConfig : option Chain)
    (s : Service) :
  s.(initialized) = false ->
  exists e,
    resolveWebpackConfig new_Config toConfig chain_code raw_code webpackMerge
      chainableConfig s = (Throw e, s)
    /\ (is_Some chainableConfig
        \/ is_ok (apply_chains chain_code s.(webpackChainFns) new_Config) = true ->
        e = SError
              "Service must call init() before calling resolveWebpackConfig().").
Proof.
  intros Hinit.
  unfold resolveWebpackConfig, andThen, resolveChainableWebpackConfig, returns.
  destruct chainableConfig as [c'|].
  - rewrite Hinit. simpl. eexists. by split.
  - destruct (apply_chains chain_code (webpackChainFns s) new_Config)
      as [c|e] eqn:E.
    + rewrite Hinit. simpl. eexists. by split.
    + exists e. split; [done|]. intros [[? [=]]|H]. done.
Qed.

End WebpackFacts.

(** ** Environment variables *)
Module EnvFacts.

Lemma lookup_default_if_null dn k0 (e : gmap string jsval) k :
  default_if_null dn k0 e !! k
  = if decide (k = k0)
    then match e !! k0 with
         | Some (JPrim PNull) => Some (JStr dn)
         | x => x
         end
    else e !! k.
Proof.
  unfold default_if_null. destruct (decide (k = k0)) as [->|Hne].
  - destruct (e !! k0) as [[[]|]|] eqn:E; rewrite ?E; try done.
    by rewrite lookup_insert_eq.
  - destruct (e !! k0) as [[[]|]|] eqn:E; try done.
    by rewrite lookup_insert_ne.
Qed.

(** A variable after the two defaults of lines 86-90. *)
Lemma lookup_defaults dn (e : gmap string jsval) k :
  k = "NODE_ENV" \/ k = "BABEL_ENV" ->
  default_if_null dn "BABEL_ENV" (default_if_null dn "NODE_ENV" e) !! k
  = match e !! k with
    | Some (JPrim PNull) => Some (JStr dn)
    | x => x
    end.
Proof.
  intros [->| ->]; rewrite !lookup_default_if_null;
    repeat case_decide; done.
Qed.

End EnvFacts.

(** C10, as the code has it.  For a mode that is not empty and for
    [NODE_ENV] or [BABEL_ENV]: a variable that [process.env] does not have
    and that the env files do not define is still absent when [loadEnv]
    returns; and the value of the variable changes only when it was [null],
    in which case it becomes the default of the mode, or when it was absent
    and an env file defines it. *)
Theorem loadEnv_absent_stays_absent (eh : EnvHost) (cwd mode k : string)
    (env env' : gmap string jsval) :
  mode <> "" ->
  k = "NODE_ENV" \/ k = "BABEL_ENV" ->
  loadEnv eh cwd mode env = Ok env' ->
  (env !! k = None -> ~ env_files_define eh cwd mode k -> env' !! k = None)
  /\ (env' !! k = env !! k
      \/ (env !! k = Some JNull /\ env' !! k = Some (JStr (mode_default mode)))
      \/ (env !! k = None /\ env_files_define eh cwd mode k)).
Proof.
  intros Hmode Hk. unfold loadEnv, env_files_define.
  set (modeEnvName := ".env" ++ (if String.eqb mode "" then "" else "." ++ mode)).
  destruct (findExisting eh cwd _) as [envPath|] eqn:Efind.
  2: { intros [= <-]. split; [done|by left]. }
  destruct (load eh envPath) as [defaultEnv|] eqn:Edef; [|done].
  destruct (String.eqb_spec mode "") as [->|_]; [done|].
  intros [= <-]. fold (mode_default mode).
  rewrite (EnvFacts.lookup_defaults _ _ _ Hk).
  rewrite lookup_union, lookup_fmap.
  set (envObj := default ∅ (load eh (envPath ++ ".local")) ∪ defaultEnv).
  assert (is_Some (envObj !! k) ->
          exists envPath0 vars,
            Some envPath = Some envPath0
            /\ (load eh envPath0 = Some vars
                \/ load eh (envPath0 ++ ".local") = Some vars)
            /\ is_Some (vars !! k)) as Hdef.
  { intros [v Hv]. subst envObj. apply lookup_union_Some_raw in Hv.
    destruct Hv as [Hv|[_ Hv]].
    - destruct (load eh (envPath ++ ".local")) as [l|] eqn:El; [|done].
      exists envPath, l. split; [done|]. split; [by right|by exists v].
    - exists envPath, defaultEnv. split; [done|]. split; [by left|by exists v]. }
  destruct (env !! k) as [v|] eqn:Ek; destruct (envObj !! k) as [w|] eqn:Ev;
    simpl.
  - split; [done|]. destruct v as [[]|]; auto.
  - split; [done|]. destruct v as [[]|]; auto.
  - split.
    + intros _ Hno. exfalso. apply Hno, Hdef. by exists w.
    + right. right. split; [done|]. apply Hdef. by exists w.
  - split; [done|by left].
Qed.

Lemma loadEnv_absent_stays_absent_witness :
  exists env',
    loadEnv SampleEnv.host "/proj" "production" ∅ = Ok env'
    /\ env' !! "BABEL_ENV" = None.
Proof.
  eexists. split; [reflexivity|].
  refine (proj1 (loadEnv_absent_stays_absent SampleEnv.host "/proj" "production"
                   "BABEL_ENV" ∅ _ _ _ eq_refl) _ _); [done|by right|done|].
  intros (envPath & vars & Hfind & Hload & Hsome).
  injection Hfind as <-. revert Hsome.
  destruct Hload as [Hload|Hload]; vm_compute in Hload;
    [injection Hload as <-|discriminate Hload].
  intros [v Hv]. vm_compute in Hv. discriminate Hv.
Defined.

Example loadEnv_file_sets_node_env :
  (env ← loadEnv SampleEnv.host "/proj" "production" ∅; Ok (env !! "NODE_ENV"))
  = Ok (Some (JStr "staging")).
Proof. by vm_compute. Qed.

(** C10 as stated does not hold: a variable that is absent when [loadEnv]
    is called is set when an env file defines it. *)
Lemma node_env_from_file_counterexample :
  ~ (forall (eh : EnvHost) (cwd mode k : string) (env env' : gmap string jsval),
       mode <> "" ->
       k = "NODE_ENV" \/ k = "BABEL_ENV" ->
       env !! k = None ->
       loadEnv eh cwd mode env = Ok env' ->
       env' !! k = None).
Proof.
  intros H.
  assert (exists env', loadEnv SampleEnv.host "/proj" "production" ∅ = Ok env'
                       /\ env' !! "NODE_ENV" = Some (JStr "staging"))
    as (env' & He & Hv).
  { eexists. split; [reflexivity|]. by vm_compute. }
  specialize (H SampleEnv.host "/proj" "production" "NODE_ENV" ∅ env').
  rewrite H in Hv; [done|done|by left|done|done].
Qed.

Lemma init_idempotent_witness :
  let s0 := (addPlugin [JStr "san-plugin"] SamplePlugins.service).2 in
  let s1 := (init SampleService.accept SamplePlugins.code
               (JStr "production") s0).2 in
  init SampleService.accept SamplePlugins.code (JStr "development") s1
  = (Ok tt, s1)
  /\ s1.(mode) = JStr "production"
  /\ is_Some (s1.(registeredCommands) !! "serve")
  /\ s1.(webpackChainFns) = [JObj (KFunction 3) []].
Proof.
  split.
  - apply (init_idempotent SampleService.accept SamplePlugins.code
             (JStr "production") (JStr "development")
             (addPlugin [JStr "san-plugin"] SamplePlugins.service).2).
    by vm_compute.
  - split; [by vm_compute|]. split; [|by vm_compute].
    vm_compute. by eexists.
Defined.

Lemma resolveWebpackConfig_uninitialized_witness :
  resolveWebpackConfig SampleWebpack.base_config id SampleWebpack.chain_code
    SampleWebpack.raw_code SampleWebpack.merge None SampleService.ready
  = (Throw (SError
       "Service must call init() before calling resolveWebpackConfig()."),
     SampleService.ready).
Proof.
  destruct (resolveWebpackConfig_uninitialized SampleWebpack.base_config id
              SampleWebpack.chain_code SampleWebpack.raw_code
              SampleWebpack.merge None SampleService.ready eq_refl)
    as (e & Hrun & He).
  rewrite Hrun, He; [done|]. by right.
Defined.

Example resolveWebpackConfig_sample :
  (cfg ← (resolveWebpackConfig SampleWebpack.base_config id
            SampleWebpack.chain_code SampleWebpack.raw_code
            SampleWebpack.merge None SampleWebpack.service).1;
   Ok (rules_of cfg))
  = Ok (Js.array [Js.obj [("test", JStr "js");
                          ("__ruleNames", Js.array [JStr "js"])];
                  Js.obj [("test", JStr "css");
                          ("__ruleNames", Js.array [JStr "css"])]]).
Proof. by vm_compute. Qed.

Example resolveWebpackConfig_nested :
  (cfg ← (resolveWebpackConfig SampleWebpack.nested_config id
            SampleWebpack.chain_code SampleWebpack.raw_code
            SampleWebpack.merge_all None SampleWebpack.service).1;
   Ok (rules_of cfg))
  = Ok (Js.array
          [Js.obj [("test", JStr "js"); ("__ruleNames", Js.array [JStr "js"])];
           Js.obj [("test", JStr "css");
                   ("oneOf",
                    Js.array
                      [Js.obj [("resourceQuery", JStr "vue");
                               ("__ruleNames", Js.array [JStr "vue"])];
                       Js.obj [("use", JStr "css-loader");
                               ("__ruleNames", Js.array [JStr "normal"])]]);
                   ("__ruleNames", Js.array [JStr "css"])]]).
Proof. vm_compute. reflexivity. Qed.

Lemma resolveWebpackConfig_restores_witness :
  exists cfg,
    resolveWebpackConfig SampleWebpack.nested_config id SampleWebpack.chain_code
      SampleWebpack.raw_code SampleWebpack.merge_all None SampleWebpack.service
    = (Ok cfg, SampleWebpack.service)
    /\ Restored (rules_of cfg) (rules_of SampleWebpack.nested_config)
    /\ Annotated (rules_of SampleWebpack.nested_config)
         (rules_of (SampleWebpack.merge_all SampleWebpack.nested_config
                      (Js.obj [("mode", JStr "production")])))
         (rules_of cfg)
    /\ Js.get cfg "entry" = JStr "src/main.js"
    /\ Js.get (Js.get cfg "module") "noParse" = JStr "jquery".
Proof.
  destruct (resolveWebpackConfig_restores SampleWebpack.nested_config id
              SampleWebpack.chain_code SampleWebpack.raw_code
              SampleWebpack.merge_all None SampleWebpack.service
              SampleWebpack.nested_config
              {| config := SampleWebpack.merge_all SampleWebpack.nested_config
                             (Js.obj [("mode", JStr "production")]);
                 original := SampleWebpack.nested_config;
                 replaced := true |})
    as (cfg & Hrun & Hres & Hann & Hout & Hmod).
  - vm_compute. reflexivity.
  - vm_compute. reflexivity.
  - vm_compute. reflexivity.
  - reflexivity.
  - literal_rules.
  - literal_rules.
  - exists cfg. split; [exact Hrun|]. split; [exact Hres|].
    split; [exact Hann|]. split.
    + rewrite Hout by discriminate. vm_compute. reflexivity.
    + rewrite Hmod by discriminate. vm_compute. reflexivity.
Defined.

(** * Further properties of the service *)

(** ** The command registry *)
Module RegistryFacts.

(** A command word followed by rendered arguments has the word as its
    name (the helper behind the normalization of registry keys). *)
Lemma name_of_rendered name args :
  CommandString.no_space name = true ->
  CommandString.well_formed args = true ->
  getCommandName (name ++ CommandString.render_args args) = name.
Proof.
  intros Hn Hwf. destruct args as [|[sep a] rest].
  - simpl. rewrite CommandNameFacts.app_nil_r.
    by apply CommandNameFacts.getCommandName_word.
  - pose proof (CommandNameFacts.render_args_outside _ Hwf) as [H1 H2].
    cbn [CommandString.well_formed] in Hwf.
    apply andb_true_iff in Hwf as [[[Hne Hsp]%andb_true_iff _]%andb_true_iff _].
    cbn [CommandString.render_args] in *.
    destruct sep as [|w sep']; [done|].
    simpl in Hsp. apply andb_true_iff in Hsp as [Hw Hsp].
    rewrite CommandNameFacts.app_cons in *.
    apply CommandNameFacts.getCommandName_token; [done..|].
    pose proof (CommandNameFacts.space_not_bracket _ Hw) as Hb.
    rewrite CommandNameFacts.closes_first_pass in H1, H2 by done.
    unfold JsString.in_group. by rewrite H1, H2.
Qed.

Lemma registerCommand_function argsert command f ps s :
  argsert pattern_registerCommand [JStr command; JObj (KFunction f) ps] = true ->
  registerCommand argsert [JStr command; JObj (KFunction f) ps] s
  = (Ok tt,
     set_registeredCommands
       (<[getCommandName command := plain_entry command f]>
          s.(registeredCommands)) s).
Proof.
  intros Ha. unfold registerCommand. cbn [arg nth].
  unfold pattern_registerCommand in Ha. rewrite Ha. reflexivity.
Qed.

Lemma append_same_inv (a b : string) : a ++ b = a -> b = "".
Proof.
  induction a as [|c a IH]; [done|].
  rewrite CommandNameFacts.app_cons. intros [= H]. by apply IH.
Qed.

Lemma render_args_nonempty sep a rest :
  CommandString.well_formed ((sep, a) :: rest) = true ->
  CommandString.render_args ((sep, a) :: rest) <> "".
Proof.
  cbn [CommandString.well_formed CommandString.render_args].
  intros [[[Hne _]%andb_true_iff _]%andb_true_iff _]%andb_true_iff.
  destruct sep as [|w sep']; [done|]. by rewrite CommandNameFacts.app_cons.
Qed.

End RegistryFacts.

Section RegistryDispatch.

Context {W : Type}.
Variable call : nat -> jsval -> W -> result jsval * W.
Variable argsert : string -> list jsval -> bool.
Variable cli_parse : string -> list string -> option jsval.
Variable cli_0 : string.

(** X1.  A command registered with its arguments, as in
    [registerCommand("build <entry> [options]", handler)], is run by
    [runCommand("build", ..)]: when no flags were contributed for it, the
    handler is called once with the parsed arguments and its outcome is the
    outcome of [runCommand]. *)
Theorem registered_command_runs (name : string) (args : list (string * cmdArg))
    (f : nat) (rawArgs : list string) (argv : jsval) (s : Service) (w : W) :
  let command := name ++ CommandString.render_args args in
  CommandString.no_space name = true ->
  CommandString.well_formed args = true ->
  argsert pattern_registerCommand [JStr command; JObj (KFunction f) []] = true ->
  argsert pattern_cli_command
    [JStr command; JObj (KFunction 0) []; JFalse; Js.obj []; Js.array []] = true ->
  cli_parse command (with_command name rawArgs) = Some argv ->
  s.(registeredCommandFlags) !! name = None ->
  s.(registeredCommandHandlers) !! name = None ->
  exists s1,
    registerCommand argsert [JStr command; JObj (KFunction f) []] s = (Ok tt, s1)
    /\ runCommand call argsert cli_parse cli_0 name rawArgs s1 w
       = (match (call f argv w).1 with Ok _ => Ok tt | Throw e => Throw e end,
          s1, (call f argv w).2, [HandlerCalled (UserHandler f) argv], []).
Proof.
  intros command Hn Hwf Hreg Hcli Hparse Hflags Hhandlers.
  eexists. split; [by apply RegistryFacts.registerCommand_function|].
  unfold runCommand. cbn [registeredCommands set_registeredCommands
    registeredCommandHandlers registeredCommandFlags].
  subst command. rewrite RegistryFacts.name_of_rendered by done.
  rewrite lookup_insert_eq, Hflags, Hhandlers.
  unfold registration, builder_of.
  cbn [registeredCommandFlags set_registeredCommands].
  rewrite Hflags. cbn [plain_entry command description builder middlewares handler].
  unfold pattern_cli_command in Hcli.
  change (JsOps.or (Js.obj []) (Js.obj [])) with (Js.obj []).
  change (default (Js.obj []) None) with (Js.obj []).
  cbn [Js.obj Js.own_props Js.assign_all fold_left].
  change (JObj KPlain []) with (Js.obj []). rewrite Hcli, Hparse.
  unfold composite_handler, call_handler. cbn [Js.is_false].
  destruct (call f argv w) as [[v|e] w1]; done.
Qed.

(** X2.  [runCommand] looks the command up under the string it is given,
    without normalizing it: under the full command string, arguments
    included, the command is not found; an error is logged, nothing is
    called and nothing changes. *)
Theorem full_command_string_not_found (name : string)
    (args : list (string * cmdArg)) (f : nat) (rawArgs : list string)
    (s : Service) (w : W) :
  let command := name ++ CommandString.render_args args in
  CommandString.no_space name = true ->
  CommandString.well_formed args = true ->
  args <> [] ->
  argsert pattern_registerCommand [JStr command; JObj (KFunction f) []] = true ->
  s.(registeredCommands) !! command = None ->
  exists s1,
    registerCommand argsert [JStr command; JObj (KFunction f) []] s = (Ok tt, s1)
    /\ runCommand call argsert cli_parse cli_0 command rawArgs s1 w
       = (Ok tt, s1, w, [],
          [LogError "runCommand" (cli_0 ++ " " ++ command ++ " is not exist!")]).
Proof.
  intros command Hn Hwf Hargs Hreg Hnone.
  eexists. split; [by apply RegistryFacts.registerCommand_function|].
  unfold runCommand. cbn [registeredCommands set_registeredCommands].
  subst command. rewrite RegistryFacts.name_of_rendered by done.
  rewrite lookup_insert_ne, Hnone; [done|].
  intros Heq. symmetry in Heq. apply RegistryFacts.append_same_inv in Heq.
  destruct args as [|[sep a] rest]; [done|].
  by apply (RegistryFacts.render_args_nonempty sep a rest).
Qed.

End RegistryDispatch.

(** ** Flags *)
Module FlagFacts.

Lemma lookup_not_in k (ps : props) : k ∉ ps.*1 -> Js.lookup k ps = None.
Proof.
  induction ps as [|[k' v] rest IH]; simpl; [done|].
  intros Hk. destruct (String.eqb_spec k k') as [->|_].
  - exfalso. apply Hk. apply list_elem_of_here.
  - apply IH. intros Hin. apply Hk. by apply list_elem_of_further.
Qed.

(** [Object.assign]: the source wins, the other keys of the target stay. *)
Lemma lookup_assign_all k (target source : props) :
  NoDup source.*1 ->
  Js.lookup k (Js.assign_all target source)
  = match Js.lookup k source with
    | Some v => Some v
    | None => Js.lookup k target
    end.
Proof.
  unfold Js.assign_all. revert target.
  induction source as [|[k' v'] rest IH]; intros target Hnd; [done|].
  simpl in Hnd. apply NoDup_cons in Hnd as [Hk' Hnd].
  cbn [fold_left Js.lookup]. rewrite IH by done. cbn [fst snd].
  destruct (String.eqb_spec k k') as [->|Hne].
  - rewrite (lookup_not_in _ _ Hk'). apply JsFacts.lookup_assign_eq.
  - by rewrite JsFacts.lookup_assign_ne.
Qed.

Lemma registerCommandFlag_ok argsert cmdName flag handler s :
  argsert pattern_registerCommandFlag [JStr cmdName; flag; handler] = true ->
  registerCommandFlag argsert [JStr cmdName; flag; handler] s
  = (Ok tt,
     let key := getCommandName cmdName in
     set_flags
       (<[key := match default (Js.obj []) (s.(registeredCommandFlags) !! key) with
                 | JObj kd ps => JObj kd (Js.assign_all ps (Js.own_props flag))
                 | JPrim p => JPrim p
                 end]> s.(registeredCommandFlags))
       (<[key := (default [] (s.(registeredCommandHandlers) !! key)
                  ++ [handler])%list]> s.(registeredCommandHandlers)) s).
Proof.
  intros Ha. unfold registerCommandFlag. cbn [arg nth].
  unfold pattern_registerCommandFlag in Ha. rewrite Ha.
  unfold andThen, lift, update. cbn [JsOps.as_string]. cbv zeta.
  by destruct (default (Js.obj [])
                 (registeredCommandFlags s !! getCommandName cmdName)).
Qed.

Lemma registerCommandFlag_commands argsert args s r s' :
  registerCommandFlag argsert args s = (r, s') ->
  s'.(registeredCommands) = s.(registeredCommands).
Proof.
  unfold registerCommandFlag. destruct (argsert _ _); [|by intros [= _ <-]].
  unfold andThen, lift. destruct (JsOps.as_string (arg 0 args)) as [n|e].
  - by intros [= _ <-].
  - by intros [= _ <-].
Qed.

End FlagFacts.

(** X3.  Two plugins that contribute flags to the same command: the
    handlers are kept in the order of registration, and the flag schemas
    are merged, the later contribution winning on a shared key. *)
Theorem flag_contributions_accumulate (argsert : string -> list jsval -> bool)
    (nameA nameB : string) (kdA kdB : objkind) (pa pb : props)
    (hA hB : jsval) (s : Service) :
  let key := getCommandName nameA in
  getCommandName nameB = key ->
  argsert pattern_registerCommandFlag [JStr nameA; JObj kdA pa; hA] = true ->
  argsert pattern_registerCommandFlag [JStr nameB; JObj kdB pb; hB] = true ->
  NoDup pa.*1 -> NoDup pb.*1 ->
  s.(registeredCommandFlags) !! key = None ->
  s.(registeredCommandHandlers) !! key = None ->
  exists s2 flags,
    (do u <~ registerCommandFlag argsert [JStr nameA; JObj kdA pa; hA];
     registerCommandFlag argsert [JStr nameB; JObj kdB pb; hB]) s = (Ok tt, s2)
    /\ s2.(registeredCommandHandlers) !! key = Some [hA; hB]
    /\ s2.(registeredCommandFlags) !! key = Some flags
    /\ (forall k,
          Js.get flags k
          = match Js.lookup k pb, Js.lookup k pa with
            | Some v, _ => v
            | None, Some v => v
            | None, None => JUndefined
            end)
    /\ s2.(registeredCommands) = s.(registeredCommands).
Proof.
  intros key HB HaA HaB Hpa Hpb Hflags Hhandlers.
  unfold andThen. rewrite (FlagFacts.registerCommandFlag_ok _ _ _ _ _ HaA).
  rewrite (FlagFacts.registerCommandFlag_ok _ _ _ _ _ HaB).
  cbv zeta. rewrite HB. fold key.
  cbn [registeredCommandFlags registeredCommandHandlers set_flags].
  rewrite !lookup_insert_eq, Hflags, Hhandlers.
  eexists _, _. split; [reflexivity|].
  cbn [registeredCommandFlags registeredCommandHandlers set_flags
       registeredCommands].
  rewrite !lookup_insert_eq. split; [done|]. split; [reflexivity|].
  split; [|done]. intros k. cbn [default Js.obj Js.own_props].
  change (id (JObj KPlain (Js.assign_all [] pa)))
    with (JObj KPlain (Js.assign_all [] pa)).
  cbn [Js.get]. rewrite !FlagFacts.lookup_assign_all by done.
  destruct (Js.lookup k pb); [done|]. by destruct (Js.lookup k pa).
Qed.

Section FlagDispatch.

Context {W : Type}.
Variable call : nat -> jsval -> W -> result jsval * W.
Variable argsert : string -> list jsval -> bool.
Variable cli_parse : string -> list string -> option jsval.
Variable cli_0 : string.

(** X4.  Flags contributed for a command that nobody registers are never
    used: [registerCommandFlag] does not create the command, so
    [runCommand] reports that it does not exist and calls no handler. *)
Theorem flags_without_command (args : list jsval) (cmd : string)
    (rawArgs : list string) (s s' : Service) (r : result unit) (w : W) :
  registerCommandFlag argsert args s = (r, s') ->
  s.(registeredCommands) !! cmd = None ->
  runCommand call argsert cli_parse cli_0 cmd rawArgs s' w
  = (Ok tt, s', w, [],
     [LogError "runCommand" (cli_0 ++ " " ++ cmd ++ " is not exist!")]).
Proof.
  intros Hreg Hnone. unfold runCommand.
  by rewrite (FlagFacts.registerCommandFlag_commands _ _ _ _ _ Hreg), Hnone.
Qed.


End FlagDispatch.

(** ** What the facade calls leave alone *)
Section FrameFacts.

Variable argsert : string -> list jsval -> bool.
Variable plugin_code : nat -> jsval -> jsval -> list PluginOp.

Context {B : Type} (proj : Service -> B).
Hypothesis Hproj : beside_registries proj.

Lemma preserves_returns {A} (a : A) : preserves proj (returns a).
Proof. by intros s r s' [= _ <-]. Qed.

Lemma preserves_throws {A} e : preserves proj (@throws A e).
Proof. by intros s r s' [= _ <-]. Qed.

Lemma preserves_lift {A} (x : result A) : preserves proj (lift x).
Proof. by intros s r s' [= _ <-]. Qed.

Lemma preserves_update f :
  (forall s, proj (f s) = proj s) -> preserves proj (update f).
Proof. intros Hf s r s' [= _ <-]. apply Hf. Qed.

Lemma preserves_andThen {A C} (m : method A) (k : A -> method C) :
  preserves proj m -> (forall a, preserves proj (k a)) ->
  preserves proj (andThen m k).
Proof.
  intros Hm Hk s r s'. unfold andThen.
  destruct (m s) as [[a|e] s1] eqn:E.
  - intros H. rewrite (Hk _ _ _ _ H). by apply (Hm _ _ _ E).
  - intros [= _ <-]. by apply (Hm _ _ _ E).
Qed.

Lemma preserves_state {A} (m : Service -> method A) :
  (forall s0, preserves proj (m s0)) -> preserves proj (fun s => m s s).
Proof. intros H s r s'. apply H. Qed.

Lemma preserves_resolvePlugin p : preserves proj (_resolvePlugin p).
Proof.
  intros s r s' H. destruct Hproj as (_ & _ & _ & Hmod & _).
  destruct (PluginFacts.resolvePlugin_cases _ _ _ _ H) as
    [(-> & _)|(name & _ & [(_ & -> & _)|(m0 & esm0 & m' & d & _ & _ & _ & _ & -> & _)])];
    [done|done|apply Hmod].
Qed.

Lemma preserves_api_call op : preserves proj (api_call argsert op).
Proof.
  destruct Hproj as (Hcmd & Hflags & Hplug & Hmod & Hchain & Hraw).
  destruct op as [args|args|args|fn|fn|e]; simpl.
  - unfold registerCommand. destruct (argsert _ _); [|apply preserves_throws].
    apply preserves_andThen; [apply preserves_lift|].
    intros [cmd [[[d b] hd] mw]].
    apply preserves_andThen; [apply preserves_lift|].
    intros name. apply preserves_update. intros s. apply Hcmd.
  - unfold registerCommandFlag.
    destruct (argsert _ _); [|apply preserves_throws].
    apply preserves_andThen; [apply preserves_lift|].
    intros name. apply preserves_update. intros s. apply Hflags.
  - unfold addPlugin.
    apply preserves_andThen; [apply preserves_resolvePlugin|].
    intros plugin. apply preserves_update. intros s. apply Hplug.
  - apply preserves_update. intros s. apply Hchain.
  - apply preserves_update. intros s. apply Hraw.
  - apply preserves_throws.
Qed.

Lemma preserves_api_calls ops : preserves proj (api_calls argsert ops).
Proof.
  induction ops as [|op rest IH]; simpl; [apply preserves_returns|].
  apply preserves_andThen; [apply preserves_api_call|]. by intros _.
Qed.

Lemma preserves_initPlugin p : preserves proj (initPlugin argsert plugin_code p).
Proof.
  intros s. unfold initPlugin.
  destruct (match JsOps.elems (entry p s) with
            | Some es => (arg 0 es, arg 1 es)
            | None => (entry p s, Js.obj [])
            end) as [q opts].
  revert s. change (preserves proj
    (do apply <~ lift (JsOps.prop q "apply");
     do f <~ lift (JsOps.as_function apply);
     fun s => api_calls argsert (plugin_code f s.(projectOptions) opts) s)).
  apply preserves_andThen; [apply preserves_lift|]. intros a.
  apply preserves_andThen; [apply preserves_lift|]. intros f.
  apply (preserves_state
           (fun s0 => api_calls argsert (plugin_code f s0.(projectOptions) opts))).
  intros s0. apply preserves_api_calls.
Qed.

Lemma preserves_init_each ps : preserves proj (init_each argsert plugin_code ps).
Proof.
  induction ps as [|p rest IH]; simpl; [apply preserves_returns|].
  apply preserves_andThen; [apply preserves_initPlugin|]. by intros _.
Qed.

End FrameFacts.

Module FrameInstances.

Lemma beside_projectOptions : beside_registries projectOptions.
Proof. by repeat split. Qed.

Lemma beside_mode : beside_registries mode.
Proof. by repeat split. Qed.

Lemma beside_initialized : beside_registries initialized.
Proof. by repeat split. Qed.

End FrameInstances.

(** ** Initialization, continued *)
Section InitMore.

Variable argsert : string -> list jsval -> bool.
Variable plugin_code : nat -> jsval -> jsval -> list PluginOp.

(** [init] on a service that is not initialized, step by step. *)
Lemma init_steps mode s :
  s.(initialized) = false ->
  init argsert plugin_code mode s
  = let s0 := set_mode mode (set_initialized true s) in
    match init_each argsert plugin_code s0.(plugins) s0 with
    | (Throw e, s1) => (Throw e, s1)
    | (Ok _, s1) =>
        match JsOps.prop s1.(projectOptions) "chainWebpack" with
        | Throw e => (Throw e, s1)
        | Ok chain =>
            let s2 := if Js.truthy chain
                      then set_webpackChainFns (s1.(webpackChainFns) ++ [chain]) s1
                      else s1 in
            match JsOps.prop s2.(projectOptions) "configureWebpack" with
            | Throw e => (Throw e, s2)
            | Ok raw =>
                (Ok tt,
                 if Js.truthy raw
                 then set_webpackRawConfigFns (s2.(webpackRawConfigFns) ++ [raw]) s2
                 else s2)
            end
        end
    end.
Proof.
  intros Hs. unfold init. rewrite Hs.
  unfold chainWebpack, configWebpack, andThen, update, lift, returns.
  cbv beta iota zeta.
  destruct (init_each _ _ _ _) as [[u|e] s1]. 2: done.
  destruct (JsOps.prop (projectOptions s1) "chainWebpack") as [chain|e]; [|done].
  destruct (Js.truthy chain); cbn [projectOptions set_webpackChainFns].
  - destruct (JsOps.prop (projectOptions s1) "configureWebpack") as [raw|e].
    2: done.
    by destruct (Js.truthy raw).
  - destruct (JsOps.prop (projectOptions s1) "configureWebpack") as [raw|e];
     [|done].
    by destruct (Js.truthy raw).
Qed.

(** X6.  Whatever the first [init] does, return or throw, it leaves the
    service marked as initialized, with the mode it was given; so an [init]
    that failed half-way is not tried again: the next call returns at once
    and changes nothing. *)
Theorem init_not_retried (m m' : jsval) (s s1 : Service) (r : result unit) :
  s.(initialized) = false ->
  init argsert plugin_code m s = (r, s1) ->
  s1.(initialized) = true
  /\ s1.(mode) = m
  /\ init argsert plugin_code m' s1 = (Ok tt, s1).
Proof.
  intros Hs H. pose proof (init_initialized _ _ _ _ _ _ H) as Hinit.
  split; [done|]. split; [|unfold init; by rewrite Hinit].
  rewrite init_steps in H by done. cbv zeta in H.
  destruct (init_each _ _ _ _) as [[u|e] sa] eqn:E.
  - pose proof (preserves_init_each argsert plugin_code mode
                  FrameInstances.beside_mode _ _ _ _ E) as Hm.
    destruct (JsOps.prop (projectOptions sa) "chainWebpack") as [chain|e];
      [|by injection H as _ <-].
    destruct (Js.truthy chain);
      (destruct (JsOps.prop _ "configureWebpack") as [raw|e];
       [|by injection H as _ <-]);
      destruct (Js.truthy raw); by injection H as _ <-.
  - injection H as _ <-.
    by rewrite (preserves_init_each argsert plugin_code mode
                  FrameInstances.beside_mode _ _ _ _ E).
Qed.

(** X7.  [init] reads [chainWebpack] from the project options after the
    plugins have been applied: on a service whose project options have not
    been set, it throws a [TypeError] once the plugins are through, and the
    service stays marked as initialized. *)
Theorem init_without_project_options (m : jsval) (s sa : Service) :
  s.(initialized) = false ->
  s.(projectOptions) = JUndefined ->
  init_each argsert plugin_code s.(plugins)
    (set_mode m (set_initialized true s)) = (Ok tt, sa) ->
  init argsert plugin_code m s = (Throw (TypeError "reading chainWebpack"), sa)
  /\ sa.(initialized) = true.
Proof.
  intros Hs Hpo Heach. rewrite init_steps by done. cbv zeta.
  change (plugins (set_mode m (set_initialized true s))) with (plugins s).
  rewrite Heach.
  rewrite (preserves_init_each argsert plugin_code projectOptions
             FrameInstances.beside_projectOptions _ _ _ _ Heach).
  rewrite (preserves_init_each argsert plugin_code initialized
             FrameInstances.beside_initialized _ _ _ _ Heach).
  cbn [projectOptions initialized set_mode set_initialized]. by rewrite Hpo.
Qed.

End InitMore.

(** ** Adding plugins *)
Module AddPluginFacts.

Lemma elems_array vs : JsOps.elems (Js.array vs) = Some vs.
Proof.
  unfold Js.array, JsOps.elems. f_equal. generalize 0.
  induction vs as [|v l IH]; intros n; simpl; [done|]. by rewrite IH.
Qed.

(** [_resolvePlugin] changes the module registry at most. *)
Lemma resolvePlugin_frame p s r s' :
  _resolvePlugin p s = (r, s') ->
  exists mods, s' = set_modules mods s.
Proof.
  intros H.
  destruct (PluginFacts.resolvePlugin_cases _ _ _ _ H) as
    [(-> & _)|(name & _ & [(_ & -> & _)|(m0 & esm0 & m' & d & _ & _ & _ & _ & -> & _)])].
  - exists (modules s). by rewrite PluginFacts.set_modules_same.
  - exists (modules s). by rewrite PluginFacts.set_modules_same.
  - by eexists.
Qed.

End AddPluginFacts.

(** ** Lists that only grow *)
Section AppendFacts.

Variable argsert : string -> list jsval -> bool.
Variable plugin_code : nat -> jsval -> jsval -> list PluginOp.

Context {B : Type} (proj : Service -> list B).
Hypothesis Hcmd : forall m s, proj (set_registeredCommands m s) = proj s.
Hypothesis Hflags : forall fm hm s, proj (set_flags fm hm s) = proj s.
Hypothesis Hadd : forall args, appends proj (addPlugin args).
Hypothesis Hchain : forall fn, appends proj (chainWebpack fn).
Hypothesis Hraw : forall fn, appends proj (configWebpack fn).

Lemma appends_preserves {A} (m : method A) : preserves proj m -> appends proj m.
Proof.
  intros H s r s' E. exists []. rewrite (H _ _ _ E). by rewrite app_nil_r.
Qed.

Lemma appends_andThen {A C} (m : method A) (k : A -> method C) :
  appends proj m -> (forall a, appends proj (k a)) -> appends proj (andThen m k).
Proof.
  intros Hm Hk s r s'. unfold andThen.
  destruct (m s) as [[a|e] s1] eqn:E.
  - intros H. destruct (Hm _ _ _ E) as [l1 H1].
    destruct (Hk _ _ _ _ H) as [l2 H2]. exists (l1 ++ l2)%list.
    by rewrite H2, H1, app_assoc.
  - intros [= _ <-]. by apply (Hm _ _ _ E).
Qed.

Lemma appends_api_call op : appends proj (api_call argsert op).
Proof.
  destruct op as [args|args|args|fn|fn|e]; simpl; try done.
  - apply appends_preserves. unfold registerCommand.
    destruct (argsert _ _); [|apply preserves_throws].
    apply preserves_andThen; [apply preserves_lift|].
    intros [cmd [[[d b] hd] mw]].
    apply preserves_andThen; [apply preserves_lift|].
    intros name. apply preserves_update. intros s. apply Hcmd.
  - apply appends_preserves. unfold registerCommandFlag.
    destruct (argsert _ _); [|apply preserves_throws].
    apply preserves_andThen; [apply preserves_lift|].
    intros name. apply preserves_update. intros s. apply Hflags.
  - apply appends_preserves, preserves_throws.
Qed.

Lemma appends_api_calls ops : appends proj (api_calls argsert ops).
Proof.
  induction ops as [|op rest IH]; simpl.
  - apply appends_preserves, preserves_returns.
  - apply appends_andThen; [apply appends_api_call|]. by intros _.
Qed.

Lemma appends_initPlugin p : appends proj (initPlugin argsert plugin_code p).
Proof.
  intros s. unfold initPlugin.
  destruct (match JsOps.elems (entry p s) with
            | Some es => (arg 0 es, arg 1 es)
            | None => (entry p s, Js.obj [])
            end) as [q opts].
  revert s. change (appends proj
    (do apply <~ lift (JsOps.prop q "apply");
     do f <~ lift (JsOps.as_function apply);
     fun s => api_calls argsert (plugin_code f s.(projectOptions) opts) s)).
  apply appends_andThen; [apply appends_preserves, preserves_lift|]. intros a.
  apply appends_andThen; [apply appends_preserves, preserves_lift|]. intros f.
  intros s r s'. apply appends_api_calls.
Qed.

Lemma appends_init_each ps : appends proj (init_each argsert plugin_code ps).
Proof.
  induction ps as [|p rest IH]; simpl.
  - apply appends_preserves, preserves_returns.
  - apply appends_andThen; [apply appends_initPlugin|]. by intros _.
Qed.

End AppendFacts.

Section InitCallbacks.

Variable argsert : string -> list jsval -> bool.
Variable plugin_code : nat -> jsval -> jsval -> list PluginOp.

(** The service after [addPlugin], whatever its outcome. *)
Lemma addPlugin_state args s r s' :
  addPlugin args s = (r, s') ->
  exists mods,
    s' = set_modules mods s
    \/ exists d, s' = set_plugins (s.(plugins) ++ [d])%list (set_modules mods s).
Proof.
  unfold addPlugin, andThen, update.
  destruct (_resolvePlugin _ s) as [[d|e] s1] eqn:E;
    destruct (AddPluginFacts.resolvePlugin_frame _ _ _ _ E) as [mods ->];
    intros [= _ <-]; exists mods; [right; by exists d|by left].
Qed.

Lemma init_each_chain ps :
  appends webpackChainFns (init_each argsert plugin_code ps).
Proof.
  apply appends_init_each; try done.
  - intros args. apply appends_preserves. intros s r s' H.
    by destruct (addPlugin_state _ _ _ _ H) as [mods [->|[d ->]]].
  - intros fn s r s' [= _ <-]. by exists [fn].
  - intros fn. apply appends_preserves. by intros s r s' [= _ <-].
Qed.

Lemma init_each_raw ps :
  appends webpackRawConfigFns (init_each argsert plugin_code ps).
Proof.
  apply appends_init_each; try done.
  - intros args. apply appends_preserves. intros s r s' H.
    by destruct (addPlugin_state _ _ _ _ H) as [mods [->|[d ->]]].
  - intros fn. apply appends_preserves. by intros s r s' [= _ <-].
  - intros fn s r s' [= _ <-]. by exists [fn].
Qed.

Lemma init_each_plugins ps :
  appends plugins (init_each argsert plugin_code ps).
Proof.
  apply appends_init_each; try done.
  - intros args s r s' H.
    destruct (addPlugin_state _ _ _ _ H) as [mods [->|[d ->]]].
    + exists []. by rewrite app_nil_r.
    + by exists [d].
  - intros fn. apply appends_preserves. by intros s r s' [= _ <-].
  - intros fn. apply appends_preserves. by intros s r s' [= _ <-].
Qed.

(** The service after a first [init] that returns: the plugins have been
    applied, then the callbacks of the project options are pushed. *)
Lemma init_ok_state (m : jsval) (s s1 : Service) :
  s.(initialized) = false ->
  init argsert plugin_code m s = (Ok tt, s1) ->
  let chain := Js.get s.(projectOptions) "chainWebpack" in
  let raw := Js.get s.(projectOptions) "configureWebpack" in
  exists sa,
    init_each argsert plugin_code s.(plugins)
      (set_mode m (set_initialized true s)) = (Ok tt, sa)
    /\ s1 = (let s2 := if Js.truthy chain
                       then set_webpackChainFns (sa.(webpackChainFns) ++ [chain]) sa
                       else sa in
             if Js.truthy raw
             then set_webpackRawConfigFns (s2.(webpackRawConfigFns) ++ [raw]) s2
             else s2).
Proof.
  intros Hs H chain raw. rewrite init_steps in H by done. cbv zeta in H.
  change (plugins (set_mode m (set_initialized true s))) with (plugins s) in H.
  destruct (init_each _ _ _ _) as [[[]|e] sa] eqn:E; [|done].
  pose proof (preserves_init_each argsert plugin_code projectOptions
                FrameInstances.beside_projectOptions _ _ _ _ E) as Hpo.
  cbn [projectOptions set_mode set_initialized] in Hpo.
  exists sa. split; [done|].
  assert (forall k v, JsOps.prop (projectOptions sa) k = Ok v ->
                      v = Js.get (projectOptions s) k) as Hget.
  { intros k v. rewrite Hpo. unfold JsOps.prop.
    destruct (projectOptions s) as [[]|]; by intros [= <-]. }
  destruct (JsOps.prop (projectOptions sa) "chainWebpack") as [c|e] eqn:Ec;
    [|done].
  apply Hget in Ec. subst c. fold chain in H.
  destruct (Js.truthy chain);
    cbn [projectOptions set_webpackChainFns] in H;
    (destruct (JsOps.prop (projectOptions sa) "configureWebpack") as [c|e] eqn:Er;
     [|done]);
    apply Hget in Er; subst c; fold raw in H;
    destruct (Js.truthy raw); by injection H as <-.
Qed.

(** X8.  [init] only appends to the two lists of webpack callbacks, and
    the callbacks of the project options ([chainWebpack],
    [configureWebpack]) come after everything the plugins have added, so
    that they run last. *)
Theorem init_project_callbacks_last (m : jsval) (s s1 : Service) :
  s.(initialized) = false ->
  init argsert plugin_code m s = (Ok tt, s1) ->
  let chain := Js.get s.(projectOptions) "chainWebpack" in
  let raw := Js.get s.(projectOptions) "configureWebpack" in
  exists chainAdded rawAdded,
    s1.(webpackChainFns)
    = (s.(webpackChainFns) ++ chainAdded
       ++ (if Js.truthy chain then [chain] else []))%list
    /\ s1.(webpackRawConfigFns)
       = (s.(webpackRawConfigFns) ++ rawAdded
          ++ (if Js.truthy raw then [raw] else []))%list.
Proof.
  intros Hs H chain raw.
  destruct (init_ok_state m s s1 Hs H) as (sa & E & ->).
  fold chain raw.
  destruct (init_each_chain _ _ _ _ E) as [ca Hca].
  destruct (init_each_raw _ _ _ _ E) as [ra Hra].
  cbn [webpackChainFns webpackRawConfigFns set_mode set_initialized]
    in Hca, Hra.
  exists ca, ra.
  destruct (Js.truthy chain), (Js.truthy raw);
    cbn [webpackChainFns webpackRawConfigFns set_webpackChainFns
         set_webpackRawConfigFns];
    rewrite ?Hca, ?Hra, <- ?app_assoc, ?app_nil_r; done.
Qed.

End InitCallbacks.

(** X9.  [addPlugin] appends: when it returns, the plugin list is the old
    list followed by one new entry (also when the same plugin is added
    again), and the registries and the callback lists are as before. *)
Theorem addPlugin_appends (args : list jsval) (s s' : Service) :
  addPlugin args s = (Ok tt, s') ->
  (exists d, s'.(plugins) = (s.(plugins) ++ [d])%list)
  /\ s'.(registeredCommands) = s.(registeredCommands)
  /\ s'.(registeredCommandFlags) = s.(registeredCommandFlags)
  /\ s'.(registeredCommandHandlers) = s.(registeredCommandHandlers)
  /\ s'.(webpackChainFns) = s.(webpackChainFns)
  /\ s'.(webpackRawConfigFns) = s.(webpackRawConfigFns)
  /\ s'.(initialized) = s.(initialized).
Proof.
  unfold addPlugin, andThen, update.
  destruct (_resolvePlugin _ s) as [[d|e] s1] eqn:E; [|done].
  intros [= <-].
  destruct (AddPluginFacts.resolvePlugin_frame _ _ _ _ E) as [mods ->].
  split; [by exists d|done].
Qed.

Section PluginOptions.

Variable argsert : string -> list jsval -> bool.
Variable plugin_code : nat -> jsval -> jsval -> list PluginOp.

(** X10.  A plugin named by a string and added with
    [addPlugin(name, options)] is applied with these options, or with an
    empty object when the options are missing or falsy, and with the project
    options of the service. *)
Theorem named_plugin_applied_with_options (name : string) (options m : jsval)
    (f : nat) (fps : props) (s : Service) :
  s.(modules) !! name = Some m ->
  plugin_shaped (effective_plugin m) = true ->
  JsOps.elems (effective_plugin m) = None ->
  Js.get (effective_plugin m) "apply" = JObj (KFunction f) fps ->
  exists d s1,
    addPlugin [JStr name; options] s = (Ok tt, s1)
    /\ s1.(plugins) = (s.(plugins) ++ [d])%list
    /\ initPlugin argsert plugin_code d s1
       = api_calls argsert
           (plugin_code f s.(projectOptions) (JsOps.or options (Js.obj []))) s1.
Proof.
  intros Hm Hshape Harr Happly.
  set (opts := match options with JUndefined => Js.obj [] | o => o end).
  assert (Js.truthy opts = true /\ opts = JsOps.or options (Js.obj [])
          \/ Js.truthy opts = false /\ JsOps.or options (Js.obj []) = Js.obj [])
    as Hopts.
  { subst opts. unfold JsOps.or.
    destruct options as [[| |b|n|t]|]; cbn [Js.truthy]; auto.
    - destruct b; auto.
    - destruct (negb (Z.eqb n 0)); auto.
    - destruct (negb (String.eqb t "")); auto. }
  pose proof (PluginFacts.load_plugin_ok name m Hshape) as Hload.
  set (esm := Js.truthy (Js.get m "default")) in *.
  set (m' := if esm then Js.set m "default" (with_id name (Js.get m "default"))
             else with_id name m) in *.
  set (s1 := set_plugins
               (s.(plugins) ++ [if Js.truthy opts
                                then PluginWithOptions (ModuleExport name esm) opts
                                else Plugin (ModuleExport name esm)])%list
               (set_modules (<[name := m']> s.(modules)) s)).
  assert (addPlugin [JStr name; options] s = (Ok tt, s1)) as Hadd.
  { unfold addPlugin, andThen, update. cbn [arg nth]. fold opts.
    unfold _resolvePlugin. rewrite AddPluginFacts.elems_array.
    rewrite Hm, Hload. subst s1 opts. by destruct options as [[]|]. }
  assert (Js.is_object m = true) as Hmobj.
  { unfold effective_plugin in Hshape. destruct m as [p|]; [|done].
    by destruct p. }
  assert (deref (ModuleExport name esm) s1 = with_id name (effective_plugin m))
    as Hderef.
  { unfold deref. subst s1. cbn [modules set_plugins set_modules].
    rewrite lookup_insert_eq. cbn [default]. subst m' esm.
    unfold effective_plugin.
    destruct (Js.truthy (Js.get m "default")); [|done].
    unfold id. by rewrite JsFacts.get_set_eq. }
  assert (JsOps.elems (with_id name (effective_plugin m)) = None)
    as Harr'.
  { unfold with_id.
    destruct (Js.truthy (Js.get (effective_plugin m) "id")); [done|].
    destruct (effective_plugin m) as [|[]]; done. }
  assert (JsOps.prop (with_id name (effective_plugin m)) "apply"
          = Ok (JObj (KFunction f) fps)) as Hprop.
  { unfold JsOps.prop.
    assert (Js.is_object (with_id name (effective_plugin m)) = true)
      as Ho.
    { rewrite PluginFacts.with_id_is_object.
      destruct (effective_plugin m) as [|[]]; done. }
    destruct (with_id name (effective_plugin m)) as [|kd ps] eqn:E;
      [done|]. rewrite <- E, PluginFacts.with_id_get by done. by rewrite Happly. }
  eexists _, s1. split; [exact Hadd|]. split; [done|].
  unfold initPlugin, entry.
  destruct Hopts as [[Ht Ho]|[Ht Ho]]; rewrite Ht.
  - rewrite AddPluginFacts.elems_array. cbn [arg nth]. rewrite Hderef.
    unfold andThen, lift. rewrite Hprop. cbn [JsOps.as_function]. by rewrite Ho.
  - rewrite Hderef, Harr'. unfold andThen, lift. rewrite Hprop.
    cbn [JsOps.as_function]. by rewrite Ho.
Qed.

(** X11.  The options given with a plugin object are dropped:
    [addPlugin(plugin, options)] with an object that has an id and an
    [apply] stores the object alone, and the plugin is applied with an empty
    options object. *)
Theorem inline_plugin_options_dropped (plugin options : jsval)
    (f : nat) (fps : props) (s : Service) :
  Js.typeof_object plugin = true ->
  JsOps.elems plugin = None ->
  Js.truthy (Js.get plugin "id") = true ->
  Js.get plugin "apply" = JObj (KFunction f) fps ->
  exists s1,
    addPlugin [plugin; options] s = (Ok tt, s1)
    /\ s1 = set_plugins (s.(plugins) ++ [Plugin (InlinePlugin plugin)])%list s
    /\ initPlugin argsert plugin_code (Plugin (InlinePlugin plugin)) s1
       = api_calls argsert (plugin_code f s.(projectOptions) (Js.obj [])) s1.
Proof.
  intros Hobj Harr Hid Happly. eexists. split; [|split; [reflexivity|]].
  - unfold addPlugin, andThen, update. cbn [arg nth].
    unfold _resolvePlugin. rewrite AddPluginFacts.elems_array.
    destruct plugin as [p|k ps]; [by destruct p|].
    rewrite Hobj. unfold andThen, lift, JsOps.prop, returns.
    rewrite Hid, Happly. done.
  - unfold initPlugin, entry, deref. rewrite Harr.
    destruct plugin as [p|k ps]; [by destruct p|].
    unfold andThen, lift, JsOps.prop. rewrite Happly. done.
Qed.

End PluginOptions.

(** X12.  Resolving a plugin named by a string gives the plugin its id:
    afterwards the plugin object in the module registry has the id it had,
    if that was truthy, and the reference string otherwise, and its other
    properties are as before. *)
Theorem resolved_plugin_has_id (name : string) (m : jsval) (d : descriptor)
    (s s' : Service) :
  s.(modules) !! name = Some m ->
  _resolvePlugin (JStr name) s = (Ok d, s') ->
  let before := effective_plugin m in
  let after := deref (plugin_of d) s' in
  Js.get after "id"
  = (if Js.truthy (Js.get before "id") then Js.get before "id" else JStr name)
  /\ forall k, k <> "id" -> Js.get after k = Js.get before k.
Proof.
  intros Hm. unfold _resolvePlugin. cbn [JsOps.elems]. rewrite Hm.
  destruct (load_plugin name m) as [[esm m']|e] eqn:El; [|done].
  intros [= <- <-]. cbn [plugin_of Js.truthy].
  pose proof (PluginFacts.load_plugin_shaped _ _ _ El) as Hshape.
  rewrite (PluginFacts.load_plugin_ok _ _ Hshape) in El.
  injection El as <- <-.
  assert (Js.is_object m = true) as Hmobj.
  { unfold effective_plugin in Hshape. destruct m as [p|]; [|done].
    by destruct p. }
  assert (Js.is_object (effective_plugin m) = true) as Hobj.
  { destruct (effective_plugin m) as [|[]]; done. }
  assert (deref (ModuleExport name (Js.truthy (Js.get m "default")))
            (set_modules
               (<[name := if Js.truthy (Js.get m "default")
                          then Js.set m "default"
                                 (with_id name (Js.get m "default"))
                          else with_id name m]> (modules s)) s)
          = with_id name (effective_plugin m)) as ->.
  { unfold deref. cbn [modules set_modules]. rewrite lookup_insert_eq.
    cbn [default]. unfold effective_plugin.
    destruct (Js.truthy (Js.get m "default")); [|done].
    unfold id. by rewrite JsFacts.get_set_eq. }
  split; [|intros k Hk; by apply PluginFacts.with_id_get].
  unfold with_id. destruct (Js.truthy _) eqn:E; [done|].
  by rewrite JsFacts.get_set_eq.
Qed.

(** ** Registering a command again *)
Module ReplaceFacts.

(** Whatever the second argument, a command registered under a string is
    stored under the name of that string. *)
Lemma registerCommand_string argsert c y s s1 :
  registerCommand argsert [JStr c; y] s = (Ok tt, s1) ->
  exists e,
    e.(command) = c
    /\ s1 = set_registeredCommands
              (<[getCommandName c := e]> s.(registeredCommands)) s.
Proof.
  unfold registerCommand. cbn [arg nth Js.typeof_object].
  destruct (argsert _ _); [|done].
  unfold andThen, lift, update.
  destruct (Js.typeof_function y).
  - cbn [JsOps.as_string]. intros [= <-].
    eexists; split; [|reflexivity]; reflexivity.
  - destruct (module_fields y) as [[[[d b] h] m]|e]; [|done].
    cbn [mbind result_bind JsOps.as_string]. intros [= <-].
    eexists; split; [|reflexivity]; reflexivity.
Qed.

End ReplaceFacts.

(** X13.  Commands are stored under their name alone: registering a second
    command string with the same name replaces the first entry, whatever
    its arguments and handler were, and leaves one entry under that name. *)
Theorem registerCommand_same_name_replaces
    (argsert : string -> list jsval -> bool) (c1 c2 : string) (y1 : jsval)
    (f2 : nat) (fps2 : props) (s s1 s2 : Service) :
  getCommandName c1 = getCommandName c2 ->
  registerCommand argsert [JStr c1; y1] s = (Ok tt, s1) ->
  registerCommand argsert [JStr c2; JObj (KFunction f2) fps2] s1 = (Ok tt, s2) ->
  s2.(registeredCommands)
  = <[getCommandName c2 := plain_entry c2 f2]> s.(registeredCommands).
Proof.
  intros Hname H1 H2.
  destruct (ReplaceFacts.registerCommand_string _ _ _ _ _ H1) as (e1 & _ & ->).
  revert H2. unfold registerCommand. cbn [arg nth Js.typeof_object].
  destruct (argsert _ _); [|done].
  unfold andThen, lift, update. cbn [Js.typeof_function JsOps.as_string].
  intros [= <-]. cbn [registeredCommands set_registeredCommands].
  rewrite Hname. apply insert_insert_eq.
Qed.

Section BuilderWriteBack.

Context {W : Type}.
Variable call : nat -> jsval -> W -> result jsval * W.
Variable argsert : string -> list jsval -> bool.
Variable cli_parse : string -> list string -> option jsval.
Variable cli_0 : string.

(** X14.  [runCommand] assigns the options of the command to the flags
    object that is in the registry: afterwards the registered flags of the
    command hold every option of its builder, with the value of the
    builder, beside the contributed flags of other names.  This happens
    whether or not the arguments pass the check and the parser runs the
    handler; the commands and the flag handlers stay as they are. *)
Theorem runCommand_assigns_builder_to_flags (cmd : string)
    (rawArgs : list string) (c : CommandEntry) (kd : objkind) (ps : props)
    (s : Service) (w : W) :
  s.(registeredCommands) !! cmd = Some c ->
  s.(registeredCommandFlags) !! cmd = Some (JObj kd ps) ->
  NoDup (Js.own_props c.(builder)).*1 ->
  let s1 := (runCommand call argsert cli_parse cli_0 cmd rawArgs s w).1.1.1.2 in
  let flags := default JUndefined (s1.(registeredCommandFlags) !! cmd) in
  (forall k,
     Js.get flags k
     = match Js.lookup k (Js.own_props c.(builder)) with
       | Some v => v
       | None => Js.get (JObj kd ps) k
       end)
  /\ (forall other, other <> cmd ->
        s1.(registeredCommandFlags) !! other = s.(registeredCommandFlags) !! other)
  /\ s1.(registeredCommands) = s.(registeredCommands)
  /\ s1.(registeredCommandHandlers) = s.(registeredCommandHandlers).
Proof.
  intros Hc Hf Hnd s1 flags.
  assert (s1 = set_flags (<[cmd := builder_of s cmd c]> s.(registeredCommandFlags))
                 s.(registeredCommandHandlers) s) as Hs1.
  { subst s1. unfold runCommand. rewrite Hc, Hf.
    destruct (argsert _ _); [|done].
    destruct (cli_parse _ _); [|done].
    by destruct (composite_handler _ _ _ _ _) as [[[? ?] ?] ?]. }
  subst flags. rewrite Hs1. cbn [registeredCommandFlags set_flags
    registeredCommands registeredCommandHandlers].
  split; [|split; [|done]].
  - intros k. rewrite lookup_insert_eq. cbn [default].
    unfold builder_of. rewrite Hf. cbn [default Js.get].
    assert (Js.own_props (JsOps.or c.(builder) (Js.obj [])) = Js.own_props c.(builder))
      as ->.
    { unfold JsOps.or. destruct (Js.truthy (builder c)) eqn:E; [done|].
      destruct (builder c) as [[| |b|n|t]|]; try done. by destruct t. }
    unfold id. cbn [Js.get]. rewrite FlagFacts.lookup_assign_all by done.
    by destruct (Js.lookup k (Js.own_props (builder c))).
  - intros other Hne. by rewrite lookup_insert_ne.
Qed.

End BuilderWriteBack.

(** ** Webpack callbacks *)
Section ChainFacts.

Context {Chain : Type}.
Variable new_Config : Chain.
Variable toConfig : Chain -> jsval.
Variable chain_code : nat -> Chain -> result Chain.
Variable raw_code : nat -> jsval -> result (jsval * jsval).

Lemma apply_chains_app (a b : list jsval) (c : Chain) :
  apply_chains chain_code (a ++ b) c
  = c1 ← apply_chains chain_code a c; apply_chains chain_code b c1.
Proof.
  revert c. induction a as [|fn a IH]; intros c; [done|].
  cbn [app apply_chains].
  destruct (JsOps.as_function fn) as [f|e]; [|done]. cbn [mbind result_bind].
  destruct (chain_code f c) as [c1|e]; [|done]. cbn [mbind result_bind].
  apply IH.
Qed.

Lemma apply_chains_not_function (pre post : list jsval) (fn : jsval) (c : Chain) :
  Js.typeof_function fn = false ->
  is_ok (apply_chains chain_code (pre ++ fn :: post) c) = false.
Proof.
  intros Hfn. rewrite apply_chains_app.
  destruct (apply_chains chain_code pre c) as [c1|e]; [|done].
  cbn [mbind result_bind apply_chains].
  by destruct fn as [|[]].
Qed.

Variable argsert : string -> list jsval -> bool.
Variable plugin_code : nat -> jsval -> jsval -> list PluginOp.

(** X15.  [init] pushes [projectOptions.chainWebpack] whenever it is
    truthy, without looking at its type; when it is not a function, the
    chainable configuration can no longer be resolved: both
    [resolveChainableWebpackConfig] and [resolveWebpackConfig] with its
    default argument throw, whatever [webpack-merge] does. *)
Theorem chainWebpack_not_function_breaks_resolve (m : jsval) (s s1 : Service)
    (webpackMerge : jsval -> jsval -> jsval) :
  s.(initialized) = false ->
  Js.truthy (Js.get s.(projectOptions) "chainWebpack") = true ->
  Js.typeof_function (Js.get s.(projectOptions) "chainWebpack") = false ->
  init argsert plugin_code m s = (Ok tt, s1) ->
  is_ok (resolveChainableWebpackConfig new_Config chain_code s1).1 = false
  /\ is_ok (resolveWebpackConfig new_Config toConfig chain_code raw_code
              webpackMerge None s1).1 = false.
Proof.
  intros Hinit Ht Hfn Hrun.
  destruct (init_ok_state argsert plugin_code m s s1 Hinit Hrun)
    as (sa & _ & Hs1).
  rewrite Ht in Hs1. cbv zeta in Hs1.
  assert (s1.(webpackChainFns)
          = (sa.(webpackChainFns)
             ++ Js.get s.(projectOptions) "chainWebpack" :: [])%list) as Hc.
  { rewrite Hs1.
    by destruct (Js.truthy (Js.get (projectOptions s) "configureWebpack")). }
  assert (is_ok (apply_chains chain_code (webpackChainFns s1) new_Config) = false)
    as Hfail.
  { rewrite Hc. by apply apply_chains_not_function. }
  split; [exact Hfail|].
  unfold resolveWebpackConfig, andThen, resolveChainableWebpackConfig.
  by destruct (apply_chains chain_code (webpackChainFns s1) new_Config).
Qed.

End ChainFacts.

Section RawFacts.

Context {Chain : Type}.
Variable new_Config : Chain.
Variable toConfig : Chain -> jsval.
Variable chain_code : nat -> Chain -> result Chain.
Variable raw_code : nat -> jsval -> result (jsval * jsval).

(** As long as nothing is given to merge, the loop neither replaces the
    configuration nor asks [webpack-merge]. *)
Lemma apply_raw_nothing_to_merge (merge merge' : jsval -> jsval -> jsval)
    (fns : list jsval) (st : rawState) :
  Forall (nothing_to_merge raw_code) fns ->
  apply_raw raw_code merge fns st = apply_raw raw_code merge' fns st
  /\ forall st', apply_raw raw_code merge fns st = Ok st' ->
       replaced st' = replaced st.
Proof.
  intros Hall. revert st.
  induction Hall as [|fn fns Hfn Hall IH]; intros st.
  { split; [done|]. by intros st' [= <-]. }
  cbn [apply_raw].
  assert (apply_raw_fn raw_code merge fn st = apply_raw_fn raw_code merge' fn st
          /\ forall st1, apply_raw_fn raw_code merge fn st = Ok st1 ->
               replaced st1 = replaced st) as [Heq Hrep].
  { unfold apply_raw_fn. destruct fn as [p|[| |f|b] ps];
      cbn [nothing_to_merge] in Hfn; try done.
    - rewrite Hfn. split; [done|]. by intros st1 [= <-].
    - destruct (raw_code f (config st)) as [[c1 res]|e] eqn:E; [|done].
      cbn [mbind result_bind]. rewrite (Hfn _ _ _ E).
      split; [done|]. by intros st1 [= <-]. }
  rewrite <- Heq.
  destruct (apply_raw_fn raw_code merge fn st) as [st1|e]; [|done].
  cbn [mbind result_bind]. destruct (IH st1) as [IH1 IH2].
  split; [exact IH1|]. intros st' H. rewrite (IH2 _ H). by apply Hrep.
Qed.

(** X16.  When no raw callback returns a value and no literal is given to
    merge, [resolveWebpackConfig] never merges: its outcome does not
    depend on [webpack-merge], and the configuration it returns is the one
    the callbacks have worked on, without a pass over the rule names. *)
Theorem resolveWebpackConfig_without_merge (merge merge' : jsval -> jsval -> jsval)
    (chainableConfig : Chain) (s : Service) :
  s.(initialized) = true ->
  Forall (nothing_to_merge raw_code) s.(webpackRawConfigFns) ->
  let c := toConfig chainableConfig in
  let run := apply_raw raw_code merge s.(webpackRawConfigFns)
               {| config := c; original := c; replaced := false |} in
  resolveWebpackConfig new_Config toConfig chain_code raw_code merge
    (Some chainableConfig) s
  = (st ← run; Ok st.(config), s)
  /\ resolveWebpackConfig new_Config toConfig chain_code raw_code merge'
       (Some chainableConfig) s
     = resolveWebpackConfig new_Config toConfig chain_code raw_code merge
         (Some chainableConfig) s.
Proof.
  intros Hinit Hall c run.
  unfold resolveWebpackConfig, andThen, returns. rewrite Hinit. cbn [negb].
  fold c.
  destruct (apply_raw_nothing_to_merge merge merge' _
              {| config := c; original := c; replaced := false |} Hall)
    as [Heq Hrep].
  rewrite <- Heq. fold run in Hrep |- *.
  destruct run as [st|e]; [|done].
  cbn [mbind result_bind]. unfold restore_rule_names.
  by rewrite (Hrep st eq_refl).
Qed.

End RawFacts.

(** ** Rule names *)
Module CloneFrame.

Lemma define_on_other t r t1 q :
  q <> "__ruleNames" ->
  RuleNames.define_on t r = Ok t1 -> Js.get t1 q = Js.get t q.
Proof.
  intros Hq. unfold RuleNames.define_on.
  destruct r as [[]|]; try done;
    (destruct t as [|kd ps]; [done|]; intros [= <-]; simpl;
     by rewrite JsFacts.lookup_assign_ne).
Qed.

Lemma for_each_rule_frame rec k r to to1 i q :
  q <> "__ruleNames" -> q <> "oneOf" ->
  RuleNames.for_each_rule rec k r to = Ok to1 ->
  Js.get (Js.get to1 i) q = Js.get (Js.get to i) q.
Proof.
  intros H1 H2. unfold RuleNames.for_each_rule.
  destruct (Js.truthy (Js.get to k)) eqn:Et; [|by intros [= <-]].
  destruct (RuleNames.define_on (Js.get to k) r) as [t1|e] eqn:Ed; [|done].
  cbn [mbind result_bind].
  destruct (rec (Js.get t1 "oneOf")) as [o|e]; [|done].
  cbn [mbind result_bind]. intros [= <-].
  assert (Js.is_object to = true) as Hto.
  { apply (JsFacts.get_object to k). revert Ed. unfold RuleNames.define_on.
    destruct r as [[]|]; destruct (Js.get to k); done. }
  destruct (String.eqb_spec i k) as [->|Hne].
  - rewrite JsFacts.get_set_eq by done.
    destruct (Js.truthy (Js.get t1 "oneOf")).
    + rewrite JsFacts.get_set_ne by done. by apply (define_on_other _ r).
    + by apply (define_on_other _ r).
  - by rewrite JsFacts.get_set_ne.
Qed.

Lemma each_rule_frame rs to to' i q :
  q <> "__ruleNames" -> q <> "oneOf" ->
  each_rule rs to = Ok to' ->
  Js.get (Js.get to' i) q = Js.get (Js.get to i) q.
Proof.
  intros H1 H2. revert to.
  induction rs as [|[k r] rest IH]; intros to; [by intros [= <-]|].
  cbn [each_rule].
  destruct (RuleNames.for_each_rule _ k r to) as [to1|e] eqn:E; [|done].
  cbn [mbind result_bind]. intros H.
  rewrite (IH _ H). by apply (for_each_rule_frame _ _ _ _ _ _ _ H1 H2 E).
Qed.

End CloneFrame.

(** X17.  [cloneRuleNames] changes nothing but the annotation and the
    nested rules: when it returns, every rule of [to] has the properties it
    had, except [__ruleNames] and [oneOf]. *)
Theorem cloneRuleNames_keeps_other_properties (to from to' : jsval)
    (i q : string) :
  cloneRuleNames to from = Ok to' ->
  q <> "__ruleNames" -> q <> "oneOf" ->
  Js.get (Js.get to' i) q = Js.get (Js.get to i) q.
Proof.
  unfold cloneRuleNames. intros H H1 H2.
  destruct (Js.truthy to) eqn:Et.
  - destruct from as [p|kd rs].
    + cbn [cloneRuleNames_from] in H. rewrite Et in H. cbn [negb orb] in H.
      destruct (negb (Js.truthy (JPrim p))); [|done]. by injection H as <-.
    + destruct kd;
        try (cbn [cloneRuleNames_from] in H; rewrite Et in H; done).
      rewrite RuleFacts.clone_array in H by done.
      by apply (CloneFrame.each_rule_frame rs).
  - rewrite RuleFacts.clone_nothing_to in H by done. by injection H as <-.
Qed.

(** On a string, the loop finds a character at the index of a rule, and
    the annotation cannot be defined on it. *)
Example cloneRuleNames_string_target :
  cloneRuleNames (JStr "abc") (Js.array [Js.obj [("test", JStr "js")]])
  = Throw (TypeError "Object.defineProperty").
Proof. vm_compute. reflexivity. Qed.

(** ** More on the project options *)
Module FinishFacts.

Lemma loadProjectOptions_merged h cwd init cf c log :
  merged_options h cwd init cf = (Ok c, log) ->
  loadProjectOptions h cwd init cf = (Ok (normalize_paths c), log).
Proof. intros H. unfold loadProjectOptions. by rewrite H. Qed.





Lemma strip_trail_slash_spec s :
  if JsString.ends_with "/" s
  then s = JsString.strip_trail_slash s ++ "/"
  else JsString.strip_trail_slash s = s.
Proof.
  induction s as [|c r IH]; [done|].
  destruct r as [|c' r'].
  - cbn [JsString.ends_with JsString.strip_trail_slash].
    destruct (Ascii.eqb_spec c "/") as [->|_]; done.
  - change (JsString.ends_with "/" (String c (String c' r')))
      with (JsString.ends_with "/" (String c' r')).
    change (JsString.strip_trail_slash (String c (String c' r')))
      with (String c (JsString.strip_trail_slash (String c' r'))).
    destruct (JsString.ends_with "/" (String c' r')).
    + rewrite CommandNameFacts.app_cons. by rewrite <- IH.
    + by rewrite IH.
Qed.

Lemma normalize_paths_outputDir c :
  Js.is_object c = true ->
  Js.get (normalize_paths c) "outputDir"
  = match Js.get c "outputDir" with
    | JPrim (PStr s) => JStr (JsString.strip_trail_slash s)
    | v => v
    end.
Proof.
  intros Hc. unfold normalize_paths, removeSlash.
  set (c1 := match Js.get (ensureSlash c "publicPath") "publicPath" with
             | JPrim (PStr s) =>
                 Js.set (ensureSlash c "publicPath") "publicPath"
                   (JStr (JsString.strip_dot_slash s))
             | _ => ensureSlash c "publicPath"
             end).
  assert (Js.is_object c1 = true /\ Js.get c1 "outputDir" = Js.get c "outputDir")
    as [Hobj Hget].
  { subst c1. unfold ensureSlash.
    destruct (Js.get c "publicPath") as [[]|] eqn:E; rewrite ?E; try done.
    rewrite JsFacts.get_set_eq by done.
    rewrite JsFacts.set_is_object, JsFacts.set_is_object.
    by rewrite !JsFacts.get_set_ne. }
  rewrite Hget. destruct (Js.get c "outputDir") as [[]|] eqn:E;
    rewrite ?Hget, ?E; try done.
  by rewrite JsFacts.get_set_eq.
Qed.

Lemma finish_options_css h cwd c c' :
  finish_options h cwd c = Ok c' ->
  exists c1, with_postcss h cwd c = Ok c1 /\ Js.get c' "css" = Js.get c1 "css".
Proof.
  intros H.
  destruct (MergeFacts.finish_options_inv _ _ _ _ H) as (c1 & c2 & H1 & H2 & ->).
  exists c1. split; [done|].
  rewrite OptionsFacts.normalize_paths_other by done.
  by apply (MergeFacts.with_browserslist_other h cwd).
Qed.

(** The options are completed unless a search throws. *)
Lemma finish_options_returns h cwd c :
  is_ok (h.(search_postcss) (h.(resolve) cwd ".")) = true ->
  is_ok (h.(search_browserslist) (h.(resolve) cwd ".")) = true ->
  is_ok (finish_options h cwd c) = true.
Proof.
  intros H1 H2. destruct (finish_options h cwd c) as [c'|e] eqn:E; [done|].
  destruct (MergeFacts.finish_options_throws _ _ _ _ E) as [H|H];
    [by rewrite H in H1|by rewrite H in H2].
Qed.

End FinishFacts.


(** X19.  [outputDir] loses one trailing slash and no more: a string that
    ends with a slash comes back without this slash (so "dist//" comes back
    as "dist/"), any other string and anything that is not a string comes
    back as it is. *)
Theorem loadProjectOptions_outputDir (h : Host) (cwd : string)
    (init cf c : jsval) (log : list logline) :
  merged_options h cwd init cf = (Ok c, log) ->
  exists c',
    loadProjectOptions h cwd init cf = (Ok c', log)
    /\ match Js.get c "outputDir" with
       | JPrim (PStr s) =>
           exists out, Js.get c' "outputDir" = JStr out
                       /\ if JsString.ends_with "/" s
                          then s = out ++ "/" else out = s
       | v => Js.get c' "outputDir" = v
       end.
Proof.
  intros Hm. exists (normalize_paths c).
  split; [by apply FinishFacts.loadProjectOptions_merged|].
  rewrite FinishFacts.normalize_paths_outputDir
    by (eapply OptionsFacts.merged_options_is_object; exact Hm).
  destruct (Js.get c "outputDir") as [[| | | |s]|]; try done.
  eexists. split; [reflexivity|]. apply FinishFacts.strip_trail_slash_spec.
Qed.

(** X20.  A [publicPath] that is an http or https URL keeps its beginning:
    it comes back as it is when it ends with a slash, and with one slash
    added otherwise. *)
Theorem publicPath_url_kept (h : Host) (cwd : string)
    (init cf c : jsval) (log : list logline) (s : string) :
  merged_options h cwd init cf = (Ok c, log) ->
  Js.get c "publicPath" = JStr s ->
  JsString.is_http s = true ->
  exists c',
    loadProjectOptions h cwd init cf = (Ok c', log)
    /\ Js.get c' "publicPath"
       = JStr (if JsString.ends_with "/" s then s else s ++ "/").
Proof.
  intros Hm Hs Hhttp. exists (normalize_paths c).
  split; [by apply FinishFacts.loadProjectOptions_merged|].
  rewrite OptionsFacts.normalize_paths_publicPath
    by (eapply OptionsFacts.merged_options_is_object; exact Hm).
  rewrite Hs. cbn [normal_publicPath]. rewrite Hhttp.
  assert (s <> "") as Hne by (by intros ->).
  rewrite SlashFacts.trail_slash_spec by done.
  assert (exists r, s = String "h" r) as [r ->].
  { unfold JsString.is_http in Hhttp. destruct s as [|a r]; [done|].
    apply orb_true_iff in Hhttp as [Hh|Hh]; cbn [JsString.starts_with] in Hh;
      apply andb_true_iff in Hh as [Ha _]; apply Ascii.eqb_eq in Ha;
      subst a; by exists r. }
  destruct (JsString.ends_with "/" (String "h" r)); [done|].
  by rewrite CommandNameFacts.app_cons.
Qed.

Section ConfigFile.

Variable h : Host.
Variable cwd : string.

(** X21.  A configuration file that is named but does not exist is not
    required: [loadProjectOptions] warns that it does not exist and goes
    on exactly as when no file is named, with the search from the working
    directory. *)
Theorem missing_config_file_falls_back (init : jsval) (f : string) :
  f <> "" ->
  h.(existsSync) (if h.(isAbsolute) f then f else h.(resolve) cwd f) = false ->
  loadProjectOptions h cwd init (JStr f)
  = ((loadProjectOptions h cwd init JFalse).1,
     LogWarn "config-file" (f ++ " is not exists!")
       :: (loadProjectOptions h cwd init JFalse).2).
Proof.
  intros Hf Hex. unfold loadProjectOptions, merged_options, explicit_config.
  assert (Js.truthy (JStr f) = true) as ->.
  { cbn [Js.truthy]. by destruct (String.eqb_spec f ""). }
  rewrite Hex. unfold find_config. cbn [Js.truthy].
  destruct (h.(search_san) cwd) as [found|e]; [|done].
  cbn [mbind result_bind].
  destruct (merge_found h _ _) as [r log2]. by destruct r.
Qed.

(** X22.  A configuration object that fails validation is rejected:
    [loadProjectOptions] logs the error under the path of the file and
    throws an [SError] with the validation error, both for a file named
    explicitly and for one found by the search. *)
Theorem invalid_config_rejected (init cf fp cfg : jsval) (e : string) :
  find_config h cwd cf (explicit_config h cwd cf).1 = Ok (fp, cfg) ->
  Js.truthy cfg = true ->
  Js.typeof_object cfg = true ->
  h.(validateOptions) cfg = Some e ->
  exists log,
    loadProjectOptions h cwd init cf
    = (Throw (SError e),
       (log ++ [LogError "loadProjectOptions" (show fp ++ ": invalid format")])%list).
Proof.
  intros Hfind Ht Ho Hv. unfold loadProjectOptions, merged_options.
  destruct (explicit_config h cwd cf) as [cf' log1]. cbn [fst] in Hfind.
  rewrite Hfind. unfold merge_found. rewrite Ht, Ho, Hv. cbn [negb].
  by exists log1.
Qed.

(** X23.  A configuration that is truthy but not an object (a function,
    a string) is reported and used all the same: [loadProjectOptions] logs
    the error, does not validate, and goes on with the value merged over
    the inline options and the defaults; it returns these options,
    completed, unless the search for a postcss or a browserslist
    configuration throws, and then it throws what the search threw. *)
Theorem non_object_config_still_merged (init cf fp cfg : jsval) :
  find_config h cwd cf (explicit_config h cwd cf).1 = Ok (fp, cfg) ->
  Js.truthy cfg = true ->
  Js.typeof_object cfg = false ->
  let merged :=
    Lodash.defaultsDeep cfg (Lodash.defaultsDeep init h.(defaultConfig)) in
  (exists log,
     loadProjectOptions h cwd init cf
     = (finish_options h cwd merged,
        (log ++ [LogError "loadProjectOptions"
                   (show fp ++ ": must be an object")])%list))
  /\ (is_ok (h.(search_postcss) (h.(resolve) cwd ".")) = true ->
      is_ok (h.(search_browserslist) (h.(resolve) cwd ".")) = true ->
      is_ok (finish_options h cwd merged) = true)
  /\ (forall e,
        finish_options h cwd merged = Throw e ->
        h.(search_postcss) (h.(resolve) cwd ".") = Throw e
        \/ h.(search_browserslist) (h.(resolve) cwd ".") = Throw e).
Proof.
  intros Hfind Ht Ho merged. split; [|split].
  - unfold loadProjectOptions, merged_options.
    destruct (explicit_config h cwd cf) as [cf' log1]. cbn [fst] in Hfind.
    rewrite Hfind. unfold merge_found. rewrite Ht, Ho. cbn [negb].
    cbn [mbind result_bind]. rewrite finish_merged. by exists log1.
  - apply FinishFacts.finish_options_returns.
  - intros e. apply MergeFacts.finish_options_throws.
Qed.

(** X24.  The postcss configuration that is searched for only fills a
    gap: when [css.postcss] is falsy, for [css] an object or a falsy value,
    the options come back whenever the two searches return, the search for
    a postcss configuration has returned whenever they come back, and the
    [css] options that come back hold every property that [css] had, a
    falsy [postcss] of its own included, and the configuration that was
    found only when [css] has no [postcss] property at all. *)
Theorem postcss_fills_gap_only (c0 : jsval) (k : string) :
  Js.is_object c0 = true ->
  let css := Js.get c0 "css" in
  Js.is_object css = true \/ Js.truthy css = false ->
  Js.truthy (and_prop css "postcss") = false ->
  NoDup (Js.own_props css).*1 ->
  (is_ok (h.(search_postcss) (h.(resolve) cwd ".")) = true ->
   is_ok (h.(search_browserslist) (h.(resolve) cwd ".")) = true ->
   is_ok (finish_options h cwd c0) = true)
  /\ forall c,
       finish_options h cwd c0 = Ok c ->
       exists found,
         h.(search_postcss) (h.(resolve) cwd ".") = Ok found
         /\ Js.get (Js.get c "css") k
            = match Js.lookup k (Js.own_props css) with
              | Some v => v
              | None =>
                  if String.eqb k "postcss" then default JUndefined found
                  else JUndefined
              end.
Proof.
  intros Hc css Hcss Hfalsy Hnd.
  split; [apply FinishFacts.finish_options_returns|].
  intros c Hfin.
  destruct (FinishFacts.finish_options_css _ _ _ _ Hfin) as (c1 & H1 & ->).
  revert H1. unfold with_postcss. fold css. rewrite Hfalsy.
  destruct (h.(search_postcss) _) as [found|e]; [|done].
  cbn [mbind result_bind]. intros [= <-]. exists found. split; [done|].
  rewrite JsFacts.get_set_eq by done.
  assert (Js.own_props (JsOps.or css (Js.obj [])) = Js.own_props css) as ->.
  { unfold JsOps.or. destruct (Js.truthy css) eqn:E; [done|].
    destruct css as [[| |b|n|t]|]; try done. by destruct t. }
  cbn [Js.obj Js.get]. rewrite FlagFacts.lookup_assign_all by done.
  destruct (Js.lookup k (Js.own_props css)); [done|].
  cbn [Js.lookup]. by destruct (String.eqb k "postcss").
Qed.

End ConfigFile.

(** ** More on the environment files *)
Module EnvMore.

Lemma lookup_both_defaults dn (e : gmap string jsval) k v :
  e !! k = Some v ->
  v <> JNull \/ (k <> "NODE_ENV" /\ k <> "BABEL_ENV") ->
  default_if_null dn "BABEL_ENV" (default_if_null dn "NODE_ENV" e) !! k = Some v.
Proof.
  intros Hk Hv. rewrite !EnvFacts.lookup_default_if_null.
  destruct Hv as [Hv|[H1 H2]].
  - repeat case_decide; subst; rewrite ?EnvFacts.lookup_default_if_null;
      repeat case_decide; try done; rewrite Hk; by destruct v as [[]|].
  - repeat case_decide; done.
Qed.

End EnvMore.

(** X25.  [loadEnv] never overwrites a variable that the process
    environment already has: after the call the variable has the value it
    had, whatever the env files say.  (The one exception is the [null] of
    [NODE_ENV] and [BABEL_ENV] under a mode.) *)
Theorem loadEnv_keeps_existing (eh : EnvHost) (cwd mode k : string)
    (env env' : gmap string jsval) (v : jsval) :
  loadEnv eh cwd mode env = Ok env' ->
  env !! k = Some v ->
  v <> JNull \/ (k <> "NODE_ENV" /\ k <> "BABEL_ENV") \/ mode = "" ->
  env' !! k = Some v.
Proof.
  unfold loadEnv. intros H Hk Hv.
  destruct (findExisting eh cwd _) as [envPath|]; [|by injection H as <-].
  destruct (load eh envPath) as [defaultEnv|]; [|done].
  set (env1 := env ∪ _) in H.
  assert (env1 !! k = Some v) as Hk1.
  { subst env1. by apply lookup_union_Some_l. }
  destruct (String.eqb_spec mode "") as [->|Hmode].
  - by injection H as <-.
  - injection H as <-. apply EnvMore.lookup_both_defaults; [done|].
    destruct Hv as [Hv|[Hv|Hv]]; [by left|by right|done].
Qed.

(** X26.  A variable that the process environment does not have gets
    the value of the env files, and the [.local] file wins over the file
    it stands beside: the value is that of the [.local] file when it
    defines the variable, and that of the other file otherwise. *)
Theorem loadEnv_local_wins (eh : EnvHost) (cwd mode k envPath : string)
    (defaultEnv : gmap string string) (env : gmap string jsval) :
  let modeEnvName := ".env" ++ (if String.eqb mode "" then "" else "." ++ mode) in
  eh.(findExisting) cwd [".san/" ++ modeEnvName; modeEnvName] = Some envPath ->
  eh.(readEnv) envPath = Parsed defaultEnv ->
  env !! k = None ->
  exists env',
    loadEnv eh cwd mode env = Ok env'
    /\ env' !! k
       = (fun v => JStr v) <$>
         match load eh (envPath ++ ".local") ≫= (.!! k) with
         | Some v => Some v
         | None => defaultEnv !! k
         end.
Proof.
  intros modeEnvName Hfind Hread Hk. unfold loadEnv. fold modeEnvName.
  rewrite Hfind.
  assert (load eh envPath = Some defaultEnv) as ->
    by (unfold load; by rewrite Hread).
  set (envObj := default ∅ (load eh (envPath ++ ".local")) ∪ defaultEnv).
  assert ((env ∪ ((fun v => JStr v) <$> envObj)) !! k
          = (fun v => JStr v) <$>
            match load eh (envPath ++ ".local") ≫= (.!! k) with
            | Some v => Some v
            | None => defaultEnv !! k
            end) as Hget.
  { rewrite lookup_union, Hk, lookup_fmap. subst envObj.
    rewrite lookup_union.
    destruct (load eh (envPath ++ ".local")) as [l|]; cbn [default mbind option_bind].
    - unfold id. destruct (l !! k), (defaultEnv !! k); done.
    - rewrite lookup_empty. by destruct (defaultEnv !! k). }
  destruct (String.eqb mode "").
  - by eexists.
  - eexists. split; [done|].
    rewrite !EnvFacts.lookup_default_if_null.
    repeat case_decide; subst; rewrite ?EnvFacts.lookup_default_if_null;
      repeat case_decide; try done; rewrite ?Hget;
      destruct (match load eh (envPath ++ ".local") ≫= (.!! _) with
                | Some v => Some v
                | None => defaultEnv !! _
                end); done.
Qed.

(** X27.  [loadEnv] fails in one case only: an env file is found for the
    mode but cannot be read and parsed.  Without any env file, and with a
    readable one whatever the [.local] file is, it returns. *)
Theorem loadEnv_fails_iff_unreadable (eh : EnvHost) (cwd mode : string)
    (env : gmap string jsval) :
  let modeEnvName := ".env" ++ (if String.eqb mode "" then "" else "." ++ mode) in
  is_ok (loadEnv eh cwd mode env) = false
  <-> exists envPath,
        eh.(findExisting) cwd [".san/" ++ modeEnvName; modeEnvName] = Some envPath
        /\ load eh envPath = None.
Proof.
  intros modeEnvName. unfold loadEnv. fold modeEnvName.
  destruct (findExisting eh cwd _) as [envPath|].
  - destruct (load eh envPath) as [defaultEnv|] eqn:E.
    + split.
      * by destruct (String.eqb mode "").
      * intros (p & [= <-] & Hp). by rewrite E in Hp.
    + split; [|done]. intros _. by exists envPath.
  - split; [done|]. by intros (p & Hp & _).
Qed.


(** ** Names are normal forms *)

(** X28.  The name of a command is a normal form: [getCommandName] gives
    the same string when it is applied to its own result, so the keys of
    the registries are names of themselves. *)
Theorem getCommandName_idempotent (command : string) :
  getCommandName (getCommandName command) = getCommandName command.
Proof.
  destruct (NameFacts.getCommandName_is_head command) as (c & Hc & Hs & ->).
  by apply NameFacts.getCommandName_head.
Qed.

(** ** The entry point *)
Section EntryFacts.

Context {W : Type}.
Variable call : nat -> jsval -> W -> result jsval * W.
Variable argsert : string -> list jsval -> bool.
Variable cli_parse : string -> list string -> option jsval.
Variable cli_0 : string.
Variable plugin_code : nat -> jsval -> jsval -> list PluginOp.
Variable h : Host.
Variable eh : EnvHost.

(** [runCommand] changes the registered flags at most. *)
Lemma runCommand_service cmd rawArgs (s : Service) (w : W) :
  let s1 := (runCommand call argsert cli_parse cli_0 cmd rawArgs s w).1.1.1.2 in
  s1 = s \/ exists fm, s1 = set_flags fm s.(registeredCommandHandlers) s.
Proof.
  unfold runCommand.
  destruct (registeredCommands s !! cmd) as [c|]; [|by left].
  set (s1 := match registeredCommandFlags s !! cmd with
             | Some _ => _
             | None => s
             end).
  assert (s1 = s \/ exists fm, s1 = set_flags fm s.(registeredCommandHandlers) s)
    as Hs1.
  { subst s1. destruct (registeredCommandFlags s !! cmd); [right|by left].
    by eexists. }
  destruct (argsert _ _); [|done].
  destruct (cli_parse _ _); [|done].
  by destruct (composite_handler _ _ _ _ _) as [[[? ?] ?] ?].
Qed.

(** The fields of the service after a first [init] that returns. *)
Lemma init_ok_fields (m : jsval) (s s1 : Service) :
  s.(initialized) = false ->
  init argsert plugin_code m s = (Ok tt, s1) ->
  s1.(initialized) = true
  /\ s1.(mode) = m
  /\ s1.(projectOptions) = s.(projectOptions)
  /\ exists added, s1.(plugins) = (s.(plugins) ++ added)%list.
Proof.
  intros Hs H.
  destruct (init_ok_state argsert plugin_code m s s1 Hs H) as (sa & E & ->).
  pose proof (preserves_init_each argsert plugin_code initialized
                FrameInstances.beside_initialized _ _ _ _ E) as H1.
  pose proof (preserves_init_each argsert plugin_code mode
                FrameInstances.beside_mode _ _ _ _ E) as H2.
  pose proof (preserves_init_each argsert plugin_code projectOptions
                FrameInstances.beside_projectOptions _ _ _ _ E) as H3.
  destruct (init_each_plugins _ _ _ _ _ _ E) as [added H4].
  cbn [initialized mode projectOptions plugins set_mode set_initialized]
    in H1, H2, H3, H4.
  destruct (Js.truthy (Js.get (projectOptions s) "chainWebpack")),
           (Js.truthy (Js.get (projectOptions s) "configureWebpack"));
    cbn [initialized mode projectOptions plugins set_webpackChainFns
         set_webpackRawConfigFns];
    (split; [done|]; split; [done|]; split; [done|]; by exists added).
Qed.

(** The service after the progress plugin has been added. *)
Lemma addPlugin_progress name (s s1 : Service) :
  addPlugin [JStr name] s = (Ok tt, s1) ->
  exists esm mods,
    s1 = set_plugins
           (s.(plugins)
            ++ [PluginWithOptions (ModuleExport name esm) (Js.obj [])])%list
           (set_modules mods s).
Proof.
  unfold addPlugin, andThen, update. cbn [arg nth].
  unfold _resolvePlugin. rewrite AddPluginFacts.elems_array.
  destruct (modules s !! name) as [m|]; [|done].
  destruct (load_plugin name m) as [[esm m']|e]; [|done].
  cbn [Js.truthy Js.obj]. intros [= <-]. by exists esm, (<[name:=m']> (modules s)).
Qed.

(** X29.  [run] needs a logger: when [argv._logger] is not a function
    (as with the default [argv = {}]) and the environment and the project
    options load, [run] fails with a [TypeError] after both have been
    loaded; the environment is the loaded one, but the project options of
    the service are not set, no plugin is added, the service is not
    initialized and no command is run. *)
Theorem run_without_logger (cmd : string) (argv : jsval)
    (rawArgv : list string) (st : Run.state W) (m : string)
    (env1 : gmap string jsval) (c : jsval) :
  let a := argv_of argv in
  let s := st.(Run.service) in
  a <> JNull ->
  run_mode cmd a = JStr m ->
  loadEnv eh s.(cwd) m st.(Run.env) = Ok env1 ->
  (loadProjectOptions h s.(cwd) s.(initProjectOptions)
     (Js.get a "configFile")).1 = Ok c ->
  Js.typeof_function (Js.get a "_logger") = false ->
  exists st' log,
    run call argsert cli_parse cli_0 plugin_code h eh cmd argv rawArgv st
    = Some (Throw (TypeError "not a function"), st', [], log)
    /\ st'.(Run.env) = env1
    /\ st'.(Run.world) = st.(Run.world)
    /\ st'.(Run.service).(projectOptions) = s.(projectOptions)
    /\ st'.(Run.service).(initialized) = s.(initialized)
    /\ st'.(Run.service).(plugins) = s.(plugins).
Proof.
  intros a s Ha Hmode Henv Hopts Hlog. unfold run. fold a. fold s.
  assert (JsOps.prop a "_version" = Ok (Js.get a "_version")) as ->.
  { unfold JsOps.prop. destruct a as [[]|] eqn:E; try done.
    unfold a, argv_of in E. by destruct argv as [[]|]. }
  rewrite Hmode, Henv.
  destruct (loadProjectOptions h (cwd s) (initProjectOptions s)
              (Js.get a "configFile")) as [r log].
  cbn [fst] in Hopts. subst r.
  assert (log_options call (Js.get a "_logger") c (Run.world st)
          = (Throw (TypeError "not a function"), Run.world st)) as ->.
  { unfold log_options. by destruct (Js.get a "_logger") as [|[]]. }
  eexists _, log. split; [reflexivity|]. done.
Qed.

(** X30.  When [run] returns on a service that was not initialized, the
    service has been prepared in this order: the environment is the one
    loaded for the mode ([argv.mode], else development for [build] with
    [argv.watch], else production), the project options of the service
    are the ones loaded with [argv.configFile], the progress plugin stands
    right after the plugins the service had unless [argv.noProgress], and
    the service is initialized in that mode. *)
Theorem run_prepares_service (cmd : string) (argv : jsval)
    (rawArgv : list string) (st st' : Run.state W) (tr : list event)
    (log : list logline) :
  let a := argv_of argv in
  let s := st.(Run.service) in
  let s' := st'.(Run.service) in
  s.(initialized) = false ->
  run call argsert cli_parse cli_0 plugin_code h eh cmd argv rawArgv st
  = Some (Ok tt, st', tr, log) ->
  s'.(initialized) = true
  /\ s'.(mode) = run_mode cmd a
  /\ (exists m, run_mode cmd a = JStr m
                /\ loadEnv eh s.(cwd) m st.(Run.env) = Ok st'.(Run.env))
  /\ (loadProjectOptions h s.(cwd) s.(initProjectOptions)
        (Js.get a "configFile")).1 = Ok s'.(projectOptions)
  /\ exists esm added,
       s'.(plugins)
       = (s.(plugins)
          ++ (if Js.truthy (Js.get a "noProgress") then []
              else [PluginWithOptions (ModuleExport "../plugins/progress" esm)
                      (Js.obj [])])
          ++ added)%list.
Proof.
  intros a s s' Hs. unfold run. fold a. fold s.
  destruct (JsOps.prop a "_version") as [version|e]; [|done].
  destruct (run_mode cmd a) as [[| | | |m]|] eqn:Hmode; try done.
  destruct (loadEnv eh (cwd s) m (Run.env st)) as [env1|e] eqn:Henv; [|done].
  destruct (loadProjectOptions h (cwd s) (initProjectOptions s)
              (Js.get a "configFile")) as [[c|e] log1] eqn:Hopts; [|done].
  destruct (log_options call (Js.get a "_logger") c (Run.world st))
    as [[[]|e] w1]; [|done].
  set (s1 := set_initProjectOptions _ s).
  destruct (prepare argsert plugin_code c (Js.get a "noProgress") (JStr m) s1)
    as [[[]|e] s2] eqn:Hprep; [|done].
  pose proof (runCommand_service cmd rawArgv s2 w1) as Hrun. cbv zeta in Hrun.
  destruct (runCommand call argsert cli_parse cli_0 cmd rawArgv s2 w1)
    as [[[[r s3] w2] tr2] log2].
  cbn [fst snd] in Hrun. intros [= -> <- <- <-].
  subst s'. cbn [Run.service Run.env].
  (* the service after [prepare] *)
  assert (s2.(initialized) = true /\ s2.(mode) = JStr m
          /\ s2.(projectOptions) = c
          /\ exists esm added,
               s2.(plugins)
               = (s.(plugins)
                  ++ (if Js.truthy (Js.get a "noProgress") then []
                      else [PluginWithOptions
                              (ModuleExport "../plugins/progress" esm)
                              (Js.obj [])])
                  ++ added)%list) as (H1 & H2 & H3 & esm & added & H4).
  { revert Hprep. unfold prepare, andThen, update.
    destruct (Js.truthy (Js.get a "noProgress")).
    - unfold returns. intros Hinit.
      destruct (init_ok_fields _ _ _ (Hs : initialized (set_projectOptions c s1)
                                           = false) Hinit)
        as (? & ? & ? & added & ?).
      split; [done|]. split; [done|]. split; [done|]. by exists false, added.
    - destruct (addPlugin _ _) as [[[]|e] sp] eqn:Hadd; [|done].
      destruct (addPlugin_progress _ _ _ Hadd) as (esm & mods & ->).
      intros Hinit.
      match type of Hinit with
      | init _ _ _ ?sp = _ =>
          destruct (init_ok_fields _ _ _ (Hs : initialized sp = false) Hinit)
            as (? & ? & ? & added & Hp)
      end.
      split; [done|]. split; [done|]. split; [done|]. exists esm, added.
      rewrite Hp. cbn [plugins set_plugins]. by rewrite <- app_assoc. }
  assert (s3.(initialized) = s2.(initialized) /\ s3.(mode) = s2.(mode)
          /\ s3.(projectOptions) = s2.(projectOptions)
          /\ s3.(plugins) = s2.(plugins)) as (G1 & G2 & G3 & G4).
  { by destruct Hrun as [->|[fm ->]]. }
  rewrite G1, G2, G3, G4.
  split; [done|]. split; [done|]. split; [by exists m|].
  split; [cbn [fst]; by rewrite H3|].
  by exists esm, added.
Qed.

End EntryFacts.
(** ** Worked instances *)

Lemma registered_command_runs_witness :
  exists s1,
    registerCommand SampleService.accept
      [JStr "build <entry>"; SampleService.fn 10] SampleService.ready
    = (Ok tt, s1)
    /\ runCommand SampleService.call_quiet SampleService.accept
         SampleService.parse SampleService.cli_0 "build" ["src"] s1 []
       = (Ok tt, s1, [10],
          [HandlerCalled (UserHandler 10) SampleMore.argv], []).
Proof.
  destruct (registered_command_runs SampleService.call_quiet
              SampleService.accept SampleService.parse SampleService.cli_0 "build"
              [(" ", Required "entry")] 10 ["src"] SampleMore.argv
              SampleService.ready [])
    as (s1 & Hreg & Hrun); [vm_compute; reflexivity..|].
  exists s1. split; [exact Hreg|exact Hrun].
Defined.

Lemma full_command_string_not_found_witness :
  exists s1,
    registerCommand SampleService.accept
      [JStr "build <entry>"; SampleService.fn 10] SampleService.ready
    = (Ok tt, s1)
    /\ runCommand SampleService.call_quiet SampleService.accept
         SampleService.parse SampleService.cli_0 "build <entry>" ["src"] s1 []
       = (Ok tt, s1, [], [],
          [LogError "runCommand" "san build <entry> is not exist!"]).
Proof.
  apply (full_command_string_not_found SampleService.call_quiet
           SampleService.accept SampleService.parse SampleService.cli_0 "build"
           [(" ", Required "entry")] 10 ["src"] SampleService.ready []);
    [vm_compute; reflexivity|vm_compute; reflexivity|discriminate
    |vm_compute; reflexivity|vm_compute; reflexivity].
Defined.

Lemma flag_contributions_accumulate_witness :
  exists s2 flags,
    (do u <~ registerCommandFlag SampleService.accept
               [JStr "build"; Js.obj [("watch", JTrue)]; SampleService.fn 1];
     registerCommandFlag SampleService.accept
       [JStr "build <entry>";
        Js.obj [("watch", JFalse); ("analyze", JTrue)]; SampleService.fn 2])
      SampleService.ready = (Ok tt, s2)
    /\ s2.(registeredCommandHandlers) !! "build"
       = Some [SampleService.fn 1; SampleService.fn 2]
    /\ s2.(registeredCommandFlags) !! "build" = Some flags
    /\ Js.get flags "watch" = JFalse
    /\ Js.get flags "analyze" = JTrue.
Proof.
  destruct (flag_contributions_accumulate SampleService.accept
              "build" "build <entry>" KPlain KPlain
              [("watch", JTrue)] [("watch", JFalse); ("analyze", JTrue)]
              (SampleService.fn 1) (SampleService.fn 2) SampleService.ready)
    as (s2 & flags & Hrun & Hh & Hf & Hget & _);
    [vm_compute; reflexivity|vm_compute; reflexivity|vm_compute; reflexivity
    | | |vm_compute; reflexivity|vm_compute; reflexivity|].
  - apply (bool_decide_unpack _). vm_compute. reflexivity.
  - apply (bool_decide_unpack _). vm_compute. reflexivity.
  - exists s2, flags. split; [exact Hrun|]. split; [exact Hh|].
    split; [exact Hf|]. split; apply Hget.
Defined.

Lemma flags_without_command_witness :
  runCommand SampleService.call_quiet SampleService.accept SampleService.parse SampleService.cli_0
    "build" ["src"]
    (registerCommandFlag SampleService.accept
       [JStr "build"; Js.obj [("watch", JTrue)]; SampleService.fn 1]
       SampleService.ready).2 []
  = (Ok tt,
     (registerCommandFlag SampleService.accept
        [JStr "build"; Js.obj [("watch", JTrue)]; SampleService.fn 1]
        SampleService.ready).2,
     [], [], [LogError "runCommand" "san build is not exist!"]).
Proof.
  apply (flags_without_command SampleService.call_quiet SampleService.accept
           SampleService.parse SampleService.cli_0
           [JStr "build"; Js.obj [("watch", JTrue)]; SampleService.fn 1]
           "build" ["src"] SampleService.ready _ (Ok tt) []);
    vm_compute; reflexivity.
Defined.


Lemma init_not_retried_witness :
  let s1 := (init SampleService.accept SamplePlugins.code (JStr "production")
               SampleMore.project).2 in
  s1.(initialized) = true
  /\ s1.(mode) = JStr "production"
  /\ init SampleService.accept SamplePlugins.code (JStr "development") s1
     = (Ok tt, s1).
Proof.
  intros s1.
  apply (init_not_retried SampleService.accept SamplePlugins.code
           (JStr "production") (JStr "development") SampleMore.project s1
           (Ok tt)); vm_compute; reflexivity.
Defined.

Lemma init_without_project_options_witness :
  let sa := set_mode (JStr "production")
              (set_initialized true SampleMore.no_options) in
  init SampleService.accept SamplePlugins.code (JStr "production")
    SampleMore.no_options
  = (Throw (TypeError "reading chainWebpack"), sa)
  /\ sa.(initialized) = true.
Proof.
  intros sa.
  apply (init_without_project_options SampleService.accept SamplePlugins.code
           (JStr "production") SampleMore.no_options sa);
    vm_compute; reflexivity.
Defined.

Lemma init_project_callbacks_last_witness :
  let s1 := (init SampleService.accept SamplePlugins.code (JStr "production")
               SampleMore.project).2 in
  exists chainAdded rawAdded,
    s1.(webpackChainFns) = (chainAdded ++ [SampleService.fn 30])%list
    /\ s1.(webpackRawConfigFns)
       = (rawAdded ++ [Js.obj [("mode", JStr "production")]])%list.
Proof.
  intros s1.
  destruct (init_project_callbacks_last SampleService.accept SamplePlugins.code
              (JStr "production") SampleMore.project s1)
    as (ca & ra & Hc & Hr); [vm_compute; reflexivity..|].
  exists ca, ra. split; [exact Hc|exact Hr].
Defined.

Lemma addPlugin_appends_witness :
  let s' := (addPlugin [JStr "san-plugin"] SampleMore.project).2 in
  (exists d, s'.(plugins) = (SampleMore.project.(plugins) ++ [d])%list)
  /\ s'.(registeredCommands) = SampleMore.project.(registeredCommands)
  /\ s'.(webpackChainFns) = SampleMore.project.(webpackChainFns)
  /\ s'.(initialized) = SampleMore.project.(initialized).
Proof.
  intros s'.
  destruct (addPlugin_appends [JStr "san-plugin"] SampleMore.project s')
    as (Hp & Hc & _ & _ & Hw & _ & Hi); [vm_compute; reflexivity|].
  split; [exact Hp|]. split; [exact Hc|]. split; [exact Hw|exact Hi].
Defined.

Lemma named_plugin_applied_with_options_witness :
  exists d s1,
    addPlugin [JStr "san-plugin"; Js.obj [("port", JNum 8080)]]
      SamplePlugins.service = (Ok tt, s1)
    /\ s1.(plugins) = (SamplePlugins.service.(plugins) ++ [d])%list
    /\ initPlugin SampleService.accept SamplePlugins.code d s1
       = api_calls SampleService.accept
           (SamplePlugins.code 7 SamplePlugins.service.(projectOptions)
              (JsOps.or (Js.obj [("port", JNum 8080)]) (Js.obj []))) s1.
Proof.
  apply (named_plugin_applied_with_options SampleService.accept
           SamplePlugins.code "san-plugin" (Js.obj [("port", JNum 8080)])
           SamplePlugins.esm_module 7 [] SamplePlugins.service);
    vm_compute; reflexivity.
Defined.

Lemma inline_plugin_options_dropped_witness :
  exists s1,
    addPlugin [SampleMore.inline_plugin; Js.obj [("port", JNum 8080)]]
      SampleService.ready = (Ok tt, s1)
    /\ s1 = set_plugins
              (SampleService.ready.(plugins)
               ++ [Plugin (InlinePlugin SampleMore.inline_plugin)])%list
              SampleService.ready
    /\ initPlugin SampleService.accept SamplePlugins.code
         (Plugin (InlinePlugin SampleMore.inline_plugin)) s1
       = api_calls SampleService.accept
           (SamplePlugins.code 7 SampleService.ready.(projectOptions)
              (Js.obj [])) s1.
Proof.
  apply (inline_plugin_options_dropped SampleService.accept SamplePlugins.code
           SampleMore.inline_plugin (Js.obj [("port", JNum 8080)]) 7 []
           SampleService.ready);
    vm_compute; reflexivity.
Defined.

Lemma resolved_plugin_has_id_witness :
  let s' := (_resolvePlugin (JStr "san-plugin") SamplePlugins.service).2 in
  let before := effective_plugin SamplePlugins.esm_module in
  let after := deref (plugin_of (Plugin (ModuleExport "san-plugin" true))) s' in
  Js.get after "id"
  = (if Js.truthy (Js.get before "id") then Js.get before "id"
     else JStr "san-plugin")
  /\ forall k, k <> "id" -> Js.get after k = Js.get before k.
Proof.
  intros s'.
  apply (resolved_plugin_has_id "san-plugin" SamplePlugins.esm_module
           (Plugin (ModuleExport "san-plugin" true)) SamplePlugins.service s');
    vm_compute; reflexivity.
Defined.

Lemma registerCommand_same_name_replaces_witness :
  let s1 := (registerCommand SampleService.accept
               [JStr "build <entry>"; SampleService.fn 10]
               SampleService.ready).2 in
  let s2 := (registerCommand SampleService.accept
               [JStr "build [dir]"; JObj (KFunction 12) []] s1).2 in
  s2.(registeredCommands)
  = <[getCommandName "build [dir]" := plain_entry "build [dir]" 12]>
      SampleService.ready.(registeredCommands).
Proof.
  intros s1 s2.
  apply (registerCommand_same_name_replaces SampleService.accept
           "build <entry>" "build [dir]" (SampleService.fn 10) 12 []
           SampleService.ready s1 s2);
    vm_compute; reflexivity.
Defined.

Lemma runCommand_assigns_builder_to_flags_witness :
  let s1 := (runCommand SampleService.call_quiet SampleService.accept
               SampleService.parse SampleService.cli_0 "build" ["src"]
               SampleMore.with_options []).1.1.1.2 in
  let flags := default JUndefined (s1.(registeredCommandFlags) !! "build") in
  Js.get flags "watch" = JFalse /\ Js.get flags "analyze" = JTrue.
Proof.
  intros s1 flags.
  destruct (runCommand_assigns_builder_to_flags SampleService.call_quiet
              SampleService.accept SampleService.parse SampleService.cli_0 "build" ["src"]
              {| command := "build"; handler := UserHandler 10;
                 description := JFalse;
                 builder := Js.obj [("watch", JFalse)];
                 middlewares := Js.array [] |}
              KPlain SampleMore.contributed SampleMore.with_options [])
    as (Hget & _);
    [vm_compute; reflexivity|vm_compute; reflexivity| |].
  - apply (bool_decide_unpack _). vm_compute. reflexivity.
  - split; [exact (Hget "watch")|exact (Hget "analyze")].
Defined.

Lemma chainWebpack_not_function_breaks_resolve_witness :
  let s1 := (init SampleService.accept SamplePlugins.code (JStr "production")
               SampleMore.bad_chain).2 in
  is_ok (resolveChainableWebpackConfig SampleWebpack.base_config
           SampleWebpack.chain_code s1).1 = false
  /\ is_ok (resolveWebpackConfig SampleWebpack.base_config id
              SampleWebpack.chain_code SampleWebpack.raw_code
              SampleWebpack.merge None s1).1 = false.
Proof.
  intros s1.
  apply (chainWebpack_not_function_breaks_resolve SampleWebpack.base_config id
           SampleWebpack.chain_code SampleWebpack.raw_code
           SampleService.accept SamplePlugins.code (JStr "production")
           SampleMore.bad_chain s1 SampleWebpack.merge);
    vm_compute; reflexivity.
Defined.

Lemma resolveWebpackConfig_without_merge_witness :
  resolveWebpackConfig SampleWebpack.base_config id SampleWebpack.chain_code
    SampleMore.raw_quiet (fun a b => b) (Some SampleWebpack.base_config)
    SampleMore.quiet_service
  = resolveWebpackConfig SampleWebpack.base_config id SampleWebpack.chain_code
      SampleMore.raw_quiet SampleWebpack.merge (Some SampleWebpack.base_config)
      SampleMore.quiet_service.
Proof.
  destruct (resolveWebpackConfig_without_merge SampleWebpack.base_config id
              SampleWebpack.chain_code SampleMore.raw_quiet SampleWebpack.merge
              (fun a b => b) SampleWebpack.base_config SampleMore.quiet_service)
    as [_ Hsame].
  - vm_compute. reflexivity.
  - apply Forall_cons. split.
    + intros c c1 res H. injection H as _ <-. reflexivity.
    + apply Forall_cons. split; [reflexivity|apply Forall_nil_2].
  - exact Hsame.
Defined.

Lemma cloneRuleNames_keeps_other_properties_witness :
  let to := Js.array [Js.obj [("test", JStr "js")]] in
  let from := Js.array [SampleWebpack.rule "js" [("test", JStr "js")]] in
  let to' := Js.array [SampleWebpack.rule "js" [("test", JStr "js")]] in
  cloneRuleNames to from = Ok to'
  /\ Js.get (Js.get to' "0") "test" = Js.get (Js.get to "0") "test".
Proof.
  intros to from to'.
  assert (cloneRuleNames to from = Ok to') as H by (vm_compute; reflexivity).
  split; [exact H|].
  apply (cloneRuleNames_keeps_other_properties to from to' "0" "test" H);
    discriminate.
Defined.


Lemma loadProjectOptions_outputDir_witness :
  let init := Js.obj [("outputDir", JStr "dist//")] in
  exists c',
    (loadProjectOptions Sample.bare_host "/proj" init JUndefined).1 = Ok c'
    /\ exists out, Js.get c' "outputDir" = JStr out /\ "dist//" = out ++ "/".
Proof.
  intros init.
  assert (exists c,
            merged_options Sample.bare_host "/proj" init JUndefined
            = (Ok c, (merged_options Sample.bare_host "/proj" init JUndefined).2)
            /\ Js.get c "outputDir" = JStr "dist//") as (c & Hc & Hget).
  { eexists. split; vm_compute; reflexivity. }
  destruct (loadProjectOptions_outputDir Sample.bare_host "/proj" init
              JUndefined c _ Hc) as (c' & Hrun & Hout).
  exists c'. split; [by rewrite Hrun|].
  rewrite Hget in Hout. exact Hout.
Defined.

Lemma publicPath_url_kept_witness :
  let init := Js.obj [("publicPath", JStr "https://cdn.example.com/app")] in
  exists c',
    (loadProjectOptions Sample.bare_host "/proj" init JUndefined).1 = Ok c'
    /\ Js.get c' "publicPath" = JStr "https://cdn.example.com/app/".
Proof.
  intros init.
  assert (exists c,
            merged_options Sample.bare_host "/proj" init JUndefined
            = (Ok c, (merged_options Sample.bare_host "/proj" init JUndefined).2)
            /\ Js.get c "publicPath" = JStr "https://cdn.example.com/app")
    as (c & Hc & Hget).
  { eexists. split; vm_compute; reflexivity. }
  destruct (publicPath_url_kept Sample.bare_host "/proj" init JUndefined c _
              "https://cdn.example.com/app" Hc Hget)
    as (c' & Hrun & Hpath); [vm_compute; reflexivity|].
  exists c'. split; [by rewrite Hrun|]. exact Hpath.
Defined.

Lemma missing_config_file_falls_back_witness :
  loadProjectOptions Sample.bare_host "/proj" (Js.obj []) (JStr "missing.js")
  = ((loadProjectOptions Sample.bare_host "/proj" (Js.obj []) JFalse).1,
     LogWarn "config-file" ("missing.js" ++ " is not exists!")
       :: (loadProjectOptions Sample.bare_host "/proj" (Js.obj []) JFalse).2).
Proof.
  apply (missing_config_file_falls_back Sample.bare_host "/proj" (Js.obj [])
           "missing.js"); [discriminate|vm_compute; reflexivity].
Defined.

Lemma invalid_config_rejected_witness :
  let cfg := Js.obj [("pages", JStr "index")] in
  exists log,
    loadProjectOptions (SampleMore.strict_host cfg) "/proj" (Js.obj [])
      JUndefined
    = (Throw (SError "pages must be an object"),
       (log ++ [LogError "loadProjectOptions"
                  (show (JStr "/proj/san.config.js") ++ ": invalid format")])%list).
Proof.
  intros cfg.
  apply (invalid_config_rejected (SampleMore.strict_host cfg) "/proj"
           (Js.obj []) JUndefined (JStr "/proj/san.config.js") cfg
           "pages must be an object");
    vm_compute; reflexivity.
Defined.

Lemma non_object_config_still_merged_witness :
  let h := SampleMore.strict_host (JStr "ab") in
  exists log c,
    loadProjectOptions h "/proj" (Js.obj []) JUndefined
    = (Ok c,
       (log ++ [LogError "loadProjectOptions"
                  (show (JStr "/proj/san.config.js")
                   ++ ": must be an object")])%list)
    /\ Js.get c "1" = JStr "b"
    /\ Js.get c "assetsDir" = JStr "static".
Proof.
  intros h.
  destruct (non_object_config_still_merged h "/proj" (Js.obj []) JUndefined
              (JStr "/proj/san.config.js") (JStr "ab"))
    as ((log & Hrun) & Hreturns & _); [vm_compute; reflexivity..|].
  assert (exists c,
            finish_options h "/proj"
              (Lodash.defaultsDeep (JStr "ab")
                 (Lodash.defaultsDeep (Js.obj []) h.(defaultConfig))) = Ok c
            /\ Js.get c "1" = JStr "b"
            /\ Js.get c "assetsDir" = JStr "static") as (c & Hc & Hget).
  { eexists. vm_compute. repeat split; reflexivity. }
  exists log, c. split; [|exact Hget]. by rewrite Hrun, Hc.
Defined.

Lemma postcss_fills_gap_only_witness :
  let c0 := Js.obj [("css", Js.obj [("postcss", JFalse); ("sourceMap", JTrue)])] in
  exists c,
    finish_options SampleMore.postcss_host "/proj" c0 = Ok c
    /\ Js.get (Js.get c "css") "postcss" = JFalse.
Proof.
  intros c0.
  destruct (postcss_fills_gap_only SampleMore.postcss_host "/proj" c0
              "postcss") as [_ H].
  - vm_compute. reflexivity.
  - left. vm_compute. reflexivity.
  - vm_compute. reflexivity.
  - apply (bool_decide_unpack _). vm_compute. reflexivity.
  - assert (exists c, finish_options SampleMore.postcss_host "/proj" c0 = Ok c)
      as [c Hc].
    { eexists. vm_compute. reflexivity. }
    exists c. split; [exact Hc|].
    destruct (H c Hc) as (found & _ & Hget). rewrite Hget.
    vm_compute. reflexivity.
Defined.

Lemma loadEnv_keeps_existing_witness :
  let env : gmap string jsval := <["API" := JStr "/mine"]> ∅ in
  exists env',
    loadEnv SampleEnv.host "/proj" "production" env = Ok env'
    /\ env' !! "API" = Some (JStr "/mine").
Proof.
  intros env.
  assert (exists env', loadEnv SampleEnv.host "/proj" "production" env = Ok env')
    as [env' Henv].
  { eexists. vm_compute. reflexivity. }
  exists env'. split; [exact Henv|].
  apply (loadEnv_keeps_existing SampleEnv.host "/proj" "production" "API"
           env env' (JStr "/mine") Henv); [vm_compute; reflexivity|by left].
Defined.

Lemma loadEnv_local_wins_witness :
  exists env',
    loadEnv SampleMore.env_host "/proj" "" ∅ = Ok env'
    /\ env' !! "API" = Some (JStr "/local").
Proof.
  destruct (loadEnv_local_wins SampleMore.env_host "/proj" "" "API" ".env"
              (<["API" := "/api"]> (<["KEY" := "a"]> ∅)) ∅)
    as (env' & Hrun & Hget); [vm_compute; reflexivity..|].
  exists env'. split; [exact Hrun|].
  rewrite Hget. vm_compute. reflexivity.
Defined.

Lemma loadEnv_fails_iff_unreadable_witness :
  is_ok (loadEnv SampleMore.unreadable_host "/proj" "" ∅) = false.
Proof.
  apply (proj2 (loadEnv_fails_iff_unreadable SampleMore.unreadable_host
                  "/proj" "" ∅)).
  exists ".env". split; vm_compute; reflexivity.
Defined.

Lemma run_without_logger_witness :
  exists st' log,
    run SampleRun.call SampleService.accept SampleService.parse SampleService.cli_0
      SamplePlugins.code Sample.bare_host SampleEnv.host
      "build" JUndefined ["src"] SampleRun.start
    = Some (Throw (TypeError "not a function"), st', [], log)
    /\ st'.(Run.service).(initialized) = false
    /\ st'.(Run.service).(plugins) = [].
Proof.
  edestruct (run_without_logger SampleRun.call SampleService.accept
               SampleService.parse SampleService.cli_0 SamplePlugins.code Sample.bare_host
               SampleEnv.host "build" JUndefined ["src"] SampleRun.start
               "production")
    as (st' & log & Hrun & _ & _ & _ & Hi & Hp);
    [discriminate|vm_compute; reflexivity..|].
  exists st', log. split; [exact Hrun|]. split; [exact Hi|exact Hp].
Defined.

Lemma run_prepares_service_witness :
  let out := run SampleRun.call SampleService.accept SampleService.parse SampleService.cli_0
               SamplePlugins.code Sample.bare_host SampleEnv.host
               "build" SampleRun.argv ["src"] SampleRun.start in
  exists st' tr log,
    out = Some (Ok tt, st', tr, log)
    /\ st'.(Run.service).(initialized) = true
    /\ st'.(Run.service).(mode) = JStr "development".
Proof.
  intros out.
  assert (exists st' tr log, out = Some (Ok tt, st', tr, log))
    as (st' & tr & log & Hout).
  { eexists _, _, _. vm_compute. reflexivity. }
  exists st', tr, log. split; [exact Hout|].
  destruct (run_prepares_service SampleRun.call SampleService.accept
              SampleService.parse SampleService.cli_0 SamplePlugins.code Sample.bare_host
              SampleEnv.host "build" SampleRun.argv ["src"] SampleRun.start
              st' tr log) as (Hi & Hm & _);
    [vm_compute; reflexivity|exact Hout|].
  split; [exact Hi|]. rewrite Hm. vm_compute. reflexivity.
Defined.
